(** * School of Standard e-book generator: orchestration and export

    A shallow embedding of the provider orchestration ([services/ai.ts],
    [netlify/functions/ai-utils.ts]), of the resumable chapter sequencer
    ([App]: [handleWizardSubmit], [handleStartGeneration]) and of the document
    converter ([markdownToDocxParagraphs], [exportToEpub]), together with the
    properties the specification states about them.

    Asynchronous code is modelled by a small monad over an explicit [World]:
    the world scripts what every backend will answer (and after how long),
    and records the requests issued, the delays injected by [setTimeout] and
    the requests cancelled through an [AbortController]. *)

From Stdlib Require Import NArith Ascii.
From stdpp Require Import base option list strings pretty gmap.

Local Open Scope N_scope.

(** ** Thrown values and settled promises *)

(** What a JavaScript [throw] (or a rejected promise) carries. *)
Inductive Exn :=
| Error (message : string)        (* new Error(message) *)
| TypeError (message : string)    (* e.g. fetch: "Failed to fetch" *)
| AbortError                      (* fetch rejected by an abort signal *)
| Undefined.                      (* throw of a variable never assigned *)

Definition message (e : Exn) : string :=
  match e with
  | Error m => m
  | TypeError m => m
  | AbortError => "The operation was aborted."
  | Undefined => "undefined"
  end.

(** How a promise ends, [t] milliseconds after it was started; [Never] is a
    promise that stays pending for ever. *)
Inductive Settled (A : Type) :=
| Never
| Fulfilled (t : N) (a : A)
| Rejected (t : N) (e : Exn).
Arguments Never {A}.
Arguments Fulfilled {A} t a.
Arguments Rejected {A} t e.

(** ** The data model of [types.ts] *)

Record BookOptions := {
  topic : string;
  targetAudience : string;
  englishStyle : string;
  pageCount : string;
  targetChapterCount : nat;
  tone : string;
  authorName : string;
  objective : string;
  bookDescription : string;
  extras : list string
}.

Record ChapterOutline := { co_title : string; co_description : string }.

Record BookOutline := {
  title : string;
  subtitle : string;
  description : string;
  backCoverCopy : string;
  chapters : list ChapterOutline
}.

(** [ChapterContent]. The sequencer stores as [content] whatever the chapter
    operation was fulfilled with and never looks into it; the record is given
    for contents of any type [C], which is [string] where the code reads the
    content as the text its type declares. *)
Record ChapterContent {C : Type} := { cc_title : string; cc_content : C }.
Arguments ChapterContent : clear implicits.

(** [GeneratedBook extends BookOutline]: the outline's fields (the spread
    [...outline]) and the chapter contents. *)
Record GeneratedBook {C : Type} := {
  book : BookOutline;
  fullChapters : list (ChapterContent C)
}.
Arguments GeneratedBook : clear implicits.

Inductive AppStep :=
| INPUT | OUTLINE_LOADING | OUTLINE_REVIEW | GENERATING | COMPLETED | ERROR.

(** The [{title, subtitle}] argument of the chapter call. *)
Record BookInfo := { info_title : string; info_subtitle : string }.

(** A value as [JSON.parse] gives it. Numbers are taken whole: of a number
    the code asks only whether it is zero. *)
#[local] Unset Elimination Schemes.
Inductive Json :=
| JNull
| JBool (b : bool)
| JNumber (n : Z)
| JString (s : string)
| JArray (items : list Json)
| JObject (fields : list (string * Json)).
#[local] Set Elimination Schemes.

(** An outline as it comes out of [JSON.parse], before anything has checked
    it: [chapters] may be missing ([None], which is [undefined]), and when it
    is there it may be any value. *)
Record RawOutline := {
  raw_title : string;
  raw_subtitle : string;
  raw_description : string;
  raw_backCoverCopy : string;
  raw_chapters : option Json
}.

(** JavaScript truthiness of a value that may be [undefined]. *)
Definition js_truthy (v : option Json) : bool :=
  match v with
  | None | Some JNull => false
  | Some (JBool b) => b
  | Some (JNumber n) => negb (n =? 0)%Z
  | Some (JString s) => negb (String.eqb s "")
  | Some (JArray _) | Some (JObject _) => true
  end.

(** [object[key]] on the fields of an object: the last field of that name,
    the one [JSON.parse] keeps; [undefined] when there is none. *)
Fixpoint js_field (key : string) (fields : list (string * Json)) : option Json :=
  match fields with
  | [] => None
  | (k, v) :: rest =>
      match js_field key rest with
      | Some v' => Some v'
      | None => if String.eqb k key then Some v else None
      end
  end.

(** [v.length] for a truthy value [v]: the number of items of an array, of
    code units of a string, the field of that name of an object, and
    [undefined] for a number or a boolean. *)
Definition js_length (v : Json) : option Json :=
  match v with
  | JArray items => Some (JNumber (Z.of_nat (length items)))
  | JString s => Some (JNumber (Z.of_nat (String.length s)))
  | JObject fields => js_field "length" fields
  | JNull | JBool _ | JNumber _ => None
  end.

(** [v === 0] *)
Definition js_is_zero (v : option Json) : bool :=
  match v with
  | Some (JNumber n) => (n =? 0)%Z
  | _ => false
  end.

(** The chapter outline that a value is: an object with a text as [title]
    and a text as [description]. *)
Definition as_chapter (v : Json) : option ChapterOutline :=
  match v with
  | JObject fields =>
      match js_field "title" fields, js_field "description" fields with
      | Some (JString t), Some (JString d) =>
          Some {| co_title := t; co_description := d |}
      | _, _ => None
      end
  | _ => None
  end.

(** The chapter list that a value is: an array of chapter outlines. *)
Definition as_chapters (v : Json) : option (list ChapterOutline) :=
  match v with
  | JArray items => mapM as_chapter items
  | _ => None
  end.

(** A chapter outline and a chapter list as [JSON.parse] gives them. *)
Definition chapter_json (c : ChapterOutline) : Json :=
  JObject [("title", JString (co_title c)); ("description", JString (co_description c))].

Definition chapters_json (chs : list ChapterOutline) : Json :=
  JArray (chapter_json <$> chs).

(** ** The network *)

(** The prompt of a text request: the template literals of the services are
    functions of these values. *)
Inductive Prompt :=
| OutlinePrompt (options : BookOptions)
| ChapterPrompt (options : BookOptions) (bookInfo : BookInfo)
    (chapter : ChapterOutline) (chapterIndex : nat).

(** The payload of a request, by the shapes the services send. *)
Inductive Body :=
| TextBody (model : string) (prompt : Prompt) (json : bool)
| ImageBody (model : string) (prompt : string) (size : string)
| OutlineBody (options : BookOptions)
| ChapterBody (options : BookOptions) (bookInfo : BookInfo)
    (chapter : ChapterOutline) (chapterIndex totalChapters : nat)
| CoverBody (prompt : string) (size : string).

Record Request := { url : string; body : Body }.

(** What the caller finds in a parsed body where it reads its field, as in
    [data.choices[0].message.content], [data.data[0].b64_json] or
    [data.outline]. *)
Inductive Field :=
| NoPath              (* the object that holds the field is missing: the read throws *)
| NoField             (* the object is there, the field is not: [undefined] *)
| Value (s : string). (* the field, a text *)

(** An HTTP response: its status and status text, then its body, which has
    arrived [arrival] milliseconds after the response itself (never, for
    [None]): its raw text, and what [response.json()] gives, a rejection when
    the text is not JSON. *)
Record Response := {
  status : N;
  statusText : string;
  arrival : option N;
  text : string;
  parsed : Exn + Field
}.

Definition ok (r : Response) : bool := (200 <=? status r) && (status r <=? 299).

Inductive Answer :=
| Fails (e : Exn)
| Responds (r : Response).

(** What a backend does with one request: it answers after [latency]
    milliseconds, or never. *)
Record Reply := { latency : option N; answer : Answer }.

Record World := {
  script : gmap string (list Reply);  (* per endpoint, the replies to come *)
  requests : list Request;            (* requests issued, oldest first *)
  sleeps : list N;                    (* delays injected, oldest first *)
  aborted : list string;              (* endpoints whose request was aborted *)
  console : list string               (* console.log / console.warn lines *)
}.

Definition M (A : Type) : Type := World -> Settled A * World.

Definition ret {A} (a : A) : M A := fun w => (Fulfilled 0 a, w).
Definition throw {A} (e : Exn) : M A := fun w => (Rejected 0 e, w).

Definition delay {A} (t : N) (r : Settled A) : Settled A :=
  match r with
  | Never => Never
  | Fulfilled t' a => Fulfilled (t + t') a
  | Rejected t' e => Rejected (t + t') e
  end.

(** A continuation entered [t] milliseconds after the start. *)
Definition after {A} (t : N) (p : Settled A * World) : Settled A * World :=
  (delay t p.1, p.2).

(** [m], handing on the time it took. *)
Definition timed {A} (m : M A) : M (A * N) := fun w =>
  match m w with
  | (Fulfilled t a, w') => (Fulfilled t (a, t), w')
  | (Rejected t e, w') => (Rejected t e, w')
  | (Never, w') => (Never, w')
  end.

(** [await m] followed by [k]. *)
Definition bind {A B} (m : M A) (k : A -> M B) : M B := fun w =>
  match m w with
  | (Never, w') => (Never, w')
  | (Rejected t e, w') => (Rejected t e, w')
  | (Fulfilled t a, w') => after t (k a w')
  end.

(** [try { m } catch (e) { h e }]. *)
Definition catch {A} (m : M A) (h : Exn -> M A) : M A := fun w =>
  match m w with
  | (Rejected t e, w') => after t (h e w')
  | other => other
  end.

#[local] Instance M_ret : MRet M := @ret.
#[local] Instance M_bind : MBind M := fun A B k m => bind m k.

(** The world after a delay of [ms] was injected. *)
Definition slept (w : World) (ms : N) : World :=
  {| script := script w; requests := requests w; sleeps := sleeps w ++ [ms];
     aborted := aborted w; console := console w |}.

(** The world after a line was written to the console. *)
Definition logged (w : World) (line : string) : World :=
  {| script := script w; requests := requests w; sleeps := sleeps w;
     aborted := aborted w; console := console w ++ [line] |}.

(** [await new Promise(resolve => setTimeout(resolve, ms))] *)
Definition sleep (ms : N) : M unit := fun w => (Fulfilled ms tt, slept w ms).

(** [console.log(line)], [console.warn(line)] *)
Definition log (line : string) : M unit := fun w => (Fulfilled 0 tt, logged w line).

(** [fetch(url, {body, signal})]. The request is recorded and the next
    scripted reply of the endpoint is consumed; an endpoint with no reply left
    refuses the connection. [abortAt] is the delay after which the signal
    passed to [fetch] is aborted, if a signal is passed. *)
Definition fetch (u : string) (b : Body) (abortAt : option N) : M Response := fun w =>
  let reqs := requests w ++ [{| url := u; body := b |}] in
  match script w !! u with
  | Some (r :: rest) =>
      let w' abt := {| script := <[u := rest]> (script w); requests := reqs;
                       sleeps := sleeps w; aborted := abt; console := console w |} in
      let settle t :=
        match answer r with
        | Fails e => Rejected t e
        | Responds resp => Fulfilled t resp
        end in
      match latency r, abortAt with
      | Some t, None => (settle t, w' (aborted w))
      | None, None => (Never, w' (aborted w))
      | Some t, Some d =>
          if t <? d then (settle t, w' (aborted w))
          else (Rejected d AbortError, w' (aborted w ++ [u]))
      | None, Some d => (Rejected d AbortError, w' (aborted w ++ [u]))
      end
  | _ =>
      (Rejected 0 (TypeError "Failed to fetch"),
       {| script := script w; requests := reqs; sleeps := sleeps w;
          aborted := aborted w; console := console w |})
  end.

(** [response.text()]: the text of the body, once the body has arrived. *)
Definition response_text (r : Response) : M string := fun w =>
  match arrival r with
  | Some a => (Fulfilled a (text r), w)
  | None => (Never, w)
  end.

(** [response.json()]: the parsed body once the body has arrived, a rejection
    when it is not JSON. *)
Definition response_json (r : Response) : M Field := fun w =>
  match arrival r with
  | Some a =>
      (match parsed r with
       | inl e => Rejected a e
       | inr d => Fulfilled a d
       end, w)
  | None => (Never, w)
  end.

(** [response.json()] on the response to a request to [u] whose signal is
    aborted [abortIn] milliseconds from now: a body that has not arrived by
    then is given up and the promise rejected. *)
Definition response_json_signal (u : string) (r : Response) (abortIn : N) : M Field :=
  fun w =>
  let given_up :=
    (Rejected abortIn AbortError,
     {| script := script w; requests := requests w; sleeps := sleeps w;
        aborted := aborted w ++ [u]; console := console w |}) in
  match arrival r with
  | Some a => if a <? abortIn then response_json r w else given_up
  | None => given_up
  end.

(** Reading the field out of the parsed body, without optional chaining, as
    in [data.choices[0].message.content]: [undefined] when the field is not
    there, an exception when the object that should hold it is not. *)
Definition content (d : Field) : M (option string) :=
  match d with
  | Value s => mret (Some s)
  | NoField => mret None
  | NoPath => throw (TypeError "Cannot read properties of undefined")
  end.

(** Reading it with optional chaining, as in
    [data?.choices?.[0]?.message?.content]: nothing throws. *)
Definition content_if_any (d : Field) : option string :=
  match d with
  | Value s => Some s
  | NoField | NoPath => None
  end.

(** A value in a template literal: [undefined] is written as the word. *)
Definition in_template (v : option string) : string := default "undefined" v.

(** ** Helpers of [services/ai.ts] and [netlify/functions/ai-utils.ts] *)

(** [withTimeout]: [Promise.race] of the promise against a timer that rejects
    after [ms]. The promise has been started by the caller and keeps running
    when the timer wins; nothing is cancelled. A tie goes to the timer. *)
Definition withTimeout {A} (promise : M A) (ms : N) : M A := fun w =>
  let timeout := Rejected ms (Error ("Timeout after " +:+ pretty ms +:+ "ms")) in
  match promise w with
  | (Never, w') => (timeout, w')
  | (Fulfilled t a, w') => if t <? ms then (Fulfilled t a, w') else (timeout, w')
  | (Rejected t e, w') => if t <? ms then (Rejected t e, w') else (timeout, w')
  end.

Definition retryable (st : N) : bool := (500 <=? st) || (st =? 429).

(** The loop of [fetchWithRetry], with [remaining] iterations to go from
    index [i] on: [for (let i = 0; i <= retries; i++)]. *)
Fixpoint fetchWithRetry_loop (u : string) (options : Body)
    (remaining i retries : nat) (lastError : Exn) : M Response :=
  match remaining with
  | O => throw lastError
  | S remaining' =>
      catch
        (response ← fetch u options None;
         if retryable (status response)
         then throw (Error ("Server status: " +:+ pretty (status response)))
         else mret response)
        (fun e =>
           (if (i <? retries)%nat
            then sleep (1000 * 2 ^ N.of_nat i)
            else mret tt);;
           fetchWithRetry_loop u options remaining' (S i) retries e)
  end.

Definition fetchWithRetry (u : string) (options : Body) (retries : nat) : M Response :=
  fetchWithRetry_loop u options (S retries) 0 retries Undefined.

(** The default of the [retries] parameter. *)
Definition default_retries : nat := 2.

(** ** Vocabulary for the effects of the retry loop *)

Definition request (u : string) (options : Body) : Request :=
  {| url := u; body := options |}.

Definition backoff (i : nat) : N := 1000 * 2 ^ N.of_nat i.

(** [n] attempts from index [i] on: each one request to the same endpoint,
    and one backoff delay after each attempt but the last. *)
Definition attempts_made {A} (u : string) (options : Body)
    (w : World) (i n : nat) (p : Settled A * World) : Prop :=
  requests p.2 = requests w ++ replicate n (request u options) /\
  sleeps p.2 = sleeps w ++ map backoff (seq i (n - 1)).

(** The world after the next scripted reply of [u] was consumed. *)
Definition popped (u : string) (options : Body) (w : World) (rest : list Reply) : World :=
  {| script := <[u := rest]> (script w);
     requests := requests w ++ [request u options];
     sleeps := sleeps w; aborted := aborted w; console := console w |}.

Definition http (t : N) (r : Response) : Reply :=
  {| latency := Some t; answer := Responds r |}.

(** ** The direct-call service: [services/ai.ts], second module *)

Record Keys := { OPENAI : string; DEEPSEEK : string; GEMINI : string }.

(** JavaScript truthiness of a string that may be [undefined]. *)
Definition truthy (s : option string) : bool :=
  match s with
  | Some s => negb (String.eqb s "")
  | None => false
  end.

(** The size tier of a cover, ["1K" | "2K" | "4K"]. *)
Inductive Size := K1 | K2 | K4.

Definition size_name (s : Size) : string :=
  match s with K1 => "1K" | K2 => "2K" | K4 => "4K" end.

Definition png (b64 : string) : string := "data:image/png;base64," +:+ b64.

Module Direct.
Section Service.
Variable KEYS : Keys.
(** [JSON.parse] on the cleaned text: [None] when the text is not JSON (the
    function throws), otherwise the parsed value, [Some None] when it is no
    object. *)
Variable parseJSON : string -> option (option RawOutline).

Definition OLLAMA_URL : string := "http://localhost:11434/api/chat".
Definition OPENAI_URL : string := "https://api.openai.com/v1".
Definition DEEPSEEK_URL : string := "https://api.deepseek.com/chat/completions".
(** The Gemini SDK is reached through [ai.models.generateContent]; its calls
    are recorded under the name of the model, and settle when the SDK has the
    whole answer. *)
Definition GEMINI_TEXT : string := "gemini-3-flash-preview".
Definition GEMINI_IMAGE : string := "gemini-2.5-flash-image".

(** [cleanAndParseJSON(text)]; on [undefined], [text.trim()] throws. *)
Definition cleanAndParseJSON (text : option string) : M (option RawOutline) :=
  match text with
  | None => throw (TypeError "Cannot read properties of undefined (reading 'trim')")
  | Some text =>
      match parseJSON text with
      | Some v => mret v
      | None => throw (Error "AI response was not valid JSON")
      end
  end.

Definition callOpenAI (endpoint : string) (b : Body) : M Field :=
  if negb (truthy (Some (OPENAI KEYS))) then throw (Error "OpenAI Key Missing")
  else
    response ← fetchWithRetry (OPENAI_URL +:+ endpoint) b default_retries;
    if negb (ok response)
    then
      txt ← response_text response;
      throw (Error ("OpenAI Error: " +:+ pretty (status response) +:+ " - " +:+ txt))
    else response_json response.

Definition callDeepSeek (p : Prompt) (jsonMode : bool) : M Field :=
  if negb (truthy (Some (DEEPSEEK KEYS))) then throw (Error "DeepSeek Key Missing")
  else
    response ← fetchWithRetry DEEPSEEK_URL (TextBody "deepseek-chat" p jsonMode)
                 default_retries;
    if negb (ok response)
    then
      txt ← response_text response;
      throw (Error ("DeepSeek Error: " +:+ pretty (status response) +:+ " - " +:+ txt))
    else response_json response.

(** [response.text] of the SDK: the text of the answer, or [undefined]. *)
Definition callGemini (p : Prompt) (isJson : bool) : M (option string) :=
  if negb (truthy (Some (GEMINI KEYS))) then throw (Error "Gemini Key Missing")
  else
    response ← fetch GEMINI_TEXT (TextBody GEMINI_TEXT p isJson) None;
    mret (match parsed response with
          | inr d => content_if_any d
          | inl _ => None
          end).

(** The promise of [response.json()] is returned without [await]: its
    rejection does not pass through the [catch]. *)
Definition callOllama (p : Prompt) (jsonMode : bool) : M Field :=
  response ←
    catch
      (response ← fetch OLLAMA_URL (TextBody "deepseek-r1:7b" p jsonMode) None;
       if negb (ok response)
       then throw (Error ("Ollama Error: " +:+ pretty (status response)))
       else mret response)
      (fun e =>
         (match e with
          | TypeError "Failed to fetch" =>
              log "Ollama connection failed. Ensure Ollama is running (ollama serve) and OLLAMA_ORIGINS='*' is set."
          | _ => mret tt
          end);;
         throw e);
  response_json response.

(** The four [try] blocks of [generateBookOutline]. *)
Definition outlineGemini (options : BookOptions) : M (option RawOutline) :=
  log "Attempting Gemini for Outline...";;
  text ← withTimeout (callGemini (OutlinePrompt options) true) 120000;
  if negb (truthy text) then throw (Error "Empty response")
  else cleanAndParseJSON text.

Definition outlineOpenAI (options : BookOptions) : M (option RawOutline) :=
  log "Attempting OpenAI for Outline...";;
  d ← withTimeout
        (callOpenAI "/chat/completions" (TextBody "gpt-4o" (OutlinePrompt options) true))
        45000;
  c ← content d;
  cleanAndParseJSON c.

Definition outlineDeepSeek (options : BookOptions) : M (option RawOutline) :=
  log "Attempting DeepSeek for Outline...";;
  d ← withTimeout (callDeepSeek (OutlinePrompt options) true) 45000;
  c ← content d;
  cleanAndParseJSON c.

Definition outlineOllama (options : BookOptions) : M (option RawOutline) :=
  log "Attempting Ollama for Outline...";;
  d ← withTimeout (callOllama (OutlinePrompt options) true) 120000;
  c ← content d;
  cleanAndParseJSON c.

Definition generateBookOutline (options : BookOptions) : M (option RawOutline) :=
  let errors : list string := [] in
  catch (outlineGemini options) (fun e =>
    log ("Gemini Failed: " +:+ message e);;
    let errors := errors ++ ["Gemini: " +:+ message e] in
  catch (outlineOpenAI options) (fun e =>
    log ("OpenAI Failed: " +:+ message e);;
    let errors := errors ++ ["OpenAI: " +:+ message e] in
  catch (outlineDeepSeek options) (fun e =>
    log ("DeepSeek Failed: " +:+ message e);;
    let errors := errors ++ ["DeepSeek: " +:+ message e] in
  catch (outlineOllama options) (fun e =>
    log ("Ollama Failed: " +:+ message e);;
    let errors := errors ++ ["Ollama: " +:+ message e] in
  throw (Error ("All AI providers failed. " +:+ String.concat ", " errors)))))).

(** The four [try] blocks of [generateChapterContent]. A block that returns
    gives [Some] of the value it returns, which is [undefined] ([None]) when
    the reply holds no content; a block left without [return] and without
    exception gives [None]. *)
Definition chapterGemini (p : Prompt) : M (option (option string)) :=
  text ← withTimeout (callGemini p false) 120000;
  if truthy text then mret (Some text) else mret None.

Definition chapterOpenAI (p : Prompt) : M (option (option string)) :=
  d ← withTimeout (callOpenAI "/chat/completions" (TextBody "gpt-4o" p false)) 60000;
  c ← content d;
  mret (Some c).

Definition chapterDeepSeek (p : Prompt) : M (option (option string)) :=
  d ← withTimeout (callDeepSeek p false) 60000;
  c ← content d;
  mret (Some c).

Definition chapterOllama (p : Prompt) : M (option (option string)) :=
  d ← withTimeout (callOllama p false) 180000;
  c ← content d;
  mret (Some c).

(** [try { block } catch (e) { console.warn(warning, e) }], then [next] unless
    the block returned. *)
Definition tryBlock {A} (block : M (option A)) (warning : string) (next : M A) : M A :=
  r ← catch block (fun e => log warning;; mret None);
  match r with
  | Some v => mret v
  | None => next
  end.

Definition chapter_failed : string :=
  "[Error: Chapter generation failed across all providers.]".

(** The operation is fulfilled with a text, or with [undefined]. *)
Definition generateChapterContent (options : BookOptions) (bookInfo : BookInfo)
    (chapter : ChapterOutline) (chapterIndex totalChapters : nat) : M (option string) :=
  let p := ChapterPrompt options bookInfo chapter chapterIndex in
  tryBlock (chapterGemini p) "Gemini Chapter Failed"
  (tryBlock (chapterOpenAI p) "OpenAI Chapter Failed"
  (tryBlock (chapterDeepSeek p) "DeepSeek Chapter Failed"
  (tryBlock (chapterOllama p) "Ollama Chapter Failed"
  (mret (Some chapter_failed))))).

(** In the answer of the image model the field read is [inlineData.data] of
    the first part that has [inlineData]; without such a part the loop ends
    and the block throws. *)
Definition generateCoverImage (prompt : string) (size : Size) : M string :=
  catch
    (if negb (truthy (Some (GEMINI KEYS))) then throw (Error "No Gemini Key")
     else
       response ← fetch GEMINI_IMAGE (ImageBody GEMINI_IMAGE prompt "3:4") None;
       match parsed response with
       | inr (Value d) => mret (png d)
       | inr NoField => mret (png (in_template None))
       | inr NoPath | inl _ => throw (Error "Gemini returned no image data")
       end)
    (fun e =>
       log "Gemini Image Failed, falling back to OpenAI...";;
       catch
         (d ← callOpenAI "/images/generations" (ImageBody "dall-e-3" prompt "1024x1024");
          c ← content d;
          mret (png (in_template c)))
         (fun e' =>
            log "DALL-E 3 Failed";;
            throw (Error "Failed to generate cover image with all providers."))).

Definition editCoverImage (base64 : string) (prompt : string) : M string :=
  generateCoverImage prompt K1.

End Service.
End Direct.

(** ** The proxied service: [services/ai.ts], first module *)

Module Proxy.
Section Service.
(** How the JSON text of the [outline] field decodes; as for
    [Direct.cleanAndParseJSON], [Some None] is a value that is no object. *)
Variable parseJSON : string -> option (option RawOutline).

(** [postJSON(path, body, timeoutMs)]: the timer aborts the controller whose
    signal the request carries, unless the body has been read by then. A body
    that cannot be read, because it is not JSON or because the request is
    aborted while it arrives, is taken to be the empty object. On a reply
    that is not 2xx the field read is [error]. *)
Definition postJSON (path : string) (b : Body) (timeoutMs : N) : M Field :=
  '(response, t) ← timed (fetch path b (Some timeoutMs));
  data ← catch (response_json_signal path response (timeoutMs - t))
               (fun _ => mret NoField);
  if negb (ok response)
  then throw (Error (match data with
                     | Value msg => msg
                     | NoField | NoPath =>
                         "Request failed (" +:+ pretty (status response) +:+ ")"
                     end))
  else mret data.

(** [data.outline], which an object without the field leaves [undefined]. *)
Definition generateBookOutline (options : BookOptions) : M (option RawOutline) :=
  d ← postJSON "/api/ai/outline" (OutlineBody options) 120000;
  outline ← content d;
  mret (match outline with
        | Some s => match parseJSON s with Some v => v | None => None end
        | None => None
        end).

Definition generateChapterContent (options : BookOptions) (bookInfo : BookInfo)
    (chapter : ChapterOutline) (chapterIndex totalChapters : nat) : M (option string) :=
  d ← postJSON "/api/ai/chapter"
        (ChapterBody options bookInfo chapter chapterIndex totalChapters) 180000;
  content d.

Definition generateCoverImage (prompt : string) (size : Size) : M (option string) :=
  d ← postJSON "/api/ai/cover" (CoverBody prompt (size_name size)) 120000;
  content d.

Definition editCoverImage (_base64 : string) (prompt : string) : M (option string) :=
  generateCoverImage prompt K1.

End Service.
End Proxy.

(** ** The OpenAI-only service *)

Module OpenAIOnly.

Definition callOpenAI (endpoint : string) (b : Body) : M Field :=
  response ← fetch (Direct.OPENAI_URL +:+ endpoint) b None;
  if negb (ok response)
  then
    errorText ← response_text response;
    log ("OpenAI API Error: " +:+ errorText);;
    throw (Error ("OpenAI API Error: " +:+ pretty (status response) +:+ " "
                    +:+ statusText response))
  else response_json response.

(** The text returned when the chapter call fails. *)
Definition chapter_error (chapterIndex : nat) : string :=
  "[System Error: Could not generate content for Chapter "
  +:+ pretty (chapterIndex + 1)%nat +:+ ". Please retry.]".

Definition generateChapterContent (options : BookOptions) (bookInfo : BookInfo)
    (chapter : ChapterOutline) (chapterIndex totalChapters : nat) : M (option string) :=
  catch
    (d ← callOpenAI "/chat/completions"
           (TextBody "gpt-4o" (ChapterPrompt options bookInfo chapter chapterIndex) false);
     content d)
    (fun e =>
       log ("Error generating chapter " +:+ pretty (chapterIndex + 1)%nat +:+ ":");;
       mret (Some (chapter_error chapterIndex))).

Definition generateCoverImage (prompt : string) (size : Size) : M string :=
  catch
    (d ← callOpenAI "/images/generations" (ImageBody "dall-e-3" prompt "1024x1024");
     b64 ← content d;
     mret (png (in_template b64)))
    (fun e => log "Error generating image:";; throw e).

Definition editCoverImage (base64Image : string) (prompt : string) : M string :=
  generateCoverImage prompt K1.

End OpenAIOnly.

(** ** The orchestration as the specification words it

    Iterate the priority list; on success return at once; on failure record
    the reason and go on; when the list is exhausted fail with all the
    reasons. *)

Fixpoint fallback {A} (providers : list (string * M A)) (errors : list string) : M A :=
  match providers with
  | [] => throw (Error ("All AI providers failed. " +:+ String.concat ", " errors))
  | (name, attempt) :: rest =>
      catch attempt (fun e =>
        log (name +:+ " Failed: " +:+ message e);;
        fallback rest (errors ++ [name +:+ ": " +:+ message e]))
  end.

(** The same for blocks that may also end without a result, with a value to
    return when every block has. *)
Fixpoint fallbackOr {A} (blocks : list (string * M (option A))) (final : M A) : M A :=
  match blocks with
  | [] => final
  | (name, block) :: rest =>
      Direct.tryBlock block (name +:+ " Chapter Failed") (fallbackOr rest final)
  end.

(** A prefix of providers that all fail, one after the other: the time it
    takes, the reasons recorded and the world it leaves. *)
Fixpoint failures {A} (pre : list (string * M A)) (errors : list string) (w : World)
    : option (N * list string * World) :=
  match pre with
  | [] => Some (0, errors, w)
  | (name, attempt) :: rest =>
      match attempt w with
      | (Rejected t e, w') =>
          match failures rest (errors ++ [name +:+ ": " +:+ message e])
                  (logged w' (name +:+ " Failed: " +:+ message e)) with
          | Some (T, errs, w'') => Some (t + T, errs, w'')
          | None => None
          end
      | _ => None
      end
  end.

(** A prefix of blocks that all end without a result (by an exception, which
    is logged, or by falling through). *)
Fixpoint fallthroughs {A} (pre : list (string * M (option A))) (w : World)
    : option (N * World) :=
  match pre with
  | [] => Some (0, w)
  | (name, block) :: rest =>
      match block w with
      | (Rejected t e, w') =>
          match fallthroughs rest (logged w' (name +:+ " Chapter Failed")) with
          | Some (T, w'') => Some (t + T, w'')
          | None => None
          end
      | (Fulfilled t None, w') =>
          match fallthroughs rest w' with
          | Some (T, w'') => Some (t + T, w'')
          | None => None
          end
      | _ => None
      end
  end.

(** ** The sequencer: [App] *)

Record App {C : Type} := {
  step : AppStep;
  options : option BookOptions;
  outline : option BookOutline;
  generatedBook : option (GeneratedBook C);
  generatedChapters : list (ChapterContent C);
  error : option string;
  currentBookId : option string
}.
Arguments App : clear implicits.

(** The calls to the persistence store ([services/supabase.ts]); none of them
    throws. *)
Inductive StoreOp {C : Type} :=
| CreateBook (o : BookOptions)
| UpdateBookWithOutline (bookId : string) (result : RawOutline)
| SaveChapter (bookId : string) (chapter : ChapterContent C) (index : nat)
    (description : string)
| CompleteBook (bookId : string).
Arguments StoreOp : clear implicits.

(** The component state, the world of the services, the store calls made and
    the chapter indices passed to [generateChapterContent], oldest first. *)
Record Machine {C : Type} := {
  app : App C;
  world : World;
  store : list (StoreOp C);
  asked : list nat
}.
Arguments Machine : clear implicits.

Definition setStep {C} (s : AppStep) (a : App C) : App C :=
  {| step := s; options := options a; outline := outline a;
     generatedBook := generatedBook a; generatedChapters := generatedChapters a;
     error := error a; currentBookId := currentBookId a |}.

Definition setOptions {C} (o : option BookOptions) (a : App C) : App C :=
  {| step := step a; options := o; outline := outline a;
     generatedBook := generatedBook a; generatedChapters := generatedChapters a;
     error := error a; currentBookId := currentBookId a |}.

Definition setOutline {C} (ol : option BookOutline) (a : App C) : App C :=
  {| step := step a; options := options a; outline := ol;
     generatedBook := generatedBook a; generatedChapters := generatedChapters a;
     error := error a; currentBookId := currentBookId a |}.

Definition setGeneratedBook {C} (b : option (GeneratedBook C)) (a : App C) : App C :=
  {| step := step a; options := options a; outline := outline a;
     generatedBook := b; generatedChapters := generatedChapters a;
     error := error a; currentBookId := currentBookId a |}.

(** [setGeneratedChapters(f)], the functional update. *)
Definition setGeneratedChapters {C}
    (f : list (ChapterContent C) -> list (ChapterContent C)) (a : App C) : App C :=
  {| step := step a; options := options a; outline := outline a;
     generatedBook := generatedBook a; generatedChapters := f (generatedChapters a);
     error := error a; currentBookId := currentBookId a |}.

Definition setError {C} (e : option string) (a : App C) : App C :=
  {| step := step a; options := options a; outline := outline a;
     generatedBook := generatedBook a; generatedChapters := generatedChapters a;
     error := e; currentBookId := currentBookId a |}.

Definition setCurrentBookId {C} (i : option string) (a : App C) : App C :=
  {| step := step a; options := options a; outline := outline a;
     generatedBook := generatedBook a; generatedChapters := generatedChapters a;
     error := error a; currentBookId := i |}.

Definition with_app {C} (f : App C -> App C) (m : Machine C) : Machine C :=
  {| app := f (app m); world := world m; store := store m; asked := asked m |}.

Definition with_world {C} (w : World) (m : Machine C) : Machine C :=
  {| app := app m; world := w; store := store m; asked := asked m |}.

Definition stored {C} (op : StoreOp C) (m : Machine C) : Machine C :=
  {| app := app m; world := world m; store := store m ++ [op]; asked := asked m |}.

Definition asking {C} (i : nat) (m : Machine C) : Machine C :=
  {| app := app m; world := world m; store := store m; asked := asked m ++ [i] |}.

(** How far [handleStartGeneration] got. *)
Inductive Progress {C : Type} :=
| Continue (i : nat) (chapters : list (ChapterContent C)) (m : Machine C)
| Threw (m : Machine C)       (* an exception reached the [catch] *)
| Pending (m : Machine C).    (* an [await] that never resumes *)
Arguments Progress : clear implicits.

(** How [handleWizardSubmit] leaves the component: in the state [m]; or, for
    [Unchecked result m], in the state [m] but for the outline, which holds
    [result], a value that passed the check of the handler although its
    [chapters] is no array of chapter outlines, and so no [BookOutline]. *)
Inductive Submission {C : Type} :=
| Shown (m : Machine C)
| Unchecked (result : RawOutline) (m : Machine C).
Arguments Submission : clear implicits.

Section Sequencer.
Context {C : Type}.
(** The two operations imported from [./services/ai]. *)
Variable generateBookOutline : BookOptions -> M (option RawOutline).
Variable generateChapterContent :
  BookOptions -> BookInfo -> ChapterOutline -> nat -> nat -> M C.

Definition outline_error : string :=
  "Failed to generate outline. The AI service may be busy or out of credits. ".

(** The [catch] of [handleWizardSubmit]. *)
Definition outline_failed (msg : string) (m : Machine C) : Machine C :=
  with_app (fun a => setStep INPUT (setError (Some (outline_error +:+ msg)) a)) m.

(** [handleWizardSubmit(formData)], up to the call of the outline operation;
    [bookId] is what [createBook] answers. *)
Definition submitting (bookId : option string) (formData : BookOptions)
    (m : Machine C) : Machine C :=
  let m := with_app (fun a =>
             setError None (setStep OUTLINE_LOADING (setOptions (Some formData) a))) m in
  let m := stored (CreateBook formData) m in
  match bookId with
  | Some id => with_app (setCurrentBookId (Some id)) m
  | None =>
      with_world
        (logged (world m) "Failed to create book in Supabase, continuing locally...") m
  end.

(** [!result || !result.chapters || result.chapters.length === 0] *)
Definition outline_invalid (result : option RawOutline) : bool :=
  match result with
  | None => true
  | Some raw =>
      negb (js_truthy (raw_chapters raw))
      || js_is_zero (raw_chapters raw ≫= js_length)
  end.

(** [handleWizardSubmit], from the result of the outline operation on: the
    check, then [setOutline(result)], [updateBookWithOutline(bookId, result)]
    when there is a book, and [setStep(AppStep.OUTLINE_REVIEW)]. *)
Definition submitted (bookId : option string) (result : option RawOutline)
    (m : Machine C) : Submission C :=
  match result with
  | Some raw =>
      if outline_invalid result
      then Shown (outline_failed "Generated outline was empty or invalid." m)
      else
        let updated (m : Machine C) :=
          match bookId with
          | Some id => stored (UpdateBookWithOutline id raw) m
          | None => m
          end in
        match raw_chapters raw ≫= as_chapters with
        | Some chs =>
            let ol := {| title := raw_title raw; subtitle := raw_subtitle raw;
                         description := raw_description raw;
                         backCoverCopy := raw_backCoverCopy raw;
                         chapters := chs |} in
            Shown (with_app (setStep OUTLINE_REVIEW)
                     (updated (with_app (setOutline (Some ol)) m)))
        | None => Unchecked raw (with_app (setStep OUTLINE_REVIEW) (updated m))
        end
  | None => Shown (outline_failed "Generated outline was empty or invalid." m)
  end.

Definition handleWizardSubmit (bookId : option string) (formData : BookOptions)
    (m : Machine C) : Submission C :=
  let m := submitting bookId formData m in
  match generateBookOutline formData (world m) with
  | (Never, w) => Shown (with_world w m)
  | (Rejected _ e, w) => Shown (outline_failed (message e) (with_world w m))
  | (Fulfilled _ result, w) => submitted bookId result (with_world w m)
  end.

(** One turn of the [for] loop of [handleStartGeneration], at index [i]. *)
Definition iteration (o : BookOptions) (ol : BookOutline) (bookId : option string)
    (i : nat) (chs : list (ChapterContent C)) (m : Machine C) : Progress C :=
  match chapters ol !! i with
  | None => Threw m
  | Some chapterMeta =>
      let m := asking i m in
      match generateChapterContent o
              {| info_title := title ol; info_subtitle := subtitle ol |}
              chapterMeta i (length (chapters ol)) (world m) with
      | (Never, w) => Pending (with_world w m)
      | (Rejected _ _, w) => Threw (with_world w m)
      | (Fulfilled _ c, w) =>
          let newChapter := {| cc_title := co_title chapterMeta; cc_content := c |} in
          let m := with_world w m in
          let m := with_app (setGeneratedChapters (fun prev => prev ++ [newChapter])) m in
          let m := match bookId with
                   | Some id =>
                       stored (SaveChapter id newChapter i (co_description chapterMeta)) m
                   | None => m
                   end in
          let m := with_world (slept (world m) 500) m in
          Continue (S i) (chs ++ [newChapter]) m
      end
  end.

(** [for (let i = startIndex; i < outline.chapters.length; i++)], with
    [remaining] turns to go. *)
Fixpoint generation_loop (o : BookOptions) (ol : BookOutline) (bookId : option string)
    (remaining i : nat) (chs : list (ChapterContent C)) (m : Machine C) : Progress C :=
  match remaining with
  | O => Continue i chs m
  | S remaining' =>
      match iteration o ol bookId i chs m with
      | Continue i' chs' m' => generation_loop o ol bookId remaining' i' chs' m'
      | stopped => stopped
      end
  end.

Definition generation_error : string :=
  "An error occurred during book generation. Partial progress may be lost.".

(** [handleStartGeneration(resume)]: the closure reads [outline], [options],
    [generatedChapters] and [currentBookId] of the state it was created in. *)
Definition handleStartGeneration (resume : bool) (m : Machine C) : Machine C :=
  match outline (app m), options (app m) with
  | Some ol, Some o =>
      let captured := generatedChapters (app m) in
      let bookId := currentBookId (app m) in
      let m := with_app (setStep GENERATING) m in
      let m := if resume then m else with_app (setGeneratedChapters (fun _ => [])) m in
      let startIndex := if resume then length captured else 0%nat in
      let chs := if resume then captured else [] in
      let m := with_app (setError None) m in
      match generation_loop o ol bookId (length (chapters ol) - startIndex)
              startIndex chs m with
      | Continue _ chs m =>
          let m := with_app (setGeneratedBook
                               (Some {| book := ol; fullChapters := chs |})) m in
          let m := match bookId with
                   | Some id => stored (CompleteBook id) m
                   | None => m
                   end in
          with_app (setStep COMPLETED) m
      | Threw m =>
          with_app (fun a => setStep ERROR (setError (Some generation_error) a)) m
      | Pending m => m
      end
  | _, _ => m
  end.

End Sequencer.

(** ** Vocabulary for the generation loop *)

(** The state of the loop between two turns: the index, the local [chapters]
    array and the machine. *)
Definition LoopState (C : Type) : Type := nat * list (ChapterContent C) * Machine C.

(** [turns n s s']: [n] successful turns of the loop lead from [s] to [s']. *)
Inductive turns {C}
    (gen : BookOptions -> BookInfo -> ChapterOutline -> nat -> nat -> M C)
    (o : BookOptions) (ol : BookOutline) (bookId : option string)
    : nat -> LoopState C -> LoopState C -> Prop :=
| turns_none s : turns gen o ol bookId 0 s s
| turns_more n i chs m i' chs' m' s'' :
    iteration gen o ol bookId i chs m = Continue i' chs' m' ->
    turns gen o ol bookId n (i', chs', m') s'' ->
    turns gen o ol bookId (S n) (i, chs, m) s''.

(** The call of the chapter operation for the chapter at index [i] of the
    outline, as the loop makes it. *)
Definition chapter_call {C}
    (gen : BookOptions -> BookInfo -> ChapterOutline -> nat -> nat -> M C)
    (o : BookOptions) (ol : BookOutline) (i : nat) (meta : ChapterOutline) : M C :=
  gen o {| info_title := title ol; info_subtitle := subtitle ol |} meta i
    (length (chapters ol)).

(** [produced gen o ol i w new w']: starting in the world [w], the chapter
    operation was called for the chapters at the indices [i], [i + 1], ... of
    the outline, one call after the other, each in the world the one before
    left after the pause of 500 ms, and each call was fulfilled; [new] holds,
    in order, what the calls were fulfilled with, under the titles of the
    outline, and [w'] is the world after the last pause. *)
Inductive produced {C}
    (gen : BookOptions -> BookInfo -> ChapterOutline -> nat -> nat -> M C)
    (o : BookOptions) (ol : BookOutline)
    : nat -> World -> list (ChapterContent C) -> World -> Prop :=
| produced_none i w : produced gen o ol i w [] w
| produced_more i w meta t c w1 new w' :
    chapters ol !! i = Some meta ->
    chapter_call gen o ol i meta w = (Fulfilled t c, w1) ->
    produced gen o ol (S i) (slept w1 500) new w' ->
    produced gen o ol i w ({| cc_title := co_title meta; cc_content := c |} :: new) w'.

(** The call at index [i] in the world [w] did not come back with a chapter:
    it was rejected, or it stays pending, and left the world [w']. *)
Definition call_failed {C}
    (gen : BookOptions -> BookInfo -> ChapterOutline -> nat -> nat -> M C)
    (o : BookOptions) (ol : BookOutline) (i : nat) (w w' : World) : Prop :=
  exists meta,
    chapters ol !! i = Some meta /\
    (chapter_call gen o ol i meta w).2 = w' /\
    match (chapter_call gen o ol i meta w).1 with
    | Fulfilled _ _ => False
    | Rejected _ _ | Never => True
    end.

(** The invariant of the chapter sequence, along a run that started in the
    world [w0] with the chapters [kept]: the state and the local array agree
    and hold one chapter per index below [i], under the titles of the first
    [i] chapters of the outline, in order; and the chapters after those kept
    are what the calls for the indices from [length kept] on, each of them
    fulfilled, have produced. *)
Definition chapters_in_step {C}
    (gen : BookOptions -> BookInfo -> ChapterOutline -> nat -> nat -> M C)
    (o : BookOptions) (ol : BookOutline)
    (kept : list (ChapterContent C)) (w0 : World) (s : LoopState C) : Prop :=
  let '(i, chs, m) := s in
  length chs = i /\
  generatedChapters (app m) = chs /\
  map cc_title chs = take i (map co_title (chapters ol)) /\
  exists new,
    chs = kept ++ new /\
    produced gen o ol (length kept) w0 new (world m).

(** ** Vocabulary for deadlines *)

(** The promise settles, at most [d] milliseconds after its start. *)
Definition within {A} (d : N) (r : Settled A) : Prop :=
  match r with
  | Never => False
  | Fulfilled t _ | Rejected t _ => t <= d
  end.

(** The promise is fulfilled. *)
Definition fulfilled {A} (r : Settled A) : Prop :=
  match r with
  | Fulfilled _ _ => True
  | _ => False
  end.

(** The rejection of [withTimeout] when the timer wins. *)
Definition timed_out {A} (ms : N) : Settled A :=
  Rejected ms (Error ("Timeout after " +:+ pretty ms +:+ "ms")).

(** When the promise started at time 0 settles; [None] if it never does. *)
Definition settles_at {A} (r : Settled A) : option N :=
  match r with
  | Never => None
  | Fulfilled t _ | Rejected t _ => Some t
  end.

(** The promise is still pending [ms] milliseconds after its start. *)
Definition exceeds {A} (ms : N) (r : Settled A) : Prop :=
  match settles_at r with
  | None => True
  | Some t => ms <= t
  end.

(** The state in which [handleStartGeneration] enters its loop. *)
Definition loop_start {C} (resume : bool) (m : Machine C) : LoopState C :=
  let m0 := with_app (setStep GENERATING) m in
  let m0 := if resume then m0 else with_app (setGeneratedChapters (fun _ => [])) m0 in
  (if resume then length (generatedChapters (app m)) else 0%nat,
   if resume then generatedChapters (app m) else [],
   with_app (setError None) m0).

(** The [try] blocks of the direct chapter operation, in order. *)
Definition chapter_blocks (KEYS : Keys) (p : Prompt)
    : list (string * M (option (option string))) :=
  [("Gemini", Direct.chapterGemini KEYS p);
   ("OpenAI", Direct.chapterOpenAI KEYS p);
   ("DeepSeek", Direct.chapterDeepSeek KEYS p);
   ("Ollama", Direct.chapterOllama p)].

(** The world in which [handleWizardSubmit] calls the outline operation. *)
Definition submit_world {C} (bookId : option string) (formData : BookOptions)
    (m : Machine C) : World :=
  world (submitting bookId formData m).

(** How a run of [handleStartGeneration] over the chapters [kept] went: the
    calls for the indices from [length kept] on were made in turn, the first
    ones fulfilled and producing [new]; then either the outline was used up
    and the book assembled, or the next call failed and the run stopped, in
    the error step when the call was rejected and still in the generating
    step when it stays pending. *)
Definition run_of {C}
    (gen : BookOptions -> BookInfo -> ChapterOutline -> nat -> nat -> M C)
    (o : BookOptions) (ol : BookOutline) (kept : list (ChapterContent C))
    (m m' : Machine C) (new : list (ChapterContent C)) : Prop :=
  let start := length kept in
  exists w1,
    produced gen o ol start (world m) new w1 /\
    generatedChapters (app m') = kept ++ new /\
    ((step (app m') = COMPLETED /\
      length new = (length (chapters ol) - start)%nat /\
      world m' = w1 /\
      generatedBook (app m') = Some {| book := ol; fullChapters := kept ++ new |}) \/
     ((step (app m') = ERROR \/ step (app m') = GENERATING) /\
      (start + length new < length (chapters ol))%nat /\
      call_failed gen o ol (start + length new) w1 (world m') /\
      generatedBook (app m') = generatedBook (app m))).

(** How a run of [handleStartGeneration] ended, after the fulfilled calls
    that produced [new] and left the world [w1]: completed, every index of
    the outline served; or in the error step, the next call rejected; or
    still generating, the next call pending for ever. *)
Definition run_ended {C}
    (gen : BookOptions -> BookInfo -> ChapterOutline -> nat -> nat -> M C)
    (o : BookOptions) (ol : BookOutline) (kept : list (ChapterContent C))
    (m m' : Machine C) (new : list (ChapterContent C)) (w1 : World) : Prop :=
  let next := (length kept + length new)%nat in
  (length new = (length (chapters ol) - length kept)%nat /\
   step (app m') = COMPLETED /\
   error (app m') = None /\
   generatedBook (app m') = Some {| book := ol; fullChapters := kept ++ new |} /\
   world m' = w1) \/
  (exists meta t e w2,
     chapters ol !! next = Some meta /\
     chapter_call gen o ol next meta w1 = (Rejected t e, w2) /\
     step (app m') = ERROR /\
     error (app m') =
       Some "An error occurred during book generation. Partial progress may be lost." /\
     generatedBook (app m') = generatedBook (app m) /\
     world m' = w2) \/
  (exists meta w2,
     chapters ol !! next = Some meta /\
     chapter_call gen o ol next meta w1 = (Never, w2) /\
     step (app m') = GENERATING /\
     error (app m') = None /\
     generatedBook (app m') = generatedBook (app m) /\
     world m' = w2).

(** ** Vocabulary for the requests of the proxied service *)

(** The request of the proxied chapter operation. *)
Definition chapter_request_of (o : BookOptions) (ol : BookOutline) (i : nat)
    (meta : ChapterOutline) : Request :=
  request "/api/ai/chapter"
    (ChapterBody o {| info_title := title ol; info_subtitle := subtitle ol |} meta i
       (length (chapters ol))).

(** The requests for the chapters at the [n] indices from [start] on. *)
Definition chapter_requests (o : BookOptions) (ol : BookOutline) (start n : nat)
    : list Request :=
  omap (fun i => chapter_request_of o ol i <$> chapters ol !! i) (seq start n).

(** ** Vocabulary for deadlines and aborting *)

(** The operation aborts no request. *)
Definition aborts_nothing {A} (m : M A) : Prop :=
  forall w, aborted (m w).2 = aborted w.

(** The operation takes no time, cannot stay pending and has no effect. *)
Definition instant {A} (m : M A) : Prop :=
  forall w, within 0 (m w).1 /\ (m w).2 = w.

(** [block] awaits [call], which it starts in the world [before w], under
    the deadline [d]: the block settles within [d] and aborts nothing; and
    when the call is still pending after [d], the block is rejected at [d]
    with the timeout error and leaves the world that the call leaves: the
    request of the call was sent and is not taken back. *)
Definition cut_at {A B} (block : M A) (call : M B) (d : N)
    (before : World -> World) : Prop :=
  forall w,
    within d (block w).1 /\
    aborted (block w).2 = aborted w /\
    (exceeds d (call (before w)).1 ->
     (block w).1 = timed_out d /\ (block w).2 = (call (before w)).2).

(** [op] posts to [path] under the deadline [d], with an abort signal: it
    settles within [d]; when the response is not there after [d], the request
    is aborted and [op] rejected at [d] with the abort error; when the
    response is there but its body is not after [d], the request is aborted
    too, but the body is taken to be empty: [op] is fulfilled at [d] with
    [undefined] on a 2xx response, and rejected with the status otherwise;
    and when the body is there in time, nothing is aborted and [op] settles
    when the body has arrived. *)
Definition aborts_at {A} (op : M A) (path : string) (d : N) (undefined : A) : Prop :=
  forall w,
    within d (op w).1 /\
    (forall r rest,
       script w !! path = Some (r :: rest) ->
       match latency r with Some t => d <= t | None => True end ->
       (op w).1 = Rejected d AbortError /\
       aborted (op w).2 = aborted w ++ [path]) /\
    (forall t r rest,
       script w !! path = Some (http t r :: rest) -> t < d ->
       match arrival r with Some a => d <= t + a | None => True end ->
       (op w).1 =
         (if ok r then Fulfilled d undefined
          else Rejected d (Error ("Request failed (" +:+ pretty (status r) +:+ ")"))) /\
       aborted (op w).2 = aborted w ++ [path]) /\
    (forall t r rest a,
       script w !! path = Some (http t r :: rest) ->
       arrival r = Some a -> t + a < d ->
       settles_at (op w).1 = Some (t + a) /\
       aborted (op w).2 = aborted w).

(** ** Vocabulary for the check of an outline *)

(** The values of [chapters] that the check of [handleWizardSubmit] turns
    down: a field that is missing or falsy, an empty array, and an object
    whose [length] is 0. *)
Inductive no_chapters : option Json -> Prop :=
| chapters_missing : no_chapters None
| chapters_null : no_chapters (Some JNull)
| chapters_false : no_chapters (Some (JBool false))
| chapters_zero : no_chapters (Some (JNumber 0))
| chapters_no_text : no_chapters (Some (JString ""))
| chapters_no_item : no_chapters (Some (JArray []))
| chapters_length_zero fields :
    js_field "length" fields = Some (JNumber 0) ->
    no_chapters (Some (JObject fields)).

(** The result of the outline operation is turned down. *)
Definition turned_down (result : option RawOutline) : Prop :=
  result = None \/ exists raw, result = Some raw /\ no_chapters (raw_chapters raw).

(** ** Sample inputs *)

Module Sample.

Definition keys : Keys := {| OPENAI := "sk-test"; DEEPSEEK := "ds-test"; GEMINI := "g-test" |}.

Definition book_options : BookOptions :=
  {| topic := "Gardening"; targetAudience := "Beginners"; englishStyle := "British";
     pageCount := "Short (20-30)"; targetChapterCount := 3; tone := "Friendly";
     authorName := "A. Author"; objective := "Teach"; bookDescription := "";
     extras := [] |}.

Definition chapter (n : string) : ChapterOutline :=
  {| co_title := "Chapter " +:+ n; co_description := "About " +:+ n |}.

Definition raw : RawOutline :=
  {| raw_title := "Green"; raw_subtitle := "A start"; raw_description := "d";
     raw_backCoverCopy := "b";
     raw_chapters :=
       Some (chapters_json [chapter "one"; chapter "two"; chapter "three"]) |}.

Definition book_outline : BookOutline :=
  {| title := "Green"; subtitle := "A start"; description := "d";
     backCoverCopy := "b";
     chapters := [chapter "one"; chapter "two"; chapter "three"] |}.

(** A parser that knows one document. *)
Definition parseJSON (s : string) : option (option RawOutline) :=
  if String.eqb s "{outline}" then Some (Some raw)
  else if String.eqb s "null" then Some None
  else None.

Definition quiet (s : gmap string (list Reply)) : World :=
  {| script := s; requests := []; sleeps := []; aborted := []; console := [] |}.

(** A reply whose body is there at once and holds [d] as its field. *)
Definition replies (st : N) (d : string) : Response :=
  {| status := st; statusText := EmptyString; arrival := Some 0; text := d;
     parsed := inr (Value d) |}.

Definition answers (t st : N) (d : string) : Reply := http t (replies st d).

Definition down (t : N) (msg : string) : Reply :=
  {| latency := Some t; answer := Fails (Error msg) |}.

Definition silent : Reply := {| latency := None; answer := Fails Undefined |}.

Definition OPENAI_CHAT : string := Direct.OPENAI_URL +:+ "/chat/completions".
Definition OPENAI_IMAGES : string := Direct.OPENAI_URL +:+ "/images/generations".

(** Gemini is down, OpenAI answers, DeepSeek would answer too. *)
Definition gemini_down : World :=
  quiet (<[Direct.GEMINI_TEXT := [down 40 "quota"]]>
         (<[OPENAI_CHAT := [answers 900 200 "{outline}"]]>
         (<[Direct.DEEPSEEK_URL := [answers 10 200 "{outline}"]]> ∅))).

(** Nothing answers: every connection is refused. *)
Definition all_down : World := quiet ∅.

(** The Gemini image model never answers. *)
Definition image_hangs : World := quiet (<[Direct.GEMINI_IMAGE := [silent]]> ∅).

(** Gemini answers the text request after 200 s. *)
Definition gemini_slow : World :=
  quiet (<[Direct.GEMINI_TEXT := [answers 200000 200 "# One"]]> ∅).

(** The proxy answers the chapter request after 200 s. *)
Definition proxy_slow : World :=
  quiet (<["/api/ai/chapter" := [answers 200000 200 "# One"]]> ∅).

(** The proxy fails on the second chapter. *)
Definition proxy_fails_second : World :=
  quiet (<["/api/ai/chapter" :=
             [answers 900 200 "# One"; answers 30 500 "OpenAI Error: 500 - down"]]> ∅).


Definition info : BookInfo := {| info_title := "Green"; info_subtitle := "A start" |}.

Definition prompt : Prompt := ChapterPrompt book_options info (chapter "one") 0.

(** The wizard with the sample outline under review, nothing generated. *)
Definition reviewing {C} (w : World) : Machine C :=
  {| app := {| step := OUTLINE_REVIEW; options := Some book_options;
               outline := Some book_outline; generatedBook := None;
               generatedChapters := []; error := None; currentBookId := None |};
     world := w; store := []; asked := [] |}.

(** The wizard stopped by an error after the first chapter. *)
Definition interrupted (w : World) : Machine (option string) :=
  {| app := {| step := ERROR; options := Some book_options;
               outline := Some book_outline; generatedBook := None;
               generatedChapters :=
                 [{| cc_title := "Chapter one"; cc_content := Some "# One" |}];
               error := Some generation_error; currentBookId := None |};
     world := w; store := []; asked := [0%nat] |}.

(** The wizard before anything was submitted. *)
Definition blank {C} (w : World) : Machine C :=
  {| app := {| step := INPUT; options := None; outline := None;
               generatedBook := None; generatedChapters := []; error := None;
               currentBookId := None |};
     world := w; store := []; asked := [] |}.

(** The proxy answers every chapter request. *)
Definition proxy_up : World :=
  quiet (<["/api/ai/chapter" :=
             [answers 900 200 "# Two"; answers 800 200 "# Three"]]> ∅).

(** A reply whose body is there at once and holds no field to read. *)
Definition empty_reply (st : N) : Response :=
  {| status := st; statusText := "OK"; arrival := Some 0; text := "{}";
     parsed := inr NoField |}.

(** Gemini refuses the connection, and OpenAI answers after 20 ms with a
    message that has no content. *)
Definition openai_no_content : World :=
  quiet (<[OPENAI_CHAT := [http 20 (empty_reply 200)]]> ∅).

(** The proxy answers the chapter request after 100 s, but the body of its
    response never arrives. *)
Definition proxy_body_hangs : World :=
  quiet (<["/api/ai/chapter" :=
             [http 100000 {| status := 200; statusText := "OK"; arrival := None;
                             text := "# One"; parsed := inr (Value "# One") |}]]> ∅).

(** OpenAI never answers. *)
Definition openai_hangs : World := quiet (<[OPENAI_CHAT := [silent]]> ∅).

(** An outline whose [chapters] is the value [v]. *)
Definition raw_with (v : option Json) : RawOutline :=
  {| raw_title := "Green"; raw_subtitle := "A start"; raw_description := "d";
     raw_backCoverCopy := "b"; raw_chapters := v |}.

(** An outline operation that comes back at once with [result]. *)
Definition outline_is (result : option RawOutline) : BookOptions -> M (option RawOutline) :=
  fun _ => mret result.

End Sample.

(** ** Strings

    A JavaScript string is a [string] whose characters stand for the code
    units below 256. *)

Definition char_in (codes : list nat) (c : ascii) : bool :=
  bool_decide (nat_of_ascii c ∈ codes).

(** White space for [trim]: tab, line feed, vertical tab, form feed,
    carriage return, space, no-break space. *)
Definition is_space : ascii -> bool := char_in [9; 10; 11; 12; 13; 32; 160]%nat.

(** The characters [.] does not match: line feed and carriage return. *)
Definition line_terminator : ascii -> bool := char_in [10; 13]%nat.

Definition newline : ascii := ascii_of_nat 10.

Fixpoint trimStart (s : string) : string :=
  match s with
  | String c s' => if is_space c then trimStart s' else s
  | EmptyString => EmptyString
  end.

Fixpoint trimEnd (s : string) : string :=
  match s with
  | String c s' =>
      match trimEnd s' with
      | EmptyString => if is_space c then EmptyString else String c EmptyString
      | r => String c r
      end
  | EmptyString => EmptyString
  end.

Definition trim (s : string) : string := trimEnd (trimStart s).

Definition startsWith (s p : string) : bool := String.prefix p s.

Fixpoint string_drop (n : nat) (s : string) : string :=
  match n, s with
  | S n', String _ s' => string_drop n' s'
  | _, _ => s
  end.

Definition endsWith (s p : string) : bool :=
  (String.length p <=? String.length s)%nat &&
  String.eqb (string_drop (String.length s - String.length p) s) p.

(** [s.replace(pattern, replacement)] for a string pattern: the first
    occurrence only. *)
Fixpoint replace (pattern replacement s : string) : string :=
  if String.prefix pattern s
  then replacement +:+ string_drop (String.length pattern) s
  else match s with
       | String c s' => String c (replace pattern replacement s')
       | EmptyString => EmptyString
       end.

(** [s.slice(k, -k)] *)
Definition slice_inner (k : nat) (s : string) : string :=
  String.substring k (String.length s - k - k) s.

(** [s.split(sep)] for a separator of one character. *)
Fixpoint split (sep : ascii) (s : string) : list string :=
  match s with
  | EmptyString => [EmptyString]
  | String c s' =>
      if Ascii.eqb c sep then EmptyString :: split sep s'
      else match split sep s' with
           | l :: ls => String c l :: ls
           | [] => [String c EmptyString]
           end
  end.

(** [lines.join(sep)] *)
Definition join (sep : string) (ls : list string) : string := String.concat sep ls.

(** The double quote. *)
Definition dq : string := String (ascii_of_nat 34) EmptyString.
Definition nl : string := String newline EmptyString.

(** ** The e-book package: [exportToEpub] *)

Module Epub.

(** An [<item>] of the manifest. *)
Record Item := { item_id : string; href : string; media_type : string }.

Definition XHTML : string := "application/xhtml+xml".

(** [`Text/chapter${i+1}.xhtml`] *)
Definition chapter_file (i : nat) : string :=
  "Text/chapter" +:+ pretty (i + 1)%nat +:+ ".xhtml".

(** The [chapterFiles] array once the title page, the table of contents and
    the chapter pages have been pushed. *)
Definition chapterFiles {C} (b : GeneratedBook C) : list string :=
  ["Text/title.xhtml"; "Text/toc.xhtml"] ++
  imap (fun i _ => chapter_file i) (fullChapters b).

(** The entry of [chapterFiles[i]] in the manifest. *)
Definition content_item (i : nat) (f : string) : Item :=
  {| item_id := "item" +:+ pretty i;
     href := replace "OEBPS/" "" f;
     media_type := XHTML |}.

Definition render_item (it : Item) : string :=
  "<item id=" +:+ dq +:+ item_id it +:+ dq +:+ " href=" +:+ dq +:+ href it +:+ dq
  +:+ " media-type=" +:+ dq +:+ media_type it +:+ dq +:+ "/>".

Definition render_itemref (idref : string) : string :=
  "<itemref idref=" +:+ dq +:+ idref +:+ dq +:+ "/>".

(** The entries of the content pages, in the order of [chapterFiles]. *)
Definition content_items {C} (b : GeneratedBook C) : list Item :=
  imap content_item (chapterFiles b).

(** The [<manifest>] of [content.opf]: the navigation file, the stylesheet,
    then the content pages. *)
Definition manifest {C} (b : GeneratedBook C) : list Item :=
  [{| item_id := "ncx"; href := "toc.ncx"; media_type := "application/x-dtbncx+xml" |};
   {| item_id := "style"; href := "Styles/style.css"; media_type := "text/css" |}]
  ++ content_items b.

(** The [idref]s of the [<spine>], in reading order. *)
Definition spine {C} (b : GeneratedBook C) : list string :=
  imap (fun i _ => "item" +:+ pretty i) (chapterFiles b).

Definition manifestItems {C} (b : GeneratedBook C) : string :=
  join nl (render_item <$> content_items b).

Definition spineItems {C} (b : GeneratedBook C) : string :=
  join nl (render_itemref <$> spine b).

(** The entries of the manifest that are content pages. *)
Definition content_pages {C} (b : GeneratedBook C) : list Item :=
  filter (fun it => media_type it = XHTML) (manifest b).

End Epub.

(** Every character of the string satisfies [P]. *)
Fixpoint string_forall (P : ascii -> bool) (s : string) : bool :=
  match s with
  | EmptyString => true
  | String c s' => P c && string_forall P s'
  end.

Definition is_not (c : ascii) (x : ascii) : bool := negb (Ascii.eqb x c).

(** ** The word-processor document: [markdownToDocxParagraphs] *)

Module Docx.

Inductive HeadingLevel := HEADING_1 | HEADING_2 | HEADING_3.

(** [new TextRun({ text, bold, italics })] *)
Record TextRun := { run_text : string; bold : bool; italics : bool }.

(** [new Paragraph({ text, heading, bullet, children, spacing })]; a field
    left out of the options is [None] (or no child). *)
Record Paragraph := {
  para_text : option string;
  heading : option HeadingLevel;
  bullet : option nat;
  children : list TextRun;
  spacing_before : option nat;
  spacing_after : option nat
}.

(** [.*?] up to the first [close]: the shortest run of characters other than
    line terminators after which [close] follows; the run and what follows
    [close]. *)
Fixpoint lazy_until (close : string) (s : string) : option (string * string) :=
  if String.prefix close s then Some (EmptyString, string_drop (String.length close) s)
  else match s with
       | String c s' =>
           if line_terminator c then None
           else match lazy_until close s' with
                | Some (x, rest) => Some (String c x, rest)
                | None => None
                end
       | EmptyString => None
       end.

(** One alternative [d.*?d] of the pattern, tried at the start of [s]: the
    text matched and the rest. *)
Definition delimited (d : string) (s : string) : option (string * string) :=
  if String.prefix d s
  then match lazy_until d (string_drop (String.length d) s) with
       | Some (x, rest) => Some (d +:+ x +:+ d, rest)
       | None => None
       end
  else None.

(** [/(\*\*.*?\*\*|__.*?__|\*.*?\*|_.*?_)/] tried at the start of [s]: the
    alternatives in order, the first that matches wins. *)
Definition emphasis_at (s : string) : option (string * string) :=
  match delimited "**" s with
  | Some m => Some m
  | None =>
  match delimited "__" s with
  | Some m => Some m
  | None =>
  match delimited "*" s with
  | Some m => Some m
  | None => delimited "_" s
  end end end.

(** [s.split(/(...)/g)]: the text before each match, the match (the capture
    group), and at the end the text after the last match. [cur] is the text
    since the last match; a match is looked for at each position in turn. *)
Fixpoint split_emphasis_from (fuel : nat) (cur s : string) : list string :=
  match fuel with
  | O => []
  | S fuel' =>
      match s with
      | EmptyString => [cur]
      | String c s' =>
          match emphasis_at s with
          | Some (m, rest) => cur :: m :: split_emphasis_from fuel' EmptyString rest
          | None => split_emphasis_from fuel' (cur +:+ String c EmptyString) s'
          end
      end
  end.

Definition split_emphasis (s : string) : list string :=
  split_emphasis_from (S (String.length s)) EmptyString s.

(** The [TextRun] of one part. *)
Definition run_of (part : string) : TextRun :=
  if (startsWith part "**" && endsWith part "**")
     || (startsWith part "__" && endsWith part "__")
  then {| run_text := slice_inner 2 part; bold := true; italics := false |}
  else if (startsWith part "*" && endsWith part "*")
          || (startsWith part "_" && endsWith part "_")
  then {| run_text := slice_inner 1 part; bold := false; italics := true |}
  else {| run_text := part; bold := false; italics := false |}.

Definition heading_paragraph (level : HeadingLevel) (t : string) (before after : nat)
    : Paragraph :=
  {| para_text := Some t; heading := Some level; bullet := None; children := [];
     spacing_before := Some before; spacing_after := Some after |}.

Definition empty_paragraph : Paragraph :=
  {| para_text := Some EmptyString; heading := None; bullet := None; children := [];
     spacing_before := None; spacing_after := None |}.

Definition bullet_paragraph (t : string) : Paragraph :=
  {| para_text := Some t; heading := None; bullet := Some 0%nat; children := [];
     spacing_before := None; spacing_after := None |}.

Definition runs_paragraph (runs : list TextRun) : Paragraph :=
  {| para_text := None; heading := None; bullet := None; children := runs;
     spacing_before := None; spacing_after := Some 120%nat |}.

(** The body of the loop over the lines. *)
Definition paragraph_of_line (line : string) : Paragraph :=
  let trimmed := trim line in
  if String.eqb trimmed EmptyString then empty_paragraph
  else if startsWith trimmed "# "
  then heading_paragraph HEADING_1 (replace "# " "" trimmed) 400 200
  else if startsWith trimmed "## "
  then heading_paragraph HEADING_2 (replace "## " "" trimmed) 300 150
  else if startsWith trimmed "### "
  then heading_paragraph HEADING_3 (replace "### " "" trimmed) 200 100
  else if startsWith trimmed "- " || startsWith trimmed "* "
  then bullet_paragraph (string_drop 2 trimmed)
  else runs_paragraph (run_of <$> split_emphasis trimmed).

Definition markdownToDocxParagraphs (markdown : string) : list Paragraph :=
  paragraph_of_line <$> split newline markdown.

End Docx.

(** ** Vocabulary for Markdown lines *)


(** The string has neither asterisk nor underscore. *)
Definition plain (s : string) : bool :=
  string_forall (fun x => negb (Ascii.eqb x "*" || Ascii.eqb x "_")) s.

(** The string can stand between two delimiters made of [c]: it has no line
    terminator and no [c]. *)
Definition inner (c : ascii) (s : string) : bool :=
  string_forall (fun x => negb (line_terminator x) && negb (Ascii.eqb x c)) s.

(** The delimiter of a bold span, [**] or [__]. *)
Definition double (c : ascii) : string := String c (String c EmptyString).

(** The trimmed line opens with a heading or list marker. *)
Definition is_marked (s : string) : bool :=
  startsWith s "# " || startsWith s "## " || startsWith s "### "
  || startsWith s "- " || startsWith s "* ".

Definition plain_run (t : string) : Docx.TextRun :=
  {| Docx.run_text := t; Docx.bold := false; Docx.italics := false |}.

Definition bold_run (t : string) : Docx.TextRun :=
  {| Docx.run_text := t; Docx.bold := true; Docx.italics := false |}.

#[local] Instance HeadingLevel_eq_dec : EqDecision Docx.HeadingLevel.
Proof. solve_decision. Defined.

#[local] Instance TextRun_eq_dec : EqDecision Docx.TextRun.
Proof. solve_decision. Defined.

#[local] Instance Paragraph_eq_dec : EqDecision Docx.Paragraph.
Proof. solve_decision. Defined.



(** ** Vocabulary for the requests of an operation *)

(** Running [m] only adds requests, and only to endpoints that satisfy [P]. *)
Definition contacts {A} (P : string -> Prop) (m : M A) : Prop :=
  forall w, exists new,
    requests (m w).2 = requests w ++ new /\ Forall (fun r => P (url r)) new.

(** The endpoints open to the direct service under the keys [KEYS]: the local
    Ollama server, and each remote provider whose key is set. *)
Definition configured (KEYS : Keys) (u : string) : Prop :=
  u = Direct.OLLAMA_URL \/
  (GEMINI KEYS <> "" /\ (u = Direct.GEMINI_TEXT \/ u = Direct.GEMINI_IMAGE)) \/
  (OPENAI KEYS <> "" /\ exists endpoint, u = Direct.OPENAI_URL +:+ endpoint) \/
  (DEEPSEEK KEYS <> "" /\ u = Direct.DEEPSEEK_URL).

(** The error one attempt of [fetchWithRetry] ends with, when it does: the
    failure of the request, or the status that is to be retried. *)
Definition attempt_error (a : Answer) : option Exn :=
  match a with
  | Fails e => Some e
  | Responds r =>
      if retryable (status r)
      then Some (Error ("Server status: " +:+ pretty (status r)))
      else None
  end.

(** The message [generateCoverImage] fails with. *)
Definition cover_failed : string :=
  "Failed to generate cover image with all providers.".

(** ** Further sample inputs *)

Module Scenario.

(** No key is set. *)
Definition no_keys : Keys := {| OPENAI := ""; DEEPSEEK := ""; GEMINI := "" |}.

(** Every provider accepts the request and never answers. *)
Definition all_silent : World :=
  Sample.quiet (<[Direct.GEMINI_TEXT := [Sample.silent]]>
               (<[Sample.OPENAI_CHAT := [Sample.silent]]>
               (<[Direct.DEEPSEEK_URL := [Sample.silent]]>
               (<[Direct.OLLAMA_URL := [Sample.silent]]> ∅)))).

(** Only the local Ollama server answers. *)
Definition ollama_only : World :=
  Sample.quiet (<[Direct.OLLAMA_URL := [Sample.answers 2500 200 "{outline}"]]> ∅).

(** OpenAI is overloaded: 503, 500 and 429 in turn. *)
Definition overloaded : World :=
  Sample.quiet (<[Sample.OPENAI_CHAT :=
                    [Sample.answers 5 503 "busy"; Sample.answers 7 500 "down";
                     Sample.answers 11 429 "slow down"]]> ∅).

(** OpenAI refuses the key. *)
Definition unauthorized : World :=
  Sample.quiet (<[Sample.OPENAI_CHAT := [Sample.answers 20 401 "bad key"]]> ∅).

End Scenario.
(** ** Cleaning an answer before it is parsed: [cleanAndParseJSON]

    [clean.replace(/```(?:json)?\n?([\s\S]*?)\n?```/g, '$1')] on the trimmed
    text, when it includes a fence. *)

Definition fence : string := "```".

(** [s.includes(p)] *)
Fixpoint includes (s p : string) : bool :=
  String.prefix p s ||
  match s with
  | String _ s' => includes s' p
  | EmptyString => false
  end.

(** [([\s\S]*?)\n?```]: the shortest text after which the closing fence
    follows, with or without a line feed before it; the text captured and
    what follows the fence. *)
Fixpoint lazy_fence (s : string) : option (string * string) :=
  if String.prefix (nl +:+ fence) s then Some (EmptyString, string_drop 4 s)
  else if String.prefix fence s then Some (EmptyString, string_drop 3 s)
  else match s with
       | String c s' =>
           match lazy_fence s' with
           | Some (x, rest) => Some (String c x, rest)
           | None => None
           end
       | EmptyString => None
       end.

(** An optional part [p?] at the start of [s], greedy: the texts to go on
    with, the one after [p] first. *)
Definition optionally (p s : string) : list string :=
  if String.prefix p s then [string_drop (String.length p) s; s] else [s].

(** The whole pattern tried at the start of [s]: the text captured and what
    follows the match. *)
Definition fenced_at (s : string) : option (string * string) :=
  if String.prefix fence s
  then head (omap lazy_fence
               (s1 ← optionally "json" (string_drop 3 s); optionally nl s1))
  else None.

(** The global replacement: every match, from left to right, gives way to
    the text it captured. *)
Fixpoint strip_fences_from (fuel : nat) (s : string) : string :=
  match fuel with
  | O => s
  | S fuel' =>
      match fenced_at s with
      | Some (x, rest) => x +:+ strip_fences_from fuel' rest
      | None =>
          match s with
          | String c s' => String c (strip_fences_from fuel' s')
          | EmptyString => EmptyString
          end
      end
  end.

Definition strip_fences (s : string) : string :=
  strip_fences_from (S (String.length s)) s.

(** The text handed to [JSON.parse]. *)
Definition clean (text : string) : string :=
  let clean := trim text in
  if includes clean fence then strip_fences clean else clean.

(** [cleanAndParseJSON] as a function of [JSON.parse]: what the services take
    as their [parseJSON]. *)
Definition parse_cleaned {A} (JSON_parse : string -> A) (text : string) : A :=
  JSON_parse (clean text).
(** ** The server functions: [netlify/functions]

    The proxied client posts to three functions, which call OpenAI with the
    key of the server environment. *)

Module Server.

(** The object a function answers with. *)
Inductive Data :=
| ErrorData (error : string)
| OutlineData (outline : option RawOutline)
| ContentData (content : string) (chapterIndex totalChapters : nat)
| ImageData (image : string).

(** [Response.json(data, { status })] *)
Record JsonResponse := { code : N; payload : Data }.

Definition jsonResponse (data : Data) (status : N) : JsonResponse :=
  {| code := status; payload := data |}.

Definition jsonError (message : string) (status : N) : JsonResponse :=
  jsonResponse (ErrorData message) status.

(** A request: its method, and what [await req.json()] gives, which is a
    rejection when the body is not JSON. *)
Record Req (P : Type) := { method : string; json : Exn + P }.
Arguments method {P} r.
Arguments json {P} r.

(** The bodies as destructured by the functions: a field that is missing or
    [null] is [None]. *)
Record OutlineReq := { outline_options : option BookOptions }.

Record ChapterReq := {
  chapter_options : option BookOptions;
  chapter_bookInfo : option BookInfo;
  chapter_chapter : option ChapterOutline;
  chapter_chapterIndex : nat;
  chapter_totalChapters : nat
}.

Record CoverReq := { cover_prompt : option string; cover_size : option Size }.

(** [a || b] for a string that may be undefined. *)
Definition or_else (a : option string) (b : string) : string :=
  if truthy a then default b a else b.

(** [error?.message || fallback] *)
Definition message_or (error : Exn) (fallback : string) : string :=
  match error with
  | Undefined => fallback
  | _ => or_else (Some (message error)) fallback
  end.

Definition sizeMap (size : Size) : string :=
  match size with
  | K1 => "1024x1024"
  | K2 => "1024x1024"
  | K4 => "1024x1024"
  end.

Section Functions.
(** [process.env] *)
Variables OPENAI_API_KEY OPENAI_BASE_URL : option string.
(** [JSON.parse], which throws on a text that is not JSON. *)
Variable JSON_parse : string -> Exn + option RawOutline.

Definition getOpenAIConfig : Exn + (string * string) :=
  let apiKey := or_else OPENAI_API_KEY "" in
  let baseUrl := or_else OPENAI_BASE_URL "https://api.openai.com/v1" in
  if negb (truthy (Some apiKey))
  then inl (Error "OpenAI API key not configured in server environment.")
  else
    let normalizedBase :=
      if endsWith baseUrl "/v1" then baseUrl else baseUrl +:+ "/v1" in
    inr (apiKey, normalizedBase).

Definition cleanAndParseJSON (text : string) : M (option RawOutline) :=
  match parse_cleaned JSON_parse text with
  | inl e => throw e
  | inr v => mret v
  end.

Definition callOpenAI (endpoint : string) (b : Body) : M Field :=
  match getOpenAIConfig with
  | inl e => throw e
  | inr (apiKey, baseUrl) =>
      response ← fetchWithRetry (baseUrl +:+ endpoint) b default_retries;
      if negb (ok response)
      then
        txt ← response_text response;
        throw (Error ("OpenAI Error: " +:+ pretty (status response) +:+ " - " +:+ txt))
      else response_json response
  end.

(** The function at [/api/ai/outline]. *)
Definition outline (req : Req OutlineReq) : M JsonResponse :=
  if negb (String.eqb (method req) "POST")
  then mret (jsonError "Method not allowed" 405)
  else
    catch
      (match json req with
       | inl e => throw e
       | inr p =>
           match outline_options p with
           | None => mret (jsonError "Missing book options." 400)
           | Some options =>
               d ← withTimeout
                     (callOpenAI "/chat/completions"
                        (TextBody "gpt-4o" (OutlinePrompt options) true))
                     45000;
               let content := content_if_any d in
               if negb (truthy content)
               then mret (jsonError "Empty AI response." 502)
               else
                 outline ← cleanAndParseJSON (default "" content);
                 mret (jsonResponse (OutlineData outline) 200)
           end
       end)
      (fun error =>
         mret (jsonError (message_or error "Failed to generate outline.") 500)).

(** The function at [/api/ai/chapter]. *)
Definition chapter (req : Req ChapterReq) : M JsonResponse :=
  if negb (String.eqb (method req) "POST")
  then mret (jsonError "Method not allowed" 405)
  else
    catch
      (match json req with
       | inl e => throw e
       | inr p =>
           match chapter_options p, chapter_bookInfo p, chapter_chapter p with
           | Some options, Some bookInfo, Some chapter =>
               d ← withTimeout
                     (callOpenAI "/chat/completions"
                        (TextBody "gpt-4o"
                           (ChapterPrompt options bookInfo chapter
                              (chapter_chapterIndex p))
                           false))
                     60000;
               let content := content_if_any d in
               if negb (truthy content)
               then mret (jsonError "Empty AI response." 502)
               else mret (jsonResponse
                            (ContentData (default "" content)
                               (chapter_chapterIndex p) (chapter_totalChapters p))
                            200)
           | _, _, _ => mret (jsonError "Missing generation payload." 400)
           end
       end)
      (fun error =>
         mret (jsonError (message_or error "Failed to generate chapter.") 500)).

(** The function at [/api/ai/cover]. *)
Definition cover (req : Req CoverReq) : M JsonResponse :=
  if negb (String.eqb (method req) "POST")
  then mret (jsonError "Method not allowed" 405)
  else
    catch
      (match json req with
       | inl e => throw e
       | inr p =>
           if negb (truthy (cover_prompt p))
           then mret (jsonError "Missing image prompt." 400)
           else
             d ← callOpenAI "/images/generations"
                   (ImageBody "gpt-image-1" (default "" (cover_prompt p))
                      (or_else (sizeMap <$> cover_size p) "1024x1024"));
             let image := content_if_any d in
             if negb (truthy image)
             then mret (jsonError "Image generation failed." 502)
             else mret (jsonResponse (ImageData (png (default "" image))) 200)
       end)
      (fun error =>
         mret (jsonError (message_or error "Failed to generate cover image.") 500)).

End Functions.
End Server.

(** ** Vocabulary for the functions and their client *)

(** An answer of a function: status 200 with a result of the kind [result],
    or one of the error statuses with a message. *)
Definition answers_with (result : Server.Data -> Prop) (r : Server.JsonResponse)
    : Prop :=
  (Server.code r = 200 /\ result (Server.payload r)) \/
  (Server.code r ∈ [400; 405; 500; 502] /\
   exists msg, Server.payload r = Server.ErrorData msg).

(** The results of the three functions: an outline, a text that is not
    empty, an image that is a PNG data URL of a payload that is not empty. *)
Definition an_outline (d : Server.Data) : Prop :=
  exists ol, d = Server.OutlineData ol.

Definition a_chapter (d : Server.Data) : Prop :=
  exists c i total, c <> "" /\ d = Server.ContentData c i total.

Definition a_cover (d : Server.Data) : Prop :=
  exists b64, b64 <> "" /\ d = Server.ImageData (png b64).

(** The requests [postJSON] sends for the three operations of the client. *)
Definition outline_request (options : BookOptions) : Server.Req Server.OutlineReq :=
  {| Server.method := "POST";
     Server.json := inr {| Server.outline_options := Some options |} |}.

Definition chapter_request (options : BookOptions) (bookInfo : BookInfo)
    (chapter : ChapterOutline) (chapterIndex totalChapters : nat)
    : Server.Req Server.ChapterReq :=
  {| Server.method := "POST";
     Server.json := inr {| Server.chapter_options := Some options;
                           Server.chapter_bookInfo := Some bookInfo;
                           Server.chapter_chapter := Some chapter;
                           Server.chapter_chapterIndex := chapterIndex;
                           Server.chapter_totalChapters := totalChapters |} |}.

Definition cover_request (prompt : string) (size : Size) : Server.Req Server.CoverReq :=
  {| Server.method := "POST";
     Server.json := inr {| Server.cover_prompt := Some prompt;
                           Server.cover_size := Some size |} |}.

(** The response the client receives when the function answered [r]: the
    status, and a body that is there at once and holds the field the client
    reads, [error] on a failure and the result otherwise; [stringify] is how
    an outline is written. *)
Definition received (stringify : option RawOutline -> string)
    (r : Server.JsonResponse) : Response :=
  {| status := Server.code r;
     statusText := EmptyString;
     arrival := Some 0;
     text := EmptyString;
     parsed := inr (Value match Server.payload r with
                          | Server.ErrorData msg => msg
                          | Server.OutlineData o => stringify o
                          | Server.ContentData c _ _ => c
                          | Server.ImageData image => image
                          end) |}.

Module Served.

(** The server configured with a key and the default address. *)
Definition key : option string := Some "sk-server".

(** The client, 35 ms away from a function that answered [r]. *)
Definition client (path : string) (r : Server.JsonResponse) : World :=
  Sample.quiet (<[path := [http 35 (received (fun _ => "{outline}") r)]]> ∅).

End Served.
(** ** The saved state of [App]

    One effect writes [{ step, options, outline, generatedBook,
    generatedChapters, currentBookId }] to [localStorage] whenever one of
    them changes, another reads it back when the component is mounted. The
    state goes through [JSON.stringify] and [JSON.parse], which give these
    values back as they were. *)

(** The object parsed from the item: any field may be missing or [null]. *)
Record Saved {C : Type} := {
  saved_step : option AppStep;
  saved_options : option BookOptions;
  saved_outline : option BookOutline;
  saved_generatedBook : option (GeneratedBook C);
  saved_generatedChapters : option (list (ChapterContent C));
  saved_currentBookId : option string
}.
Arguments Saved : clear implicits.

(** The item of [localStorage]: none, a text that is not JSON, or an
    object. *)
Inductive Item {C : Type} :=
| Absent
| Garbled
| Kept (parsed : Saved C).
Arguments Item : clear implicits.

(** The state written by the effect that saves. *)
Definition saveState {C} (a : App C) : Saved C :=
  {| saved_step := Some (step a);
     saved_options := options a;
     saved_outline := outline a;
     saved_generatedBook := generatedBook a;
     saved_generatedChapters := Some (generatedChapters a);
     saved_currentBookId := currentBookId a |}.

(** The state [App] starts in. *)
Definition initial {C} : App C :=
  {| step := INPUT; options := None; outline := None; generatedBook := None;
     generatedChapters := []; error := None; currentBookId := None |}.

(** The effect that loads: the fields that are truthy are put back, and
    [shouldResume] is set when the step saved is the generating one. *)
Definition loadState {C} (parsed : Saved C) (a : App C) : App C * bool :=
  let a := match saved_step parsed with Some s => setStep s a | None => a end in
  let a := match saved_options parsed with
           | Some o => setOptions (Some o) a
           | None => a
           end in
  let a := match saved_outline parsed with
           | Some ol => setOutline (Some ol) a
           | None => a
           end in
  let a := match saved_generatedBook parsed with
           | Some b => setGeneratedBook (Some b) a
           | None => a
           end in
  let a := match saved_generatedChapters parsed with
           | Some chs => setGeneratedChapters (fun _ => chs) a
           | None => a
           end in
  let a := if truthy (saved_currentBookId parsed)
           then setCurrentBookId (saved_currentBookId parsed) a
           else a in
  (a, match saved_step parsed with Some GENERATING => true | _ => false end).

(** Mounting the component: the state is loaded from the item, and the
    effect that resumes calls [handleStartGeneration(true)] when
    [shouldResume && outline && options]. An item that is not JSON is
    removed. *)
Definition mount {C}
    (generateChapterContent :
       BookOptions -> BookInfo -> ChapterOutline -> nat -> nat -> M C)
    (item : Item C) (m : Machine C) : Machine C :=
  match item with
  | Absent | Garbled => m
  | Kept parsed =>
      let loaded := loadState parsed (app m) in
      let m := with_app (fun _ => loaded.1) m in
      match loaded.2, outline loaded.1, options loaded.1 with
      | true, Some _, Some _ => handleStartGeneration generateChapterContent true m
      | _, _, _ => m
      end
  end.

(** The component as it is before it is mounted, in the world [w]. *)
Definition unmounted {C} (w : World) : Machine C :=
  {| app := initial; world := w; store := []; asked := [] |}.

(** ** Vocabulary for the calls to the store *)


Module Stored.

(** The sample outline under review, for the book created as [book-1]. *)
Definition reviewing {C} (w : World) : Machine C :=
  with_app (setCurrentBookId (Some "book-1")) (Sample.reviewing w).

(** The proxy answers the three chapter requests. *)
Definition proxy_up : World :=
  Sample.quiet (<["/api/ai/chapter" :=
                    [Sample.answers 900 200 "# One"; Sample.answers 900 200 "# Two";
                     Sample.answers 800 200 "# Three"]]> ∅).

End Stored.
(** ** The name of the exported file *)

Fixpoint string_map (f : ascii -> ascii) (s : string) : string :=
  match s with
  | EmptyString => EmptyString
  | String c s' => String (f c) (string_map f s')
  end.

Definition code_in (lo hi : nat) (c : ascii) : bool :=
  (lo <=? nat_of_ascii c)%nat && (nat_of_ascii c <=? hi)%nat.

(** The characters [/[a-z0-9]/i] matches: the digits and the letters of
    both cases. *)
Definition is_alnum (c : ascii) : bool :=
  code_in 48 57 c || code_in 65 90 c || code_in 97 122 c.

(** [s.toLowerCase()], on the code units below 256: the capital letters A to
    Z, and those from 192 to 222 but the multiplication sign. *)
Definition toLowerCase : string -> string :=
  string_map (fun c =>
    if code_in 65 90 c || code_in 192 214 c || code_in 216 222 c
    then ascii_of_nat (nat_of_ascii c + 32)
    else c).

(** [book.title.replace(/[^a-z0-9]/gi, '_').toLowerCase()] *)
Definition safeTitle (title : string) : string :=
  toLowerCase (string_map (fun c => if is_alnum c then c else "_"%char) title).

(** The characters of a file name: digits, small letters, underscore. *)
Definition is_safe (c : ascii) : bool :=
  code_in 48 57 c || code_in 97 122 c || Ascii.eqb c "_".

(** ** The word-processor document: [exportToDocx] *)

Module DocxExport.

Inductive Alignment := CENTER | LEFT.

Inductive Style := TITLE | SUBTITLE | HEADING_1.

(** A paragraph of the pages before the chapters, or the head of a chapter:
    [new Paragraph({ text, heading, alignment, spacing, color })]. *)
Record Line := {
  line_text : string;
  heading : option Style;
  alignment : option Alignment;
  spacing_before : option nat;
  spacing_after : option nat;
  color : option string
}.

(** The children of the section: a line, a paragraph that holds a page
    break, or a paragraph of a chapter body. *)
Inductive Child :=
| Text (l : Line)
| PageBreak
| Body (p : Docx.Paragraph).

Record Document := {
  creator : string;
  doc_title : string;
  doc_description : string;
  children : list Child
}.

Definition titlePageChildren (b : GeneratedBook string) (authorName : string) : list Child :=
  [Text {| line_text := title (book b); heading := Some TITLE;
           alignment := Some CENTER; spacing_before := Some 3000%nat;
           spacing_after := Some 500%nat; color := None |};
   Text {| line_text := subtitle (book b); heading := Some SUBTITLE;
           alignment := Some CENTER; spacing_before := None;
           spacing_after := Some 2000%nat; color := None |};
   Text {| line_text := "By " +:+ authorName; heading := None;
           alignment := Some CENTER; spacing_before := None;
           spacing_after := Some 4000%nat; color := None |};
   Text {| line_text := "School of Standard Publisher"; heading := None;
           alignment := Some CENTER; spacing_before := None;
           spacing_after := None; color := Some "888888" |};
   PageBreak].

(** The first two characters of the line are the code units 194 and 169 of
    the source text. *)
Definition copyrightChildren (authorName : string) (year : nat) : list Child :=
  [Text {| line_text := String (ascii_of_nat 194) (String (ascii_of_nat 169) " ")
                        +:+ pretty year +:+ " " +:+ authorName
                        +:+ ". All rights reserved.";
           heading := None; alignment := Some LEFT; spacing_before := None;
           spacing_after := None; color := None |};
   Text {| line_text := "Published by School of Standard Publisher.";
           heading := None; alignment := None; spacing_before := None;
           spacing_after := Some 500%nat; color := None |};
   PageBreak].

(** The line of a chapter in the table of contents. *)
Definition tocEntry (idx : nat) (chap : ChapterOutline) : Child :=
  Text {| line_text := "Chapter " +:+ pretty (idx + 1)%nat +:+ ": " +:+ co_title chap;
          heading := None; alignment := None; spacing_before := None;
          spacing_after := Some 100%nat; color := None |}.

Definition tocChildren (b : GeneratedBook string) : list Child :=
  [Text {| line_text := "Table of Contents"; heading := Some HEADING_1;
           alignment := Some CENTER; spacing_before := None;
           spacing_after := Some 500%nat; color := None |}]
  ++ imap tocEntry (chapters (book b))
  ++ [PageBreak].

(** The loop over [book.fullChapters], from index [i] on; [n] is
    [book.fullChapters.length]. *)
Fixpoint chapterChildren_from (i n : nat) (chs : list (ChapterContent string)) : list Child :=
  match chs with
  | [] => []
  | chapter :: rest =>
      [Text {| line_text := "Chapter " +:+ pretty (i + 1)%nat; heading := None;
               alignment := Some CENTER; spacing_before := Some 1000%nat;
               spacing_after := None; color := None |};
       Text {| line_text := cc_title chapter; heading := Some HEADING_1;
               alignment := Some CENTER; spacing_before := None;
               spacing_after := Some 800%nat; color := None |}]
      ++ (Body <$> Docx.markdownToDocxParagraphs (cc_content chapter))
      ++ (if (i <? n - 1)%nat then [PageBreak] else [])
      ++ chapterChildren_from (S i) n rest
  end.

Definition chapterChildren (b : GeneratedBook string) : list Child :=
  chapterChildren_from 0 (length (fullChapters b)) (fullChapters b).

(** [exportToDocx(book, authorName)], in the year [year]: the document and
    the name of the file it is saved under. The contents are read as the
    texts the type of the book declares. *)
Definition exportToDocx (b : GeneratedBook string) (authorName : string) (year : nat)
    : Document * string :=
  ({| creator := "SOS Publishing";
      doc_title := title (book b);
      doc_description := subtitle (book b);
      children := titlePageChildren b authorName ++ copyrightChildren authorName year
                  ++ tocChildren b ++ chapterChildren b |},
   safeTitle (title (book b)) +:+ ".docx").

End DocxExport.

(** ** Vocabulary for the exported document *)

Definition is_page_break (c : DocxExport.Child) : bool :=
  match c with DocxExport.PageBreak => true | _ => false end.

(** The paragraphs of the chapter bodies, in the order of the document. *)
Definition bodies (cs : list DocxExport.Child) : list Docx.Paragraph :=
  omap (fun c => match c with DocxExport.Body p => Some p | _ => None end) cs.

(** ** The navigation of the e-book: [toc.ncx] *)

Module Ncx.

(** A [<navPoint>]: its identifier, its place in the reading order, its
    label and the page it leads to. *)
Record NavPoint := {
  nav_id : string;
  playOrder : nat;
  navLabel : string;
  src : string
}.

(** The points of the chapters, one for each chapter of the outline. *)
Definition navPoints {C} (b : GeneratedBook C) : list NavPoint :=
  imap (fun i ch =>
          {| nav_id := "navPoint-" +:+ pretty (i + 3)%nat;
             playOrder := (i + 3)%nat;
             navLabel := co_title ch;
             src := "Text/chapter" +:+ pretty (i + 1)%nat +:+ ".xhtml" |})
       (chapters (book b)).

(** The [<navMap>]: the title page, the table of contents, the chapters. *)
Definition navMap {C} (b : GeneratedBook C) : list NavPoint :=
  [{| nav_id := "navPoint-1"; playOrder := 1; navLabel := "Title Page";
      src := "Text/title.xhtml" |};
   {| nav_id := "navPoint-2"; playOrder := 2; navLabel := "Table of Contents";
      src := "Text/toc.xhtml" |}]
  ++ navPoints b.

End Ncx.
(** ** Further vocabulary for Markdown lines *)

(** The number of times [c] occurs in [s]. *)
Fixpoint occurrences (c : ascii) (s : string) : nat :=
  match s with
  | EmptyString => 0
  | String x s' => (if Ascii.eqb x c then 1 else 0) + occurrences c s'
  end.

(** The delimiter of an italic span, [*] or [_]. *)
Definition single (c : ascii) : string := String c EmptyString.

Definition italic_run (t : string) : Docx.TextRun :=
  {| Docx.run_text := t; Docx.bold := false; Docx.italics := true |}.

(** The marker that opens a heading of each level, and the spacing before
    and after it. *)
Definition marker (level : Docx.HeadingLevel) : string :=
  match level with
  | Docx.HEADING_1 => "# "
  | Docx.HEADING_2 => "## "
  | Docx.HEADING_3 => "### "
  end.

Definition spacing (level : Docx.HeadingLevel) : nat * nat :=
  match level with
  | Docx.HEADING_1 => (400, 200)
  | Docx.HEADING_2 => (300, 150)
  | Docx.HEADING_3 => (200, 100)
  end%nat.

(** ** The form of the wizard: [InputWizard] *)

Module Wizard.

(** [array.includes(x)] on an array of strings. *)
Definition array_includes (l : list string) (x : string) : bool :=
  existsb (String.eqb x) l.

Definition with_extras (prev : BookOptions) (l : list string) : BookOptions :=
  {| topic := topic prev; targetAudience := targetAudience prev;
     englishStyle := englishStyle prev; pageCount := pageCount prev;
     targetChapterCount := targetChapterCount prev; tone := tone prev;
     authorName := authorName prev; objective := objective prev;
     bookDescription := bookDescription prev; extras := l |}.

(** The form before anything is entered. *)
Definition blank : BookOptions :=
  {| topic := ""; targetAudience := "Beginners";
     englishStyle := "Standard American English";
     pageCount := "Medium (30-50 pages)"; targetChapterCount := 10;
     tone := "Professional"; authorName := ""; objective := "";
     bookDescription := ""; extras := [] |}.

(** [useState(initialValues || {...})] *)
Definition initialFormData (initialValues : option BookOptions) : BookOptions :=
  match initialValues with
  | Some v => v
  | None => blank
  end.

(** The update that [handleExtraChange extra] hands to [setFormData]. *)
Definition handleExtraChange (extra : string) (prev : BookOptions) : BookOptions :=
  if array_includes (extras prev) extra
  then with_extras prev (List.filter (fun e => negb (String.eqb e extra)) (extras prev))
  else with_extras prev (extras prev ++ [extra]).

(** [checked={formData.extras.includes(extra)}] *)
Definition checked (formData : BookOptions) (extra : string) : bool :=
  array_includes (extras formData) extra.

(** The form after the boxes of [clicks] have been clicked one after the
    other. *)
Definition clicked (clicks : list string) (formData : BookOptions) : BookOptions :=
  fold_left (fun prev extra => handleExtraChange extra prev) clicks formData.

End Wizard.

(** * Properties *)

(** ** Retry with backoff *)

Section Retry.
Variables (u : string) (options : Body).

Lemma fetch_requests abortAt w :
  requests (fetch u options abortAt w).2 = requests w ++ [request u options].
Proof.
  unfold fetch. destruct (script w !! u) as [[|r rest]|]; try reflexivity.
  destruct (latency r) as [t|], abortAt as [d|]; try reflexivity.
  destruct (t <? d); reflexivity.
Qed.

Lemma fetch_sleeps abortAt w :
  sleeps (fetch u options abortAt w).2 = sleeps w.
Proof.
  unfold fetch. destruct (script w !! u) as [[|r rest]|]; try reflexivity.
  destruct (latency r) as [t|], abortAt as [d|]; try reflexivity.
  destruct (t <? d); reflexivity.
Qed.

(** One reply scripted with a finite latency and no abort signal: the
    request is sent, the reply consumed, the promise settles with it. *)
Lemma fetch_scripted w t a rest :
  script w !! u = Some ({| latency := Some t; answer := a |} :: rest) ->
  fetch u options None w =
    (match a with Fails e => Rejected t e | Responds r => Fulfilled t r end,
     {| script := <[u := rest]> (script w); requests := requests w ++ [request u options];
        sleeps := sleeps w; aborted := aborted w; console := console w |}).
Proof. intros H. unfold fetch. rewrite H. reflexivity. Qed.

Lemma fetchWithRetry_loop_effects retries remaining :
  forall i e w,
    (remaining + i = S retries)%nat -> (1 <= remaining)%nat ->
    exists n : nat,
      (1 <= n <= remaining)%nat /\
      attempts_made u options w i n (fetchWithRetry_loop u options remaining i retries e w).
Proof.
  induction remaining as [|rem IH]; intros i e w Hsum Hpos; [lia|].
  assert (Hhandler : forall e' w1,
    requests w1 = requests w ++ [request u options] -> sleeps w1 = sleeps w ->
    exists n : nat, (1 <= n <= S rem)%nat /\
      attempts_made u options w i n
        (((if (i <? retries)%nat then sleep (1000 * 2 ^ N.of_nat i) else mret tt);;
          fetchWithRetry_loop u options rem (S i) retries e') w1)).
  { intros e' w1 Hr Hs.
    destruct (Nat.ltb_spec i retries) as [Hlt|Hge].
    - destruct (IH (S i) e' (slept w1 (1000 * 2 ^ N.of_nat i)))
        as (n & Hn & Hreq); [lia|lia|].
      exists (S n). split; [lia|].
      unfold attempts_made, mbind, M_bind, bind, sleep, after.
      destruct Hreq as [Hreq Hsl].
      simpl in *. rewrite Hreq, Hsl, Hr, Hs, <- !app_assoc.
      split; [reflexivity|].
      destruct n as [|n]; [lia|]. simpl. rewrite Nat.sub_0_r. reflexivity.
    - assert (rem = 0)%nat as -> by lia.
      exists 1%nat. split; [lia|]. unfold attempts_made. simpl.
      rewrite Hr, Hs, app_nil_r. split; reflexivity. }
  simpl. unfold catch at 1. unfold mbind at 1, M_bind at 1, bind at 1.
  pose proof (fetch_requests None w) as Hr.
  pose proof (fetch_sleeps None w) as Hs.
  destruct (fetch u options None w) as [[|t resp|t e0] w1]; simpl in Hr, Hs.
  - exists 1%nat. unfold attempts_made. simpl.
    rewrite Hr, Hs, app_nil_r. repeat split; lia.
  - destruct (retryable (status resp)).
    + unfold throw.
      destruct (Hhandler (Error ("Server status: " +:+ pretty (status resp))) w1 Hr Hs)
        as (n & Hn & Hreq & Hsl).
      exists n. split; [exact Hn|]. unfold attempts_made.
      split; assumption.
    + exists 1%nat. unfold attempts_made. simpl.
      rewrite Hr, Hs, app_nil_r. repeat split; lia.
  - destruct (Hhandler e0 w1 Hr Hs) as (n & Hn & Hreq & Hsl).
    exists n. split; [exact Hn|]. unfold attempts_made.
    split; assumption.
Qed.


(** One iteration that meets a status not to be retried. *)
Lemma fetchWithRetry_loop_return retries rem i e w t r rest :
  script w !! u = Some ({| latency := Some t; answer := Responds r |} :: rest) ->
  retryable (status r) = false ->
  fetchWithRetry_loop u options (S rem) i retries e w =
    (Fulfilled (t + 0) r, popped u options w rest).
Proof.
  intros Hs Hr. simpl. unfold catch, mbind, M_bind, bind.
  rewrite (fetch_scripted w t (Responds r) rest Hs), Hr. reflexivity.
Qed.
End Retry.


(** ** Ordered fallback *)

Lemma delay_delay {A} (a b : N) (r : Settled A) :
  delay a (delay b r) = delay (a + b) r.
Proof. destruct r; simpl; rewrite ?N.add_assoc; reflexivity. Qed.

Lemma delay_0 {A} (r : Settled A) : delay 0 r = r.
Proof. destruct r; reflexivity. Qed.

Lemma after_after {A} (a b : N) (p : Settled A * World) :
  after a (after b p) = after (a + b) p.
Proof. unfold after. simpl. rewrite delay_delay. reflexivity. Qed.

Lemma after_0 {A} (p : Settled A * World) : after 0 p = p.
Proof. destruct p as [r w]. unfold after. simpl. rewrite delay_0. reflexivity. Qed.

(** After a prefix of failures the orchestration goes on with the rest of the
    list, in the world and with the reasons the failures left. *)
Lemma fallback_failures {A} (pre l : list (string * M A)) :
  forall errors w T errs w1,
    failures pre errors w = Some (T, errs, w1) ->
    fallback (pre ++ l) errors w = after T (fallback l errs w1).
Proof.
  induction pre as [|[name attempt] pre IH]; intros errors w T errs w1 H; simpl in H.
  - injection H as <- <- <-. rewrite after_0. reflexivity.
  - simpl. unfold catch at 1.
    destruct (attempt w) as [[|t a|t e] w']; try discriminate.
    destruct (failures pre _ _) as [[[T' errs'] w'']|] eqn:Hrest; [|discriminate].
    injection H as <- <- <-.
    unfold mbind, M_bind, bind, log. fold (logged w' (name +:+ " Failed: " +:+ message e)).
    rewrite (IH _ _ _ _ _ Hrest), !after_after, N.add_0_r. reflexivity.
Qed.

Lemma fallbackOr_fallthroughs {A} (pre l : list (string * M (option A))) (final : M A) :
  forall w T w1,
    fallthroughs pre w = Some (T, w1) ->
    fallbackOr (pre ++ l) final w = after T (fallbackOr l final w1).
Proof.
  induction pre as [|[name block] pre IH]; intros w T w1 H; simpl in H.
  - injection H as <- <-. rewrite after_0. reflexivity.
  - simpl. unfold Direct.tryBlock, mbind, M_bind, bind, catch.
    destruct (block w) as [[|t [a|]|t e] w']; try discriminate.
    + destruct (fallthroughs pre w') as [[T' w'']|] eqn:Hrest; [|discriminate].
      injection H as <- <-. rewrite (IH _ _ _ Hrest), after_after. reflexivity.
    + destruct (fallthroughs pre _) as [[T' w'']|] eqn:Hrest; [|discriminate].
      injection H as <- <-. unfold log, mret, M_ret, ret. simpl.
      fold (logged w' (name +:+ " Chapter Failed")).
      rewrite (IH _ _ _ Hrest). unfold after. simpl.
      rewrite !delay_delay. f_equal. f_equal. lia.
Qed.

(** C1: [generateBookOutline] and [generateChapterContent] are the ordered
    fallback over Gemini, OpenAI, DeepSeek, Ollama; and for every provider
    list, once the providers before B have failed in turn and B succeeds, the
    result is B's output and the world is the one B left, whatever providers
    follow B: none of them is invoked. *)
Theorem fallback_first_success :
  (forall KEYS parseJSON o,
     Direct.generateBookOutline KEYS parseJSON o =
       fallback [("Gemini", Direct.outlineGemini KEYS parseJSON o);
                 ("OpenAI", Direct.outlineOpenAI KEYS parseJSON o);
                 ("DeepSeek", Direct.outlineDeepSeek KEYS parseJSON o);
                 ("Ollama", Direct.outlineOllama parseJSON o)] []) /\
  (forall KEYS o info ch i total,
     Direct.generateChapterContent KEYS o info ch i total =
       let p := ChapterPrompt o info ch i in
       fallbackOr [("Gemini", Direct.chapterGemini KEYS p);
                   ("OpenAI", Direct.chapterOpenAI KEYS p);
                   ("DeepSeek", Direct.chapterDeepSeek KEYS p);
                   ("Ollama", Direct.chapterOllama p)]
                  (mret (Some Direct.chapter_failed))) /\
  (forall A (pre post : list (string * M A)) nameB (B : M A) errors w T errs w1 t v w2,
     failures pre errors w = Some (T, errs, w1) ->
     B w1 = (Fulfilled t v, w2) ->
     fallback (pre ++ (nameB, B) :: post) errors w = (Fulfilled (T + t) v, w2)) /\
  (forall A (pre post : list (string * M (option A))) nameB (B : M (option A))
          (final : M A) w T w1 t v w2,
     fallthroughs pre w = Some (T, w1) ->
     B w1 = (Fulfilled t (Some v), w2) ->
     fallbackOr (pre ++ (nameB, B) :: post) final w = (Fulfilled (T + t) v, w2)).
Proof.
  split; [|split; [|split]].
  - reflexivity.
  - reflexivity.
  - intros A pre post nameB B errors w T errs w1 t v w2 Hpre HB.
    rewrite (fallback_failures pre _ _ _ _ _ _ Hpre). simpl.
    unfold catch. rewrite HB. reflexivity.
  - intros A pre post nameB B final w T w1 t v w2 Hpre HB.
    rewrite (fallbackOr_fallthroughs pre _ _ _ _ _ Hpre). simpl.
    unfold Direct.tryBlock, mbind, M_bind, bind, catch. rewrite HB.
    unfold after. simpl. rewrite N.add_0_r. reflexivity.
Qed.

(** With Gemini down and OpenAI answering, the outline is OpenAI's; one
    request went to each of the two and DeepSeek's reply is still to come. *)
Lemma fallback_first_success_witness :
  let r := Direct.generateBookOutline Sample.keys Sample.parseJSON Sample.book_options
             Sample.gemini_down in
  r.1 = Fulfilled 940 (Some Sample.raw) /\
  map url (requests r.2) = [Direct.GEMINI_TEXT; Sample.OPENAI_CHAT] /\
  script r.2 !! Direct.DEEPSEEK_URL = Some [Sample.answers 10 200 "{outline}"].
Proof.
  destruct fallback_first_success as (Hcode & _ & Hfirst & _).
  intros r. unfold r. rewrite Hcode.
  change (fallback [("Gemini", ?a); ("OpenAI", ?b); ?c; ?d] [] ?w)
    with (fallback ([("Gemini", a)] ++ ("OpenAI", b) :: [c; d]) [] w).
  erewrite Hfirst; [|vm_compute; reflexivity|vm_compute; reflexivity].
  vm_compute. repeat split.
Defined.

(** ** The generation loop *)

Section Loop.
Context {C : Type}.
Variable gen : BookOptions -> BookInfo -> ChapterOutline -> nat -> nat -> M C.
Variables (o : BookOptions) (ol : BookOutline) (bookId : option string).

(** What a successful turn does. *)
Lemma iteration_continue i chs m i' chs' m' :
  iteration gen o ol bookId i chs m = Continue i' chs' m' ->
  exists meta c,
    chapters ol !! i = Some meta /\
    i' = S i /\
    chs' = chs ++ [{| cc_title := co_title meta; cc_content := c |}] /\
    generatedChapters (app m') =
      generatedChapters (app m) ++ [{| cc_title := co_title meta; cc_content := c |}] /\
    asked m' = asked m ++ [i].
Proof.
  unfold iteration. destruct (chapters ol !! i) as [meta|]; [|discriminate].
  destruct (gen _ _ _ _ _ _) as [[|t c|t e] w]; try discriminate.
  intros H. injection H as <- <- <-. exists meta, c.
  destruct bookId; repeat split; reflexivity.
Qed.

(** The call behind a successful turn: it is the call for the chapter at
    index [i], made in the world of the machine, and it was fulfilled with
    the content of the chapter that the turn appends. *)
Lemma iteration_call i chs m i' chs' m' :
  iteration gen o ol bookId i chs m = Continue i' chs' m' ->
  exists meta t c w1,
    chapters ol !! i = Some meta /\
    chapter_call gen o ol i meta (world m) = (Fulfilled t c, w1) /\
    i' = S i /\
    chs' = chs ++ [{| cc_title := co_title meta; cc_content := c |}] /\
    generatedChapters (app m') =
      generatedChapters (app m) ++ [{| cc_title := co_title meta; cc_content := c |}] /\
    world m' = slept w1 500.
Proof.
  unfold iteration, chapter_call. destruct (chapters ol !! i) as [meta|]; [|discriminate].
  destruct (gen _ _ _ _ _ _) as [[|t c|t e] w] eqn:Hgen; try discriminate.
  intros H. injection H as <- <- <-. exists meta, t, c, w.
  split; [reflexivity|]. split; [exact Hgen|].
  destruct bookId; repeat split; reflexivity.
Qed.

(** What a turn that stops leaves behind. *)
Lemma iteration_stopped i chs m m' :
  iteration gen o ol bookId i chs m = Threw m' \/
  iteration gen o ol bookId i chs m = Pending m' ->
  app m' = app m /\ (asked m' = asked m \/ asked m' = asked m ++ [i]).
Proof.
  unfold iteration. destruct (chapters ol !! i) as [meta|].
  - destruct (gen _ _ _ _ _ _) as [[|t c|t e] w];
      intros [H|H]; try discriminate; injection H as <-; simpl; auto.
  - intros [H|H]; try discriminate. injection H as <-. auto.
Qed.

(** The call behind a turn that stops: at an index of the outline, it is the
    call for that index, which was rejected or stays pending. *)
Lemma iteration_failed i chs m m' :
  iteration gen o ol bookId i chs m = Threw m' \/
  iteration gen o ol bookId i chs m = Pending m' ->
  (i < length (chapters ol))%nat ->
  call_failed gen o ol i (world m) (world m').
Proof.
  intros Hstop Hi. destruct (lookup_lt_is_Some_2 (chapters ol) i Hi) as [meta Hmeta].
  exists meta. split; [exact Hmeta|]. revert Hstop.
  unfold iteration, chapter_call. rewrite Hmeta.
  change (world (asking i m)) with (world m).
  destruct (gen _ _ _ _ _ _) as [[|t c|t e] w];
    intros [H|H]; try discriminate; injection H as <-; split; reflexivity || exact I.
Qed.

(** What [n] successful turns add up to. *)
Lemma turns_effects n s s' :
  turns gen o ol bookId n s s' ->
  s'.1.1 = (s.1.1 + n)%nat /\
  asked s'.2 = asked s.2 ++ seq s.1.1 n /\
  exists new,
    s'.1.2 = s.1.2 ++ new /\
    generatedChapters (app s'.2) = generatedChapters (app s.2) ++ new /\
    length new = n /\
    map cc_title new = take n (drop s.1.1 (map co_title (chapters ol))).
Proof.
  induction 1 as [s|n i chs m i' chs' m' s'' Hit Hturns IH]; simpl.
  - split; [lia|]. split; [rewrite app_nil_r; reflexivity|].
    exists []. rewrite !app_nil_r. repeat split.
  - destruct (iteration_continue _ _ _ _ _ _ Hit)
      as (meta & c & Hm & -> & -> & Hg & Hask).
    destruct IH as (Hi & Hasked & new & Hchs & Hgen & Hlen & Htitles). simpl in *.
    split; [lia|]. split; [rewrite Hasked, Hask, <- app_assoc; reflexivity|].
    exists ({| cc_title := co_title meta; cc_content := c |} :: new).
    split; [rewrite Hchs, <- app_assoc; reflexivity|].
    split; [rewrite Hgen, Hg, <- app_assoc; reflexivity|].
    split; [simpl; lia|].
    simpl. rewrite Htitles.
    assert (Hd : map co_title (chapters ol) !! i = Some (co_title meta))
      by (rewrite list_lookup_fmap, Hm; reflexivity).
    rewrite (drop_S _ _ _ Hd). reflexivity.
Qed.

(** The chapters that successful turns append are what the calls for their
    indices, made one after the other, were fulfilled with. *)
Lemma turns_produced n s s' :
  turns gen o ol bookId n s s' ->
  exists new,
    produced gen o ol s.1.1 (world s.2) new (world s'.2) /\
    s'.1.2 = s.1.2 ++ new /\
    generatedChapters (app s'.2) = generatedChapters (app s.2) ++ new /\
    length new = n.
Proof.
  induction 1 as [s|n i chs m i' chs' m' s'' Hit Hturns IH]; simpl.
  - exists []. rewrite !app_nil_r. repeat split. constructor.
  - destruct (iteration_call _ _ _ _ _ _ Hit)
      as (meta & t & c & w1 & Hm & Hcall & -> & -> & Hg & Hw).
    destruct IH as (new & Hprod & Hchs & Hgen & Hlen). simpl in *.
    exists ({| cc_title := co_title meta; cc_content := c |} :: new).
    split; [econstructor; [exact Hm|exact Hcall|rewrite <- Hw; exact Hprod]|].
    split; [rewrite Hchs, <- app_assoc; reflexivity|].
    split; [rewrite Hgen, Hg, <- app_assoc; reflexivity|].
    simpl. lia.
Qed.

(** One more fulfilled call, after those that produced [new]. *)
Lemma produced_snoc i w new w' :
  produced gen o ol i w new w' ->
  forall meta t c w1,
    chapters ol !! (i + length new)%nat = Some meta ->
    chapter_call gen o ol (i + length new) meta w' = (Fulfilled t c, w1) ->
    produced gen o ol i w
      (new ++ [{| cc_title := co_title meta; cc_content := c |}]) (slept w1 500).
Proof.
  induction 1 as [i w|i w meta0 t0 c0 w0 new w' Hm0 Hcall0 Hprod IH];
    intros meta t c w1 Hm Hcall; simpl in *.
  - rewrite Nat.add_0_r in Hm, Hcall.
    econstructor; [exact Hm|exact Hcall|constructor].
  - econstructor; [exact Hm0|exact Hcall0|].
    rewrite Nat.add_succ_r in Hm, Hcall. apply (IH meta t c w1); assumption.
Qed.

(** The chapters produced carry the titles of the outline, in order, and
    there are no more of them than the outline has chapters left. *)
Lemma produced_titles i w new w' :
  produced gen o ol i w new w' ->
  map cc_title new = take (length new) (drop i (map co_title (chapters ol))) /\
  (i + length new <= max i (length (chapters ol)))%nat.
Proof.
  induction 1 as [i w|i w meta t c w1 new w' Hm Hcall Hprod [IH Hle]]; simpl.
  - split; [reflexivity|lia].
  - assert (Hd : map co_title (chapters ol) !! i = Some (co_title meta))
      by (rewrite list_lookup_fmap, Hm; reflexivity).
    rewrite (drop_S _ _ _ Hd). simpl. rewrite IH. split; [reflexivity|].
    apply lookup_lt_Some in Hm. lia.
Qed.

(** Every turn that succeeds preserves the invariant and adds one chapter. *)
Lemma iteration_preserves kept w0 i chs m i' chs' m' :
  chapters_in_step gen o ol kept w0 (i, chs, m) ->
  iteration gen o ol bookId i chs m = Continue i' chs' m' ->
  chapters_in_step gen o ol kept w0 (i', chs', m') /\ length chs' = S (length chs).
Proof.
  intros (Hlen & Hst & Htitles & new & Hchs & Hprod) Hit.
  destruct (iteration_call _ _ _ _ _ _ Hit)
    as (meta & t & c & w1 & Hm & Hcall & -> & -> & Hg & Hw).
  split; [|rewrite length_app; simpl; lia].
  split; [rewrite length_app; simpl; lia|].
  split; [rewrite Hg, Hst; reflexivity|].
  split.
  - rewrite map_app, Htitles. simpl.
    erewrite take_S_r; [reflexivity|].
    rewrite list_lookup_fmap, Hm. reflexivity.
  - exists (new ++ [{| cc_title := co_title meta; cc_content := c |}]).
    split; [rewrite Hchs, app_assoc; reflexivity|].
    rewrite Hw.
    assert (Hi : i = (length kept + length new)%nat)
      by (rewrite <- Hlen, Hchs, length_app; reflexivity).
    apply (produced_snoc _ _ _ _ Hprod meta t c w1); rewrite <- Hi; assumption.
Qed.

Lemma turns_preserve kept w0 n s s' :
  turns gen o ol bookId n s s' ->
  chapters_in_step gen o ol kept w0 s ->
  chapters_in_step gen o ol kept w0 s' /\ length s'.1.2 = (length s.1.2 + n)%nat.
Proof.
  induction 1 as [s|n i chs m i' chs' m' s'' Hit Hturns IH]; intros Hinv.
  - split; [assumption|lia].
  - destruct (iteration_preserves _ _ _ _ _ _ _ _ Hinv Hit) as [Hinv' Hlen].
    destruct (IH Hinv') as [Hfin Hlen']. split; [assumption|].
    simpl in *. lia.
Qed.

(** The loop is a number of successful turns, followed by nothing when the
    turns are used up, or else by one turn that stops. *)
Lemma generation_loop_turns remaining :
  forall i chs m,
    exists n s',
      turns gen o ol bookId n (i, chs, m) s' /\
      match generation_loop gen o ol bookId remaining i chs m with
      | Continue i' chs' m' => n = remaining /\ s' = (i', chs', m')
      | Threw m' =>
          (n < remaining)%nat /\
          iteration gen o ol bookId s'.1.1 s'.1.2 s'.2 = Threw m'
      | Pending m' =>
          (n < remaining)%nat /\
          iteration gen o ol bookId s'.1.1 s'.1.2 s'.2 = Pending m'
      end.
Proof.
  induction remaining as [|rem IH]; intros i chs m; simpl.
  - exists 0%nat, (i, chs, m). split; [constructor|]. split; reflexivity.
  - destruct (iteration gen o ol bookId i chs m) as [i' chs' m'|m'|m'] eqn:Hit.
    + destruct (IH i' chs' m') as (n & s' & Hturns & Hres).
      exists (S n), s'. split; [econstructor; eassumption|].
      destruct (generation_loop _ _ _ _ _ _ _ _); intuition lia.
    + exists 0%nat, (i, chs, m). split; [constructor|]. split; [lia|exact Hit].
    + exists 0%nat, (i, chs, m). split; [constructor|]. split; [lia|exact Hit].
Qed.

(** The turns of the loop leave the step of the wizard alone. *)
Lemma turns_step n s s' :
  turns gen o ol bookId n s s' -> step (app s'.2) = step (app s.2).
Proof.
  induction 1 as [s|n i chs m i' chs' m' s'' Hit Hturns IH]; [reflexivity|].
  rewrite IH. simpl. revert Hit. unfold iteration.
  destruct (chapters ol !! i) as [meta|]; [|discriminate].
  destruct (gen _ _ _ _ _ _) as [[|t c|t e] w]; try discriminate.
  intros H. injection H as <- <- <-. destruct bookId; reflexivity.
Qed.

(** The turns of the loop do not assemble the book. *)
Lemma turns_book n s s' :
  turns gen o ol bookId n s s' -> generatedBook (app s'.2) = generatedBook (app s.2).
Proof.
  induction 1 as [s|n i chs m i' chs' m' s'' Hit Hturns IH]; [reflexivity|].
  rewrite IH. simpl. revert Hit. unfold iteration.
  destruct (chapters ol !! i) as [meta|]; [|discriminate].
  destruct (gen _ _ _ _ _ _) as [[|t c|t e] w]; try discriminate.
  intros H. injection H as <- <- <-. destruct bookId; reflexivity.
Qed.
End Loop.

(** Every run of [handleStartGeneration] is such a run. *)
Lemma handleStartGeneration_run {C}
    (gen : BookOptions -> BookInfo -> ChapterOutline -> nat -> nat -> M C)
    (resume : bool) (m : Machine C) (ol : BookOutline) (o : BookOptions) :
  outline (app m) = Some ol -> options (app m) = Some o ->
  exists new,
    run_of gen o ol (if resume then generatedChapters (app m) else []) m
      (handleStartGeneration gen resume m) new.
Proof.
  intros Hol Ho. unfold handleStartGeneration. rewrite Hol, Ho.
  set (kept := if resume then generatedChapters (app m) else []).
  set (m0 := with_app (setError None) _).
  replace (if resume then length (generatedChapters (app m)) else 0%nat)
    with (length kept) by (unfold kept; destruct resume; reflexivity).
  assert (Hw0 : world m0 = world m) by (unfold m0; destruct resume; reflexivity).
  assert (Hk0 : generatedChapters (app m0) = kept)
    by (unfold m0, kept; destruct resume; reflexivity).
  assert (Hb0 : generatedBook (app m0) = generatedBook (app m))
    by (unfold m0; destruct resume; reflexivity).
  assert (Hs0 : step (app m0) = GENERATING)
    by (unfold m0; destruct resume; reflexivity).
  destruct (generation_loop_turns gen o ol (currentBookId (app m))
              (length (chapters ol) - length kept) (length kept) kept m0)
    as (n & [[i1 chs1] m1] & Hturns & Hres).
  destruct (turns_produced _ _ _ _ _ _ _ Hturns) as (new & Hprod & Hchs & Hgen & Hlen).
  pose proof (turns_step _ _ _ _ _ _ _ Hturns) as Hstep.
  pose proof (turns_book _ _ _ _ _ _ _ Hturns) as Hbook.
  destruct (turns_effects _ _ _ _ _ _ _ Hturns) as (Hi & _).
  cbn [fst snd] in Hprod, Hchs, Hgen, Hstep, Hbook, Hi. rewrite Hw0 in Hprod.
  rewrite Hk0 in Hgen. rewrite Hs0 in Hstep. rewrite Hb0 in Hbook.
  exists new. unfold run_of.
  destruct (generation_loop _ _ _ _ _ _ _ _) as [i2 chs2 m2|m2|m2].
  - destruct Hres as [-> Heq]. injection Heq as <- <- <-.
    exists (world m1). split; [exact Hprod|].
    split; [destruct (currentBookId (app m)); exact Hgen|].
    left. rewrite Hchs.
    destruct (currentBookId (app m)); repeat split; assumption.
  - destruct Hres as [Hn Hstop]. cbn [fst snd] in Hstop.
    destruct (iteration_stopped _ _ _ _ _ _ _ _ (or_introl Hstop)) as [Happ _].
    exists (world m1). split; [exact Hprod|]. cbn [app with_app generatedChapters step setStep setError generatedBook]. rewrite Happ.
    split; [exact Hgen|]. right.
    split; [left; reflexivity|]. split; [lia|].
    split; [|exact Hbook].
    rewrite Hlen, <- Hi.
    apply (iteration_failed _ _ _ _ _ _ _ _ (or_introl Hstop)). lia.
  - destruct Hres as [Hn Hstop]. cbn [fst snd] in Hstop.
    destruct (iteration_stopped _ _ _ _ _ _ _ _ (or_intror Hstop)) as [Happ _].
    exists (world m1). split; [exact Hprod|]. rewrite Happ.
    split; [exact Hgen|]. right.
    split; [right; exact Hstep|]. split; [lia|].
    split; [|exact Hbook].
    rewrite Hlen, <- Hi.
    apply (iteration_failed _ _ _ _ _ _ _ _ (or_intror Hstop)). lia.
Qed.

(** C4: the chapter sequence holds one chapter for each chapter generated so
    far, each of them what the call for its index was fulfilled with, and its
    titles are the first titles of the outline, in order. The invariant holds
    when the loop is entered; every turn that succeeds preserves it and adds
    exactly one chapter, the one its call produced; a turn that stops leaves
    the sequence as it was, its call having failed; so it holds after any
    number of turns, and when [handleStartGeneration] is over the sequence is
    the chapters kept followed by those the fulfilled calls produced (for a
    resumed run the titles are in order provided those of the chapters it
    resumes from were). *)
Theorem chapter_sequence_invariant {C}
    (gen : BookOptions -> BookInfo -> ChapterOutline -> nat -> nat -> M C)
    (o : BookOptions) (ol : BookOutline) (bookId : option string) :
  (forall (m : Machine C),
     let chs := generatedChapters (app m) in
     map cc_title chs = take (length chs) (map co_title (chapters ol)) ->
     chapters_in_step gen o ol chs (world m) (length chs, chs, m)) /\
  (forall kept w0 i chs m i' chs' m',
     chapters_in_step gen o ol kept w0 (i, chs, m) ->
     iteration gen o ol bookId i chs m = Continue i' chs' m' ->
     chapters_in_step gen o ol kept w0 (i', chs', m') /\
     length chs' = S (length chs) /\
     exists meta t c w1,
       chapters ol !! i = Some meta /\
       chapter_call gen o ol i meta (world m) = (Fulfilled t c, w1) /\
       chs' = chs ++ [{| cc_title := co_title meta; cc_content := c |}]) /\
  (forall kept w0 i chs m m',
     chapters_in_step gen o ol kept w0 (i, chs, m) ->
     iteration gen o ol bookId i chs m = Threw m' \/
     iteration gen o ol bookId i chs m = Pending m' ->
     generatedChapters (app m') = chs /\
     ((i < length (chapters ol))%nat ->
      call_failed gen o ol i (world m) (world m'))) /\
  (forall kept w0 n s s',
     chapters_in_step gen o ol kept w0 s ->
     turns gen o ol bookId n s s' ->
     chapters_in_step gen o ol kept w0 s' /\
     length s'.1.2 = (length s.1.2 + n)%nat) /\
  (forall (resume : bool) (m : Machine C),
     outline (app m) = Some ol -> options (app m) = Some o ->
     let kept := if resume then generatedChapters (app m) else [] in
     let m' := handleStartGeneration gen resume m in
     map cc_title kept = take (length kept) (map co_title (chapters ol)) ->
     exists new w1,
       produced gen o ol (length kept) (world m) new w1 /\
       generatedChapters (app m') = kept ++ new /\
       length (generatedChapters (app m')) = (length kept + length new)%nat /\
       map cc_title (generatedChapters (app m')) =
         take (length kept + length new) (map co_title (chapters ol))).
Proof.
  split; [|split; [|split; [|split]]].
  - intros m chs Htitles. split; [reflexivity|]. split; [reflexivity|].
    split; [exact Htitles|]. exists []. rewrite app_nil_r. split; [reflexivity|].
    constructor.
  - intros kept w0 i chs m i' chs' m' Hinv Hit.
    destruct (iteration_preserves _ _ _ _ _ _ _ _ _ _ _ _ Hinv Hit) as [Hinv' Hlen].
    split; [exact Hinv'|]. split; [exact Hlen|].
    destruct (iteration_call _ _ _ _ _ _ _ _ _ _ Hit)
      as (meta & t & c & w1 & Hm & Hcall & _ & Hchs & _).
    exists meta, t, c, w1. auto.
  - intros kept w0 i chs m m' (Hlen & Hst & _) Hstop.
    destruct (iteration_stopped _ _ _ _ _ _ _ _ Hstop) as [Happ _].
    split; [rewrite Happ; exact Hst|].
    intros Hi. eapply iteration_failed; eassumption.
  - intros kept w0 n s s' Hinv Hturns. eapply turns_preserve; eassumption.
  - intros resume m Hol Ho kept m' Htitles.
    destruct (handleStartGeneration_run gen resume m ol o Hol Ho)
      as (new & w1 & Hprod & Hgen & _).
    fold kept in Hprod, Hgen. fold m' in Hgen.
    exists new, w1. split; [exact Hprod|]. split; [exact Hgen|].
    rewrite Hgen, length_app. split; [reflexivity|].
    destruct (produced_titles _ _ _ _ _ _ _ Hprod) as [Hnew Hle].
    rewrite map_app, Htitles, Hnew.
    rewrite <- (take_drop (length kept) (map co_title (chapters ol))) at 3.
    destruct (decide (length kept <= length (chapters ol))%nat) as [Hk|Hk].
    + rewrite take_app_add'; [reflexivity|].
      rewrite length_take, length_map. lia.
    + rewrite drop_ge by (rewrite length_map; lia).
      rewrite app_nil_r, take_nil, app_nil_r.
      rewrite take_take. f_equal. lia.
Qed.

(** A service whose chapter call always comes back with a content. *)
Lemma iteration_total {C}
    (gen : BookOptions -> BookInfo -> ChapterOutline -> nat -> nat -> M C)
    o ol bookId i chs m :
  (forall o' info ch j total w, exists t c w',
      gen o' info ch j total w = (Fulfilled t c, w')) ->
  (i < length (chapters ol))%nat ->
  exists i' chs' m', iteration gen o ol bookId i chs m = Continue i' chs' m'.
Proof.
  intros Hgen Hi. unfold iteration.
  destruct (lookup_lt_is_Some_2 (chapters ol) i Hi) as [meta ->].
  destruct (Hgen o {| info_title := title ol; info_subtitle := subtitle ol |}
              meta i (length (chapters ol)) (world (asking i m))) as (t & c & w' & ->).
  eauto.
Qed.

(** ** The requests of a run over the proxied service *)

(** Whatever the reply, [postJSON] sends one request. *)
Lemma postJSON_requests path b d w :
  requests (Proxy.postJSON path b d w).2 = requests w ++ [request path b].
Proof.
  unfold Proxy.postJSON, mbind, M_bind, bind, timed.
  pose proof (fetch_requests path b (Some d) w) as Hf.
  destruct (fetch path b (Some d) w) as [[|t r|t e] w1]; simpl in *; try exact Hf.
  unfold catch, response_json_signal, response_json.
  destruct (arrival r) as [a|]; [destruct (a <? d - t); [destruct (parsed r)|]|];
    simpl; destruct (negb (ok r)); simpl; exact Hf.
Qed.

Lemma proxy_chapter_requests o info ch i total w :
  requests (Proxy.generateChapterContent o info ch i total w).2
  = requests w ++ [request "/api/ai/chapter" (ChapterBody o info ch i total)].
Proof.
  unfold Proxy.generateChapterContent, mbind, M_bind, bind.
  pose proof (postJSON_requests "/api/ai/chapter" (ChapterBody o info ch i total)
                180000 w) as Hp.
  destruct (Proxy.postJSON _ _ _ w) as [[|t d|t e] w1]; simpl in *; try exact Hp.
  destruct d; exact Hp.
Qed.

(** The calls that produced [new] sent the requests for their indices, one
    each, in order. *)
Lemma produced_requests o ol i w new w' :
  produced Proxy.generateChapterContent o ol i w new w' ->
  requests w' = requests w ++ chapter_requests o ol i (length new).
Proof.
  induction 1 as [i w|i w meta t c w1 new w' Hm Hcall Hprod IH].
  - simpl. rewrite app_nil_r. reflexivity.
  - rewrite IH. simpl.
    pose proof (proxy_chapter_requests o
                  {| info_title := title ol; info_subtitle := subtitle ol |}
                  meta i (length (chapters ol)) w) as Hreq.
    unfold chapter_call in Hcall. rewrite Hcall in Hreq. simpl in Hreq.
    unfold chapter_requests. simpl. rewrite Hm. simpl.
    rewrite Hreq, <- app_assoc. reflexivity.
Qed.

Lemma chapter_requests_S o ol start n meta :
  chapters ol !! (start + n)%nat = Some meta ->
  chapter_requests o ol start (S n)
  = chapter_requests o ol start n ++ [chapter_request_of o ol (start + n) meta].
Proof.
  intros Hm. unfold chapter_requests. rewrite seq_S, omap_app. simpl.
  rewrite Hm. reflexivity.
Qed.

(** Over the proxied service, the requests of a resumed run. *)
Lemma resume_requests (m : Machine (option string)) (ol : BookOutline) (o : BookOptions) :
  outline (app m) = Some ol -> options (app m) = Some o ->
  let N := length (generatedChapters (app m)) in
  let m' := handleStartGeneration Proxy.generateChapterContent true m in
  exists k,
    (N + k <= max N (length (chapters ol)))%nat /\
    requests (world m') = requests (world m) ++ chapter_requests o ol N k /\
    (step (app m') = COMPLETED -> k = (length (chapters ol) - N)%nat).
Proof.
  intros Hol Ho N m'.
  destruct (handleStartGeneration_run Proxy.generateChapterContent true m ol o Hol Ho)
    as (new & w1 & Hprod & Hgen & Hend).
  fold m' in Hgen, Hend. fold N in Hprod, Hend.
  pose proof (produced_requests _ _ _ _ _ _ Hprod) as Hreq.
  destruct (produced_titles _ _ _ _ _ _ _ Hprod) as [_ Hle].
  destruct Hend as [(Hstep & Hlen & Hw & _)|(Hstep & Hlt & (meta & Hm & Hw & _) & _)].
  - exists (length new). split; [exact Hle|]. rewrite Hw. split; [exact Hreq|].
    intros _. exact Hlen.
  - exists (S (length new)). split; [lia|]. split.
    + rewrite (chapter_requests_S _ _ _ _ _ Hm), app_assoc, <- Hreq, <- Hw.
      apply proxy_chapter_requests.
    + intros Hc. destruct Hstep as [Hs|Hs]; rewrite Hs in Hc; discriminate.
Qed.

(** C3: resuming with N chapters already generated calls the chapter
    operation for the chapters at the indices N, N+1, ... only, one call
    after the other, each in the world the one before left and never beyond
    the outline; the chapters these calls produce, each holding what its call
    was fulfilled with under the title of its index, are appended to the N
    original ones; the run ends completed when the last index has been
    served, the book then holding the N original chapters followed by the M-N
    new ones, and it stops at the first call that fails; it does complete
    when no chapter call fails. Over the proxied service the requests sent
    are those for the indices from N on, one each: none for an index below
    N. *)
Theorem resume_generates_rest {C}
    (gen : BookOptions -> BookInfo -> ChapterOutline -> nat -> nat -> M C)
    (m : Machine C) (ol : BookOutline) (o : BookOptions) :
  outline (app m) = Some ol -> options (app m) = Some o ->
  let N := length (generatedChapters (app m)) in
  let M := length (chapters ol) in
  let m' := handleStartGeneration gen true m in
  (exists new w1,
     produced gen o ol N (world m) new w1 /\
     generatedChapters (app m') = generatedChapters (app m) ++ new /\
     map cc_title new = take (length new) (drop N (map co_title (chapters ol))) /\
     ((step (app m') = COMPLETED /\
       length new = (M - N)%nat /\
       world m' = w1 /\
       generatedBook (app m') =
         Some {| book := ol; fullChapters := generatedChapters (app m) ++ new |}) \/
      ((step (app m') = ERROR \/ step (app m') = GENERATING) /\
       (N + length new < M)%nat /\
       call_failed gen o ol (N + length new) w1 (world m') /\
       generatedBook (app m') = generatedBook (app m)))) /\
  ((forall o' info ch j total w, exists t c w',
       gen o' info ch j total w = (Fulfilled t c, w')) ->
   step (app m') = COMPLETED) /\
  (forall mp : Machine (option string),
     outline (app mp) = Some ol -> options (app mp) = Some o ->
     let Np := length (generatedChapters (app mp)) in
     let mp' := handleStartGeneration Proxy.generateChapterContent true mp in
     exists k,
       (Np + k <= max Np M)%nat /\
       requests (world mp') = requests (world mp) ++ chapter_requests o ol Np k /\
       (step (app mp') = COMPLETED -> k = (M - Np)%nat)).
Proof.
  intros Hol Ho N M m'.
  destruct (handleStartGeneration_run gen true m ol o Hol Ho)
    as (new & w1 & Hprod & Hgen & Hend).
  fold m' in Hgen, Hend. fold N in Hprod, Hend. fold M in Hend.
  destruct (produced_titles _ _ _ _ _ _ _ Hprod) as [Htitles _].
  split; [|split].
  - exists new, w1. auto.
  - intros Htotal. destruct Hend as [(Hstep & _)|(_ & Hlt & (meta & Hm & _ & Hfail) & _)];
      [exact Hstep|exfalso].
    destruct (Htotal o {| info_title := title ol; info_subtitle := subtitle ol |}
                meta (N + length new)%nat M w1) as (t & c & w' & Heq).
    unfold chapter_call in Hfail. fold M in Hfail. rewrite Heq in Hfail. exact Hfail.
  - intros mp Hpol Hpo. apply (resume_requests mp ol o Hpol Hpo).
Qed.

(** ** Deadlines *)

Lemma within_mono {A} (a b : N) (r : Settled A) : a <= b -> within a r -> within b r.
Proof. destruct r; simpl; intros; try lia; assumption. Qed.

Lemma within_delay {A} (t d : N) (r : Settled A) :
  within d r -> within (t + d) (delay t r).
Proof. destruct r; simpl; intros; try lia; assumption. Qed.

Lemma within_bind {A B} (a b : N) (m : M A) (k : A -> M B) w :
  within a (m w).1 ->
  (forall x w', within b (k x w').1) ->
  within (a + b) (bind m k w).1.
Proof.
  intros Hm Hk. unfold bind, after.
  destruct (m w) as [[|t x|t e] w']; simpl in *; try contradiction; try lia.
  specialize (Hk x w').
  destruct (k x w') as [[|t' y|t' e] w'']; simpl in *; try contradiction; lia.
Qed.

Lemma within_catch {A} (a b : N) (m : M A) (h : Exn -> M A) w :
  within a (m w).1 ->
  (forall e w', within b (h e w').1) ->
  within (a + b) (catch m h w).1.
Proof.
  intros Hm Hh. unfold catch, after.
  destruct (m w) as [[|t x|t e] w']; simpl in *; try contradiction; try lia.
  specialize (Hh e w').
  destruct (h e w') as [[|t' y|t' e'] w'']; simpl in *; try contradiction; lia.
Qed.

Lemma within_withTimeout {A} (c : M A) (ms : N) w :
  within ms (withTimeout c ms w).1.
Proof.
  unfold withTimeout. destruct (c w) as [[|t x|t e] w']; simpl; try lia;
    destruct (N.ltb_spec t ms); simpl; lia.
Qed.

(** [withTimeout] adds no effect of its own: the world is the one the promise
    leaves, whoever wins the race. *)
Lemma withTimeout_world {A} (c : M A) (ms : N) w :
  (withTimeout c ms w).2 = (c w).2.
Proof.
  unfold withTimeout. destruct (c w) as [[|t x|t e] w']; simpl; try reflexivity;
    destruct (t <? ms); reflexivity.
Qed.

Lemma withTimeout_exceeded {A} (c : M A) (ms : N) w :
  exceeds ms (c w).1 -> (withTimeout c ms w).1 = timed_out ms.
Proof.
  unfold withTimeout, exceeds. destruct (c w) as [[|t x|t e] w']; simpl;
    intros H; try reflexivity;
    destruct (N.ltb_spec t ms); try reflexivity; lia.
Qed.

Lemma withTimeout_in_time {A} (c : M A) (ms : N) w :
  ~ exceeds ms (c w).1 -> withTimeout c ms w = c w.
Proof.
  unfold withTimeout, exceeds. destruct (c w) as [[|t x|t e] w']; simpl;
    intros H; try (exfalso; apply H; exact I);
    destruct (N.ltb_spec t ms); try reflexivity; lia.
Qed.

Lemma within_content d w : within 0 (content d w).1.
Proof. destruct d; simpl; lia. Qed.

Lemma within_log line w : within 0 (log line w).1.
Proof. simpl. lia. Qed.

Lemma within_bind_le {A B} (a b d : N) (m : M A) (k : A -> M B) w :
  within a (m w).1 ->
  (forall x w', within b (k x w').1) ->
  a + b <= d ->
  within d ((m ≫= k) w).1.
Proof.
  intros Hm Hk Hd. eapply within_mono; [exact Hd|]. apply within_bind; assumption.
Qed.

Lemma within_catch_le {A} (a b d : N) (m : M A) (h : Exn -> M A) w :
  within a (m w).1 ->
  (forall e w', within b (h e w').1) ->
  a + b <= d ->
  within d (catch m h w).1.
Proof.
  intros Hm Hh Hd. eapply within_mono; [exact Hd|]. apply within_catch; assumption.
Qed.

Lemma within_ret {A} (x : A) w : within 0 ((mret x : M A) w).1.
Proof. simpl. lia. Qed.

Lemma within_throw {A} e w : within 0 (@throw A e w).1.
Proof. simpl. lia. Qed.

Lemma catch_rejected {A} (m : M A) (h : Exn -> M A) w t e w1 :
  m w = (Rejected t e, w1) -> catch m h w = after t (h e w1).
Proof. intros H. unfold catch. rewrite H. reflexivity. Qed.

Lemma catch_fulfilled {A} (m : M A) (h : Exn -> M A) w t x w1 :
  m w = (Fulfilled t x, w1) -> catch m h w = (Fulfilled t x, w1).
Proof. intros H. unfold catch. rewrite H. reflexivity. Qed.

Lemma bind_fulfilled {A B} (m : M A) (k : A -> M B) w t x w1 :
  m w = (Fulfilled t x, w1) -> (m ≫= k) w = after t (k x w1).
Proof. intros H. unfold mbind, M_bind, bind. rewrite H. reflexivity. Qed.

Lemma bind_rejected {A B} (m : M A) (k : A -> M B) w t e w1 :
  m w = (Rejected t e, w1) -> (m ≫= k) w = (Rejected t e, w1).
Proof. intros H. unfold mbind, M_bind, bind. rewrite H. reflexivity. Qed.

Lemma bind_log {B} line (k : unit -> M B) w :
  (log line ≫= k) w = k tt (logged w line).
Proof. unfold mbind, M_bind, bind, log. apply after_0. Qed.

(** A block that awaits a call under a deadline is rejected with the timeout
    error when the call exceeds the deadline, in the world the call leaves. *)
Lemma timed_block_cut {A B} (c : M B) (d : N) (k : B -> M A) w :
  exceeds d (c w).1 -> (withTimeout c d ≫= k) w = (timed_out d, (c w).2).
Proof.
  intros H. unfold mbind, M_bind, bind.
  pose proof (withTimeout_exceeded c d w H) as H1.
  pose proof (withTimeout_world c d w) as H2.
  destruct (withTimeout c d w) as [r w']. simpl in H1, H2. subst r w'. reflexivity.
Qed.

(** *** Operations without delay or effect *)

Lemma instant_ret {A} (x : A) : instant (mret x : M A).
Proof. intros w. split; [simpl; lia|reflexivity]. Qed.

Lemma instant_throw {A} e : instant (@throw A e).
Proof. intros w. split; [simpl; lia|reflexivity]. Qed.

Lemma instant_content d : instant (content d).
Proof. destruct d; [apply instant_throw|apply instant_ret|apply instant_ret]. Qed.

Lemma instant_bind {A B} (m : M A) (k : A -> M B) :
  instant m -> (forall x, instant (k x)) -> instant (m ≫= k).
Proof.
  intros Hm Hk w. destruct (Hm w) as [Ht Hw]. unfold mbind, M_bind, bind, after.
  destruct (m w) as [[|t x|t e] w1]; simpl in *; try contradiction; subst w1.
  - destruct (Hk x w) as [Ht' Hw'].
    destruct (k x w) as [[|t' y|t' e] w2]; simpl in *; try contradiction;
      (split; [lia|assumption]).
  - split; [assumption|reflexivity].
Qed.

(** *** Operations that abort nothing *)

Lemma aborts_nothing_ret {A} (x : A) : aborts_nothing (mret x : M A).
Proof. intros w. reflexivity. Qed.

Lemma aborts_nothing_throw {A} e : aborts_nothing (@throw A e).
Proof. intros w. reflexivity. Qed.

Lemma aborts_nothing_log line : aborts_nothing (log line).
Proof. intros w. reflexivity. Qed.

Lemma aborts_nothing_sleep ms : aborts_nothing (sleep ms).
Proof. intros w. reflexivity. Qed.

Lemma aborts_nothing_instant {A} (m : M A) : instant m -> aborts_nothing m.
Proof. intros H w. destruct (H w) as [_ ->]. reflexivity. Qed.

Lemma aborts_nothing_bind {A B} (m : M A) (k : A -> M B) :
  aborts_nothing m -> (forall x, aborts_nothing (k x)) -> aborts_nothing (m ≫= k).
Proof.
  intros Hm Hk w. specialize (Hm w). unfold mbind, M_bind, bind, after.
  destruct (m w) as [[|t x|t e] w1]; simpl in *; try exact Hm.
  rewrite Hk. exact Hm.
Qed.

Lemma aborts_nothing_catch {A} (m : M A) (h : Exn -> M A) :
  aborts_nothing m -> (forall e, aborts_nothing (h e)) -> aborts_nothing (catch m h).
Proof.
  intros Hm Hh w. specialize (Hm w). unfold catch, after.
  destruct (m w) as [[|t x|t e] w1]; simpl in *; try exact Hm.
  rewrite Hh. exact Hm.
Qed.

Lemma aborts_nothing_withTimeout {A} (c : M A) ms :
  aborts_nothing c -> aborts_nothing (withTimeout c ms).
Proof. intros Hc w. rewrite withTimeout_world. apply Hc. Qed.

(** A request without a signal is never aborted. *)
Lemma aborts_nothing_fetch u b : aborts_nothing (fetch u b None).
Proof.
  intros w. unfold fetch. destruct (script w !! u) as [[|r rest]|]; try reflexivity.
  destruct (latency r); reflexivity.
Qed.

Lemma aborts_nothing_response_text r : aborts_nothing (response_text r).
Proof. intros w. unfold response_text. destruct (arrival r); reflexivity. Qed.

Lemma aborts_nothing_response_json r : aborts_nothing (response_json r).
Proof. intros w. unfold response_json. destruct (arrival r); reflexivity. Qed.

Lemma aborts_nothing_fetchWithRetry_loop u b retries remaining :
  forall i e, aborts_nothing (fetchWithRetry_loop u b remaining i retries e).
Proof.
  induction remaining as [|rem IH]; intros i e; simpl; [apply aborts_nothing_throw|].
  apply aborts_nothing_catch.
  - apply aborts_nothing_bind; [apply aborts_nothing_fetch|].
    intros r. destruct (retryable (status r));
      [apply aborts_nothing_throw|apply aborts_nothing_ret].
  - intros e'. apply aborts_nothing_bind; [|intros; apply IH].
    destruct (i <? retries)%nat; [apply aborts_nothing_sleep|apply aborts_nothing_ret].
Qed.

Lemma aborts_nothing_fetchWithRetry u b retries :
  aborts_nothing (fetchWithRetry u b retries).
Proof. apply aborts_nothing_fetchWithRetry_loop. Qed.

Section DirectDeadlines.
Variable KEYS : Keys.
Variable parseJSON : string -> option (option RawOutline).

Lemma within_cleanAndParseJSON s w :
  within 0 (Direct.cleanAndParseJSON parseJSON s w).1.
Proof.
  unfold Direct.cleanAndParseJSON.
  destruct s as [s|]; [destruct (parseJSON s)|]; simpl; lia.
Qed.

Lemma instant_cleanAndParseJSON s : instant (Direct.cleanAndParseJSON parseJSON s).
Proof.
  unfold Direct.cleanAndParseJSON.
  destruct s as [s|]; [destruct (parseJSON s)|];
    apply instant_ret || apply instant_throw.
Qed.

(** A block that awaits one call under a deadline and then only reads and
    parses the answer settles within the deadline. *)
Lemma within_timed_content {A} (c : M Field) (ms : N) (k : option string -> M A) w :
  (forall s w', within 0 (k s w').1) ->
  within ms ((withTimeout c ms ≫= fun d => content d ≫= k) w).1.
Proof.
  intros Hk. apply (within_bind_le ms 0); [apply within_withTimeout| |lia].
  intros d w'. apply (within_bind_le 0 0); [apply within_content|apply Hk|lia].
Qed.

Lemma outlineGemini_within o w :
  within 120000 (Direct.outlineGemini KEYS parseJSON o w).1.
Proof.
  unfold Direct.outlineGemini.
  apply (within_bind_le 0 120000); [apply within_log| |lia].
  intros _ w1. apply (within_bind_le 120000 0); [apply within_withTimeout| |lia].
  intros text w2. destruct (negb (truthy text));
    [apply within_throw|apply within_cleanAndParseJSON].
Qed.

Lemma outlineOpenAI_within o w :
  within 45000 (Direct.outlineOpenAI KEYS parseJSON o w).1.
Proof.
  unfold Direct.outlineOpenAI.
  apply (within_bind_le 0 45000); [apply within_log| |lia].
  intros _ w1. apply within_timed_content. apply within_cleanAndParseJSON.
Qed.

Lemma outlineDeepSeek_within o w :
  within 45000 (Direct.outlineDeepSeek KEYS parseJSON o w).1.
Proof.
  unfold Direct.outlineDeepSeek.
  apply (within_bind_le 0 45000); [apply within_log| |lia].
  intros _ w1. apply within_timed_content. apply within_cleanAndParseJSON.
Qed.

Lemma outlineOllama_within o w :
  within 120000 (Direct.outlineOllama parseJSON o w).1.
Proof.
  unfold Direct.outlineOllama.
  apply (within_bind_le 0 120000); [apply within_log| |lia].
  intros _ w1. apply within_timed_content. apply within_cleanAndParseJSON.
Qed.

Lemma chapterGemini_within p w : within 120000 (Direct.chapterGemini KEYS p w).1.
Proof.
  unfold Direct.chapterGemini.
  apply (within_bind_le 120000 0); [apply within_withTimeout| |lia].
  intros text w1. destruct (truthy text); apply within_ret.
Qed.

Lemma chapterOpenAI_within p w : within 60000 (Direct.chapterOpenAI KEYS p w).1.
Proof.
  unfold Direct.chapterOpenAI. apply within_timed_content. intros; apply within_ret.
Qed.

Lemma chapterDeepSeek_within p w : within 60000 (Direct.chapterDeepSeek KEYS p w).1.
Proof.
  unfold Direct.chapterDeepSeek. apply within_timed_content. intros; apply within_ret.
Qed.

Lemma chapterOllama_within p w : within 180000 (Direct.chapterOllama p w).1.
Proof.
  unfold Direct.chapterOllama. apply within_timed_content. intros; apply within_ret.
Qed.

(** The handler of a failed provider settles as the rest of the chain does. *)
Lemma within_handler {A} (d : N) (line : string) (next : M A) w :
  (forall w', within d (next w').1) ->
  within d ((log line ≫= fun _ => next) w).1.
Proof.
  intros H. apply (within_bind_le 0 d); [apply within_log| |lia].
  intros _ w'. apply H.
Qed.

Lemma generateBookOutline_within o w :
  within 330000 (Direct.generateBookOutline KEYS parseJSON o w).1.
Proof.
  unfold Direct.generateBookOutline.
  apply (within_catch_le 120000 210000); [apply outlineGemini_within| |lia].
  intros e1 w1. apply (within_handler 210000). intros w1'.
  apply (within_catch_le 45000 165000); [apply outlineOpenAI_within| |lia].
  intros e2 w2. apply (within_handler 165000). intros w2'.
  apply (within_catch_le 45000 120000); [apply outlineDeepSeek_within| |lia].
  intros e3 w3. apply (within_handler 120000). intros w3'.
  apply (within_catch_le 120000 0); [apply outlineOllama_within| |lia].
  intros e4 w4. apply (within_handler 0). intros w4'. apply within_throw.
Qed.

(** A [try] block under a deadline, then the rest: fulfilled when the rest
    is, within the sum of the two delays. *)
Lemma tryBlock_fulfilled {A} (a b : N) (block : M (option A)) line (next : M A) w :
  (forall w', within a (block w').1) ->
  (forall w', within b (next w').1 /\ fulfilled (next w').1) ->
  within (a + b) (Direct.tryBlock block line next w).1 /\
  fulfilled (Direct.tryBlock block line next w).1.
Proof.
  intros Hblock Hnext. unfold Direct.tryBlock, mbind, M_bind, bind, catch, after.
  specialize (Hblock w).
  destruct (block w) as [[|t [v|]|t e] w1]; simpl in *; try contradiction.
  - split; [lia|exact I].
  - destruct (Hnext w1) as [Hw Hf].
    destruct (next w1) as [[|t' y|t' e'] w2]; simpl in *; try contradiction.
    split; [lia|exact I].
  - destruct (Hnext (logged w1 line)) as [Hw Hf]. unfold logged in Hw, Hf.
    destruct (next _) as [[|t' y|t' e'] w2]; simpl in *; try contradiction.
    split; [lia|exact I].
Qed.

(** The direct chapter operation always comes back, with a text or with
    [undefined]. *)
Lemma generateChapterContent_fulfilled o info ch i total w :
  within 420000 (Direct.generateChapterContent KEYS o info ch i total w).1 /\
  fulfilled (Direct.generateChapterContent KEYS o info ch i total w).1.
Proof.
  unfold Direct.generateChapterContent.
  apply (tryBlock_fulfilled 120000 300000); [apply chapterGemini_within|]. intros w1.
  apply (tryBlock_fulfilled 60000 240000); [apply chapterOpenAI_within|]. intros w2.
  apply (tryBlock_fulfilled 60000 180000); [apply chapterDeepSeek_within|]. intros w3.
  apply (tryBlock_fulfilled 180000 0); [apply chapterOllama_within|]. intros w4.
  simpl. split; [lia|exact I].
Qed.

(** The calls of the direct service pass no signal: they abort nothing. *)
Lemma aborts_nothing_callGemini p j : aborts_nothing (Direct.callGemini KEYS p j).
Proof.
  unfold Direct.callGemini. destruct (negb _); [apply aborts_nothing_throw|].
  apply aborts_nothing_bind; [apply aborts_nothing_fetch|].
  intros r. apply aborts_nothing_ret.
Qed.

Lemma aborts_nothing_callOpenAI endpoint b :
  aborts_nothing (Direct.callOpenAI KEYS endpoint b).
Proof.
  unfold Direct.callOpenAI. destruct (negb _); [apply aborts_nothing_throw|].
  apply aborts_nothing_bind; [apply aborts_nothing_fetchWithRetry|].
  intros r. destruct (negb (ok r)); [|apply aborts_nothing_response_json].
  apply aborts_nothing_bind; [apply aborts_nothing_response_text|].
  intros txt. apply aborts_nothing_throw.
Qed.

Lemma aborts_nothing_callDeepSeek p j : aborts_nothing (Direct.callDeepSeek KEYS p j).
Proof.
  unfold Direct.callDeepSeek. destruct (negb _); [apply aborts_nothing_throw|].
  apply aborts_nothing_bind; [apply aborts_nothing_fetchWithRetry|].
  intros r. destruct (negb (ok r)); [|apply aborts_nothing_response_json].
  apply aborts_nothing_bind; [apply aborts_nothing_response_text|].
  intros txt. apply aborts_nothing_throw.
Qed.

Lemma aborts_nothing_callOllama p j : aborts_nothing (Direct.callOllama p j).
Proof.
  unfold Direct.callOllama.
  apply aborts_nothing_bind; [|intros; apply aborts_nothing_response_json].
  apply aborts_nothing_catch.
  - apply aborts_nothing_bind; [apply aborts_nothing_fetch|].
    intros r. destruct (negb (ok r)); [apply aborts_nothing_throw|apply aborts_nothing_ret].
  - intros e. apply aborts_nothing_bind; [|intros; apply aborts_nothing_throw].
    destruct e as [m|m| |]; try apply aborts_nothing_ret.
    destruct (decide (m = "Failed to fetch")) as [->|Hne]; [apply aborts_nothing_log|].
    repeat (destruct m as [|[[] [] [] [] [] [] [] []] m]; try apply aborts_nothing_ret;
            try apply aborts_nothing_log).
Qed.

(** A block that awaits a call under a deadline and then only reads the
    answer. *)
Lemma cut_at_timed {A B} (c : M B) (d : N) (k : B -> M A) :
  aborts_nothing c -> (forall x, instant (k x)) ->
  cut_at (withTimeout c d ≫= k) c d (fun w => w).
Proof.
  intros Hc Hk w. split; [|split].
  - apply (within_bind_le d 0); [apply within_withTimeout| |lia].
    intros x w'. apply Hk.
  - apply aborts_nothing_bind;
      [apply aborts_nothing_withTimeout, Hc|intros x; apply aborts_nothing_instant, Hk].
  - intros Hex. rewrite (timed_block_cut c d k w Hex). split; reflexivity.
Qed.

(** The same behind a line written to the console. *)
Lemma cut_at_logged {A B} line (block : M A) (c : M B) (d : N) :
  cut_at block c d (fun w => w) ->
  cut_at (log line ≫= fun _ => block) c d (fun w => logged w line).
Proof.
  intros H w. rewrite bind_log. destruct (H (logged w line)) as (H1 & H2 & H3).
  split; [exact H1|]. split; [exact H2|exact H3].
Qed.

Lemma instant_read_parse d :
  instant (content d ≫= Direct.cleanAndParseJSON parseJSON).
Proof. apply instant_bind; [apply instant_content|apply instant_cleanAndParseJSON]. Qed.

Lemma instant_read d :
  instant (content d ≫= fun c => (mret (Some c) : M (option (option string)))).
Proof. apply instant_bind; [apply instant_content|intros; apply instant_ret]. Qed.

Lemma outline_blocks_cut o :
  cut_at (Direct.outlineGemini KEYS parseJSON o)
    (Direct.callGemini KEYS (OutlinePrompt o) true) 120000
    (fun w => logged w "Attempting Gemini for Outline...") /\
  cut_at (Direct.outlineOpenAI KEYS parseJSON o)
    (Direct.callOpenAI KEYS "/chat/completions" (TextBody "gpt-4o" (OutlinePrompt o) true))
    45000 (fun w => logged w "Attempting OpenAI for Outline...") /\
  cut_at (Direct.outlineDeepSeek KEYS parseJSON o)
    (Direct.callDeepSeek KEYS (OutlinePrompt o) true) 45000
    (fun w => logged w "Attempting DeepSeek for Outline...") /\
  cut_at (Direct.outlineOllama parseJSON o)
    (Direct.callOllama (OutlinePrompt o) true) 120000
    (fun w => logged w "Attempting Ollama for Outline...").
Proof.
  split; [|split; [|split]].
  - apply cut_at_logged, cut_at_timed; [apply aborts_nothing_callGemini|].
    intros text. destruct (negb (truthy text));
      [apply instant_throw|apply instant_cleanAndParseJSON].
  - apply cut_at_logged, cut_at_timed; [apply aborts_nothing_callOpenAI|].
    apply instant_read_parse.
  - apply cut_at_logged, cut_at_timed; [apply aborts_nothing_callDeepSeek|].
    apply instant_read_parse.
  - apply cut_at_logged, cut_at_timed; [apply aborts_nothing_callOllama|].
    apply instant_read_parse.
Qed.

Lemma chapter_blocks_cut p :
  cut_at (Direct.chapterGemini KEYS p) (Direct.callGemini KEYS p false) 120000
    (fun w => w) /\
  cut_at (Direct.chapterOpenAI KEYS p)
    (Direct.callOpenAI KEYS "/chat/completions" (TextBody "gpt-4o" p false)) 60000
    (fun w => w) /\
  cut_at (Direct.chapterDeepSeek KEYS p) (Direct.callDeepSeek KEYS p false) 60000
    (fun w => w) /\
  cut_at (Direct.chapterOllama p) (Direct.callOllama p false) 180000 (fun w => w).
Proof.
  split; [|split; [|split]].
  - apply cut_at_timed; [apply aborts_nothing_callGemini|].
    intros text. destruct (truthy text); apply instant_ret.
  - apply cut_at_timed; [apply aborts_nothing_callOpenAI|apply instant_read].
  - apply cut_at_timed; [apply aborts_nothing_callDeepSeek|apply instant_read].
  - apply cut_at_timed; [apply aborts_nothing_callOllama|apply instant_read].
Qed.
End DirectDeadlines.

(** ** Failure of a chapter *)

Section Stopping.
Context {C : Type}.
Variable gen : BookOptions -> BookInfo -> ChapterOutline -> nat -> nat -> M C.
Variables (o : BookOptions) (ol : BookOutline) (bookId : option string).

(** After [n] successful turns, a turn that throws ends the loop. *)
Lemma generation_loop_throws n s s' m'' :
  turns gen o ol bookId n s s' ->
  iteration gen o ol bookId s'.1.1 s'.1.2 s'.2 = Threw m'' ->
  forall remaining, (n < remaining)%nat ->
  generation_loop gen o ol bookId remaining s.1.1 s.1.2 s.2 = Threw m''.
Proof.
  induction 1 as [[[i chs] m]|n i chs m i' chs' m' s'' Hit Hturns IH];
    intros Hthrow remaining Hn.
  - destruct remaining as [|rem]; [lia|]. simpl in *. rewrite Hthrow. reflexivity.
  - destruct remaining as [|rem]; [lia|]. simpl. rewrite Hit.
    apply (IH Hthrow rem). lia.
Qed.

(** With a chapter call that always comes back, the loop runs to its end. *)
Lemma generation_loop_continues :
  (forall o' info ch j total w, exists t c w',
      gen o' info ch j total w = (Fulfilled t c, w')) ->
  forall remaining i chs m,
    (remaining <= length (chapters ol) - i)%nat ->
    exists i' chs' m',
      generation_loop gen o ol bookId remaining i chs m = Continue i' chs' m'.
Proof.
  intros Hgen. induction remaining as [|rem IH]; intros i chs m Hi; simpl.
  - eauto.
  - destruct (iteration_total gen o ol bookId i chs m Hgen) as (i' & chs' & m' & Hit);
      [lia|].
    rewrite Hit.
    destruct (iteration_continue _ _ _ _ _ _ _ _ _ _ Hit) as (_ & _ & _ & -> & _).
    apply IH. lia.
Qed.

(** The call behind a turn that throws was rejected. *)
Lemma iteration_rejected i chs m m' :
  iteration gen o ol bookId i chs m = Threw m' ->
  (i < length (chapters ol))%nat ->
  exists meta t e,
    chapters ol !! i = Some meta /\
    chapter_call gen o ol i meta (world m) = (Rejected t e, world m') /\
    app m' = app m.
Proof.
  intros Hstop Hi. destruct (lookup_lt_is_Some_2 (chapters ol) i Hi) as [meta Hmeta].
  exists meta. revert Hstop. unfold iteration, chapter_call. rewrite Hmeta.
  change (world (asking i m)) with (world m).
  destruct (gen _ _ _ _ _ _) as [[|t c|t e] w]; intros H; try discriminate.
  injection H as <-. exists t, e. repeat split.
Qed.

(** The call behind a turn that never ends stays pending. *)
Lemma iteration_pending i chs m m' :
  iteration gen o ol bookId i chs m = Pending m' ->
  exists meta,
    chapters ol !! i = Some meta /\
    chapter_call gen o ol i meta (world m) = (Never, world m') /\
    app m' = app m.
Proof.
  unfold iteration, chapter_call. destruct (chapters ol !! i) as [meta|]; [|discriminate].
  change (world (asking i m)) with (world m).
  destruct (gen _ _ _ _ _ _) as [[|t c|t e] w] eqn:Hcall; intros H; try discriminate.
  injection H as <-. exists meta. rewrite Hcall. repeat split.
Qed.

(** The turns of the loop leave the error message alone. *)
Lemma turns_error n s s' :
  turns gen o ol bookId n s s' -> error (app s'.2) = error (app s.2).
Proof.
  induction 1 as [s|n i chs m i' chs' m' s'' Hit Hturns IH]; [reflexivity|].
  rewrite IH. simpl. revert Hit. unfold iteration.
  destruct (chapters ol !! i) as [meta|]; [|discriminate].
  destruct (gen _ _ _ _ _ _) as [[|t c|t e] w]; try discriminate.
  intros H. injection H as <- <- <-. destruct bookId; reflexivity.
Qed.
End Stopping.

(** How a run of [handleStartGeneration] ends. *)
Lemma handleStartGeneration_ends {C}
    (gen : BookOptions -> BookInfo -> ChapterOutline -> nat -> nat -> M C)
    (resume : bool) (m : Machine C) (ol : BookOutline) (o : BookOptions) :
  outline (app m) = Some ol -> options (app m) = Some o ->
  let kept := if resume then generatedChapters (app m) else [] in
  let m' := handleStartGeneration gen resume m in
  exists new w1,
    produced gen o ol (length kept) (world m) new w1 /\
    generatedChapters (app m') = kept ++ new /\
    run_ended gen o ol kept m m' new w1.
Proof.
  intros Hol Ho kept m'. unfold m', handleStartGeneration. rewrite Hol, Ho.
  fold kept.
  set (m0 := with_app (setError None) _).
  replace (if resume then length (generatedChapters (app m)) else 0%nat)
    with (length kept) by (unfold kept; destruct resume; reflexivity).
  assert (Hw0 : world m0 = world m) by (unfold m0; destruct resume; reflexivity).
  assert (Hk0 : generatedChapters (app m0) = kept)
    by (unfold m0, kept; destruct resume; reflexivity).
  assert (Hb0 : generatedBook (app m0) = generatedBook (app m))
    by (unfold m0; destruct resume; reflexivity).
  assert (Hs0 : step (app m0) = GENERATING)
    by (unfold m0; destruct resume; reflexivity).
  assert (He0 : error (app m0) = None)
    by (unfold m0; destruct resume; reflexivity).
  destruct (generation_loop_turns gen o ol (currentBookId (app m))
              (length (chapters ol) - length kept) (length kept) kept m0)
    as (n & [[i1 chs1] m1] & Hturns & Hres).
  destruct (turns_produced _ _ _ _ _ _ _ Hturns) as (new & Hprod & Hchs & Hgen & Hlen).
  pose proof (turns_step _ _ _ _ _ _ _ Hturns) as Hstep.
  pose proof (turns_book _ _ _ _ _ _ _ Hturns) as Hbook.
  pose proof (turns_error _ _ _ _ _ _ _ Hturns) as Herr.
  destruct (turns_effects _ _ _ _ _ _ _ Hturns) as (Hi & _).
  cbn [fst snd] in Hprod, Hchs, Hgen, Hstep, Hbook, Herr, Hi. rewrite Hw0 in Hprod.
  rewrite Hk0 in Hgen. rewrite Hs0 in Hstep. rewrite Hb0 in Hbook.
  rewrite He0 in Herr.
  exists new, (world m1). split; [exact Hprod|]. unfold run_ended.
  destruct (generation_loop _ _ _ _ _ _ _ _) as [i2 chs2 m2|m2|m2].
  - destruct Hres as [-> Heq]. injection Heq as <- <- <-.
    split; [destruct (currentBookId (app m)); exact Hgen|].
    left. rewrite Hchs.
    destruct (currentBookId (app m)); repeat split; assumption.
  - destruct Hres as [Hn Hstop]. cbn [fst snd] in Hstop.
    destruct (iteration_rejected _ _ _ _ _ _ _ _ Hstop)
      as (meta & t & e & Hm & Hcall & Happ); [lia|].
    cbn [app with_app generatedChapters step setStep setError generatedBook error world].
    rewrite Happ. split; [exact Hgen|]. right. left.
    exists meta, t, e, (world m2). rewrite Hlen, <- Hi. repeat split; assumption.
  - destruct Hres as [Hn Hstop]. cbn [fst snd] in Hstop.
    destruct (iteration_pending _ _ _ _ _ _ _ _ Hstop) as (meta & Hm & Hcall & Happ).
    rewrite Happ. split; [exact Hgen|]. right. right.
    exists meta, (world m2). rewrite Hlen, <- Hi. repeat split; assumption.
Qed.

(** Over a service whose chapter call always comes back, the run ends
    completed. *)
Lemma handleStartGeneration_completes {C}
    (gen : BookOptions -> BookInfo -> ChapterOutline -> nat -> nat -> M C)
    resume (m : Machine C) ol o :
  (forall o' info ch j total w, exists t c w',
      gen o' info ch j total w = (Fulfilled t c, w')) ->
  outline (app m) = Some ol -> options (app m) = Some o ->
  step (app (handleStartGeneration gen resume m)) = COMPLETED /\
  error (app (handleStartGeneration gen resume m)) = None.
Proof.
  intros Hgen Hol Ho.
  destruct (handleStartGeneration_ends gen resume m ol o Hol Ho)
    as (new & w1 & _ & _ & [(_ & Hs & He & _)|[H|H]]).
  - split; assumption.
  - exfalso. destruct H as (meta & t & e & w2 & _ & Hcall & _).
    unfold chapter_call in Hcall.
    match type of Hcall with
    | gen ?a ?b ?c ?d ?e ?w = _ =>
        destruct (Hgen a b c d e w) as (t' & c' & w' & Heq)
    end.
    rewrite Heq in Hcall. discriminate.
  - exfalso. destruct H as (meta & w2 & _ & Hcall & _).
    unfold chapter_call in Hcall.
    match type of Hcall with
    | gen ?a ?b ?c ?d ?e ?w = _ =>
        destruct (Hgen a b c d e w) as (t' & c' & w' & Heq)
    end.
    rewrite Heq in Hcall. discriminate.
Qed.

(** What [postJSON] makes of a response that came in time, headers and body. *)
Lemma postJSON_answered path b d w t r rest a :
  script w !! path = Some (http t r :: rest) ->
  arrival r = Some a -> t + a < d ->
  Proxy.postJSON path b d w =
    (let data := match parsed r with inr v => v | inl _ => NoField end in
     if ok r then Fulfilled (t + a) data
     else Rejected (t + a)
            (Error (match data with
                    | Value msg => msg
                    | NoField | NoPath => "Request failed (" +:+ pretty (status r) +:+ ")"
                    end)),
     popped path b w rest).
Proof.
  intros Hs Ha Hlt.
  assert (Ht : (t <? d) = true) by (apply N.ltb_lt; lia).
  assert (Hb : (a <? d - t) = true) by (apply N.ltb_lt; lia).
  unfold Proxy.postJSON, mbind, M_bind, bind, timed, fetch. rewrite Hs. simpl.
  rewrite Ht. simpl. unfold catch, response_json_signal, response_json.
  rewrite Ha, Hb. unfold popped, request, after.
  destruct (parsed r) as [e|v]; destruct (ok r); simpl;
    repeat f_equal; lia.
Qed.

(** C2, as the code has it: when every provider fails, the direct chapter
    operation does not raise but returns its placeholder text; it is always
    fulfilled, within 420 s, with what the first block that returns has
    returned, which is a text or, when the provider's reply holds no content,
    [undefined]; so that a run over it ends completed, with no error shown.
    Whatever the service, a run ends in the error step, with the error
    message, the chapters it had retained followed by those the fulfilled
    calls produced and no book assembled, exactly when the first call that is
    not fulfilled is rejected. The proxied chapter operation is rejected on a
    reply that is not 2xx. *)
Theorem chapter_failure_handling :
  (forall KEYS o info ch i total w T w1,
     fallthroughs (chapter_blocks KEYS (ChapterPrompt o info ch i)) w = Some (T, w1) ->
     Direct.generateChapterContent KEYS o info ch i total w =
       (Fulfilled T (Some "[Error: Chapter generation failed across all providers.]"),
        w1)) /\
  (forall KEYS o info ch i total w,
     fulfilled (Direct.generateChapterContent KEYS o info ch i total w).1 /\
     within 420000 (Direct.generateChapterContent KEYS o info ch i total w).1) /\
  (forall KEYS o info ch i total w pre name block post T w1 t v w2,
     chapter_blocks KEYS (ChapterPrompt o info ch i) = pre ++ (name, block) :: post ->
     fallthroughs pre w = Some (T, w1) ->
     block w1 = (Fulfilled t (Some v), w2) ->
     Direct.generateChapterContent KEYS o info ch i total w = (Fulfilled (T + t) v, w2)) /\
  (forall KEYS resume m ol o,
     outline (app m) = Some ol -> options (app m) = Some o ->
     let m' := handleStartGeneration (Direct.generateChapterContent KEYS) resume m in
     step (app m') = COMPLETED /\ error (app m') = None) /\
  (forall C (gen : BookOptions -> BookInfo -> ChapterOutline -> nat -> nat -> M C)
          (resume : bool) (m : Machine C) ol o,
     outline (app m) = Some ol -> options (app m) = Some o ->
     let kept := if resume then generatedChapters (app m) else [] in
     let m' := handleStartGeneration gen resume m in
     exists new w1,
       produced gen o ol (length kept) (world m) new w1 /\
       generatedChapters (app m') = kept ++ new /\
       run_ended gen o ol kept m m' new w1) /\
  (forall o info ch i total w t r rest a,
     script w !! "/api/ai/chapter" = Some (http t r :: rest) ->
     arrival r = Some a -> t + a < 180000 -> ok r = false ->
     exists msg,
       (Proxy.generateChapterContent o info ch i total w).1 = Rejected (t + a) (Error msg)).
Proof.
  split; [|split; [|split; [|split; [|split]]]].
  - intros KEYS o info ch i total w T w1 H.
    pose proof (fallbackOr_fallthroughs
                  (chapter_blocks KEYS (ChapterPrompt o info ch i)) []
                  (mret (Some Direct.chapter_failed)) w T w1 H) as Heq.
    rewrite app_nil_r in Heq.
    change (Direct.generateChapterContent KEYS o info ch i total)
      with (fallbackOr (chapter_blocks KEYS (ChapterPrompt o info ch i))
              (mret (Some Direct.chapter_failed))).
    rewrite Heq. unfold after. simpl. rewrite N.add_0_r. reflexivity.
  - intros. split; apply generateChapterContent_fulfilled.
  - intros KEYS o info ch i total w pre name block post T w1 t v w2 Hblocks Hpre Hblock.
    change (Direct.generateChapterContent KEYS o info ch i total)
      with (fallbackOr (chapter_blocks KEYS (ChapterPrompt o info ch i))
              (mret (Some Direct.chapter_failed))).
    rewrite Hblocks, (fallbackOr_fallthroughs pre _ _ _ _ _ Hpre). simpl.
    unfold Direct.tryBlock, mbind, M_bind, bind, catch. rewrite Hblock.
    unfold after. simpl. rewrite N.add_0_r. reflexivity.
  - intros KEYS resume m ol o Hol Ho m'.
    apply (handleStartGeneration_completes _ resume m ol o); [|assumption|assumption].
    intros o' info ch j total w.
    pose proof (generateChapterContent_fulfilled KEYS o' info ch j total w) as [_ Hf].
    destruct (Direct.generateChapterContent KEYS o' info ch j total w)
      as [[|t c|t e] w']; simpl in Hf; try contradiction. eauto.
  - intros C gen resume m ol o Hol Ho.
    apply (handleStartGeneration_ends gen resume m ol o Hol Ho).
  - intros o info ch i total w t r rest a Hs Ha Hlt Hok.
    unfold Proxy.generateChapterContent.
    erewrite bind_rejected;
      [|rewrite (postJSON_answered _ _ _ _ _ _ _ _ Hs Ha Hlt), Hok; reflexivity].
    eauto.
Qed.

(** ** Acceptance of an outline *)

(** The check of the handler turns down exactly the results that are [null]
    or whose [chapters] is missing, falsy, or of length 0. *)
Lemma outline_invalid_turned_down result :
  outline_invalid result = true <-> turned_down result.
Proof.
  unfold turned_down. destruct result as [raw|]; simpl.
  - split.
    + intros H. right. exists raw. split; [reflexivity|].
      destruct (raw_chapters raw) as [[|b|n|s|items|fields]|]; simpl in H;
        try discriminate; try constructor.
      * destruct b; [discriminate|constructor].
      * destruct (Z.eqb_spec n 0) as [Hn|Hn]; [subst n; constructor|discriminate].
      * destruct s as [|c s]; [constructor|discriminate].
      * destruct items; [constructor|].
        simpl in H. unfold js_is_zero in H. simpl in H. discriminate.
      * destruct (js_field "length" fields) as [[|b|n|s|items|fs]|] eqn:Hf;
          simpl in H; try discriminate.
        destruct (Z.eqb_spec n 0) as [Hn|Hn]; [subst n; reflexivity|discriminate].
    + intros [H|(raw' & Heq & Hno)]; [discriminate|]. injection Heq as <-.
      inversion Hno as [| | | | | |fields Hf Heq]; try reflexivity.
      simpl. rewrite Hf. reflexivity.
  - split; [intros _; left; reflexivity|reflexivity].
Qed.

Lemma as_chapter_json c : as_chapter (chapter_json c) = Some c.
Proof. destruct c. reflexivity. Qed.

Lemma as_chapters_json chs : as_chapters (chapters_json chs) = Some chs.
Proof.
  unfold as_chapters, chapters_json. induction chs as [|c chs IH]; [reflexivity|].
  cbn [fmap list_fmap mapM]. rewrite as_chapter_json.
  cbn [fmap list_fmap mapM] in IH. simpl. simpl in IH. rewrite IH. reflexivity.
Qed.

Lemma submitted_turned_down {C} bookId result (m : Machine C) :
  turned_down result ->
  submitted bookId result m =
    Shown (outline_failed "Generated outline was empty or invalid." m).
Proof.
  intros H. apply outline_invalid_turned_down in H.
  destruct result as [raw|]; [|reflexivity].
  unfold submitted. rewrite H. reflexivity.
Qed.

Lemma submitted_passed {C} bookId raw (m : Machine C) :
  ~ turned_down (Some raw) ->
  let updated (m : Machine C) :=
    match bookId with
    | Some id => stored (UpdateBookWithOutline id raw) m
    | None => m
    end in
  submitted bookId (Some raw) m =
    match raw_chapters raw ≫= as_chapters with
    | Some chs =>
        Shown (with_app (setStep OUTLINE_REVIEW)
                 (updated (with_app
                    (setOutline (Some {| title := raw_title raw;
                                         subtitle := raw_subtitle raw;
                                         description := raw_description raw;
                                         backCoverCopy := raw_backCoverCopy raw;
                                         chapters := chs |})) m)))
    | None => Unchecked raw (with_app (setStep OUTLINE_REVIEW) (updated m))
    end.
Proof.
  intros H updated. unfold submitted.
  destruct (outline_invalid (Some raw)) eqn:Hinv; [|reflexivity].
  exfalso. apply H, outline_invalid_turned_down, Hinv.
Qed.

(** C9, as the code has it: when the outline operation comes back with a
    result, [handleWizardSubmit] sends the wizard back to the input step
    exactly when the result is [null] or its [chapters] is missing, falsy, an
    empty array or an object of length 0; it then shows the error message,
    stores no outline and asks for no chapter, and chapter generation cannot
    start while no outline is stored. A result whose [chapters] is a
    non-empty array of chapter outlines is stored and the wizard moves on to
    the review. But the check does not ask for an array: any other truthy
    value of [chapters] whose length is not 0 passes it too, and the wizard
    moves on to the review with that result. *)
Theorem outline_accepted_only_nonempty {C}
    (gen : BookOptions -> M (option RawOutline))
    (gen' : BookOptions -> BookInfo -> ChapterOutline -> nat -> nat -> M C)
    (bookId : option string) (formData : BookOptions) (m : Machine C)
    (t : N) (result : option RawOutline) (w' : World) :
  gen formData (submit_world bookId formData m) = (Fulfilled t result, w') ->
  let outcome := handleWizardSubmit gen bookId formData m in
  ((exists m', outcome = Shown m' /\ step (app m') = INPUT) <-> turned_down result) /\
  (turned_down result ->
   exists m',
     outcome = Shown m' /\
     step (app m') = INPUT /\
     error (app m') =
       Some "Failed to generate outline. The AI service may be busy or out of credits. Generated outline was empty or invalid." /\
     outline (app m') = outline (app m) /\
     generatedChapters (app m') = generatedChapters (app m) /\
     asked m' = asked m /\
     world m' = w' /\
     (outline (app m) = None ->
      forall resume, handleStartGeneration gen' resume m' = m')) /\
  (forall raw chs,
     result = Some raw -> raw_chapters raw = Some (chapters_json chs) -> chs <> [] ->
     exists m',
       outcome = Shown m' /\
       step (app m') = OUTLINE_REVIEW /\
       error (app m') = None /\
       outline (app m') =
         Some {| title := raw_title raw; subtitle := raw_subtitle raw;
                 description := raw_description raw;
                 backCoverCopy := raw_backCoverCopy raw; chapters := chs |}) /\
  (forall raw v,
     result = Some raw -> raw_chapters raw = Some v ->
     ~ no_chapters (Some v) -> as_chapters v = None ->
     exists m',
       outcome = Unchecked raw m' /\
       step (app m') = OUTLINE_REVIEW /\
       error (app m') = None /\
       outline (app m') = outline (app m)).
Proof.
  intros Hgen outcome. unfold outcome, handleWizardSubmit.
  unfold submit_world in Hgen. rewrite Hgen.
  set (m1 := with_world w' (submitting bookId formData m)).
  assert (Hol1 : outline (app m1) = outline (app m))
    by (unfold m1; destruct bookId; reflexivity).
  assert (Hch1 : generatedChapters (app m1) = generatedChapters (app m))
    by (unfold m1; destruct bookId; reflexivity).
  assert (Hask1 : asked m1 = asked m) by (unfold m1; destruct bookId; reflexivity).
  assert (Herr1 : error (app m1) = None) by (unfold m1; destruct bookId; reflexivity).
  assert (Hw1 : world m1 = w') by reflexivity.
  assert (Hpass : forall raw, result = Some raw -> ~ turned_down result ->
            exists s m',
              (submitted bookId result m1 = Shown m' \/
               submitted bookId result m1 = Unchecked s m') /\
              step (app m') = OUTLINE_REVIEW).
  { intros raw -> Hnot. rewrite (submitted_passed bookId raw m1 Hnot).
    destruct (raw_chapters raw ≫= as_chapters) as [chs|];
      eexists raw, _; (split; [eauto|]); destruct bookId; reflexivity. }
  split; [|split; [|split]].
  - split.
    + intros (m' & Heq & Hstep).
      destruct (outline_invalid result) eqn:Hinv;
        [apply outline_invalid_turned_down, Hinv|exfalso].
      assert (Hnot : ~ turned_down result).
      { intros H. apply outline_invalid_turned_down in H. congruence. }
      destruct result as [raw|]; [|discriminate].
      destruct (Hpass raw eq_refl Hnot) as (s & m2 & [H|H] & Hs);
        rewrite H in Heq; [|discriminate].
      injection Heq as <-. rewrite Hs in Hstep. discriminate.
    + intros H. rewrite (submitted_turned_down bookId result m1 H).
      eexists. split; reflexivity.
  - intros H. rewrite (submitted_turned_down bookId result m1 H).
    eexists. split; [reflexivity|].
    repeat split; try assumption.
    intros Hnone resume. unfold handleStartGeneration.
    replace (outline (app (outline_failed _ m1))) with (@None BookOutline);
      [reflexivity|].
    rewrite <- Hnone, <- Hol1. reflexivity.
  - intros raw chs -> Hchs Hne.
    assert (Hnot : ~ turned_down (Some raw)).
    { intros [H|(raw' & Heq & Hno)]; [discriminate|]. injection Heq as <-.
      rewrite Hchs in Hno. destruct chs as [|c chs]; [congruence|].
      inversion Hno. }
    rewrite (submitted_passed bookId raw m1 Hnot), Hchs.
    cbn [mbind option_bind]. rewrite as_chapters_json.
    eexists. split; [reflexivity|].
    destruct bookId; repeat split; assumption.
  - intros raw v -> Hv Hno Hdec.
    assert (Hnot : ~ turned_down (Some raw)).
    { intros [H|(raw' & Heq & Hno')]; [discriminate|]. injection Heq as <-.
      rewrite Hv in Hno'. contradiction. }
    rewrite (submitted_passed bookId raw m1 Hnot), Hv.
    cbn [mbind option_bind]. rewrite Hdec.
    eexists. split; [reflexivity|].
    destruct bookId; repeat split; assumption.
Qed.

(** ** Cover images *)

(** C10: in the three services that regenerate the cover, editing a cover is
    generating a fresh one from the prompt at size 1K: whatever image is
    passed, the operation is the same computation, with the same result and
    the same effects in every world. *)
Theorem editCoverImage_ignores_image (b1 b2 prompt : string) (w : World) :
  (forall KEYS,
     Direct.editCoverImage KEYS b1 prompt w = Direct.editCoverImage KEYS b2 prompt w /\
     Direct.editCoverImage KEYS b1 prompt w = Direct.generateCoverImage KEYS prompt K1 w) /\
  (Proxy.editCoverImage b1 prompt w = Proxy.editCoverImage b2 prompt w /\
   Proxy.editCoverImage b1 prompt w = Proxy.generateCoverImage prompt K1 w) /\
  (OpenAIOnly.editCoverImage b1 prompt w = OpenAIOnly.editCoverImage b2 prompt w /\
   OpenAIOnly.editCoverImage b1 prompt w = OpenAIOnly.generateCoverImage prompt K1 w).
Proof. repeat split. Qed.

(** ** Deadlines of the services *)

Lemma within_fetch_signal u b d w : within d (fetch u b (Some d) w).1.
Proof.
  unfold fetch. destruct (script w !! u) as [[|r rest]|]; simpl; try lia.
  destruct (latency r) as [t|]; simpl; [|lia].
  destruct (N.ltb_spec t d); simpl; [|lia].
  destruct (answer r); simpl; lia.
Qed.

(** Reading the body under what is left of the deadline. *)
Lemma within_body_read path r d w :
  within d (catch (response_json_signal path r d) (fun _ => mret NoField) w).1.
Proof.
  unfold catch, response_json_signal, response_json.
  destruct (arrival r) as [a|]; [|simpl; lia].
  destruct (N.ltb_spec a d); [|simpl; lia].
  destruct (parsed r); simpl; lia.
Qed.

Lemma within_postJSON path b d w : within d (Proxy.postJSON path b d w).1.
Proof.
  unfold Proxy.postJSON, mbind, M_bind, bind, timed.
  pose proof (within_fetch_signal path b d w) as Hf.
  destruct (fetch path b (Some d) w) as [[|t r|t e] w1]; simpl in *;
    try contradiction; try lia.
  pose proof (within_body_read path r (d - t) w1) as Hb.
  destruct (catch _ _ w1) as [[|t' v|t' e] w2]; simpl in *; try contradiction; try lia.
  destruct (negb (ok r)); simpl; lia.
Qed.

(** A response that is not there when the timer fires: the request is
    aborted. *)
Lemma postJSON_aborts path b d w r rest :
  script w !! path = Some (r :: rest) ->
  match latency r with Some t => d <= t | None => True end ->
  (Proxy.postJSON path b d w).1 = Rejected d AbortError /\
  aborted (Proxy.postJSON path b d w).2 = aborted w ++ [path].
Proof.
  intros Hs Hlate. unfold Proxy.postJSON, mbind, M_bind, bind, timed, fetch. rewrite Hs.
  destruct (latency r) as [t|]; [|split; reflexivity].
  destruct (N.ltb_spec t d); [lia|split; reflexivity].
Qed.

(** A body that is not there when the timer fires: the request is aborted,
    the failure of the read is swallowed and the body taken to be empty. *)
Lemma postJSON_body_late path b d w t r rest :
  script w !! path = Some (http t r :: rest) -> t < d ->
  match arrival r with Some a => d <= t + a | None => True end ->
  (Proxy.postJSON path b d w).1 =
    (if ok r then Fulfilled d NoField
     else Rejected d (Error ("Request failed (" +:+ pretty (status r) +:+ ")"))) /\
  (Proxy.postJSON path b d w).2 =
    {| script := <[path := rest]> (script w);
       requests := requests w ++ [request path b];
       sleeps := sleeps w; aborted := aborted w ++ [path]; console := console w |}.
Proof.
  intros Hs Hlt Hlate.
  assert (Ht : (t <? d) = true) by (apply N.ltb_lt; lia).
  unfold Proxy.postJSON, mbind, M_bind, bind, timed, fetch. rewrite Hs. simpl.
  rewrite Ht. simpl. unfold catch, response_json_signal.
  assert (Hgive : match arrival r with
                  | Some a => if a <? d - t then response_json r
                                (popped path b w rest) else
                      (Rejected (d - t) AbortError,
                       {| script := <[path := rest]> (script w);
                          requests := requests w ++ [request path b];
                          sleeps := sleeps w; aborted := aborted w ++ [path];
                          console := console w |})
                  | None => (Rejected (d - t) AbortError,
                       {| script := <[path := rest]> (script w);
                          requests := requests w ++ [request path b];
                          sleeps := sleeps w; aborted := aborted w ++ [path];
                          console := console w |})
                  end = (Rejected (d - t) AbortError,
                       {| script := <[path := rest]> (script w);
                          requests := requests w ++ [request path b];
                          sleeps := sleeps w; aborted := aborted w ++ [path];
                          console := console w |})).
  { destruct (arrival r) as [a|]; [|reflexivity].
    destruct (N.ltb_spec a (d - t)); [lia|reflexivity]. }
  unfold popped, request in Hgive. simpl. rewrite Hgive. unfold after. simpl.
  destruct (ok r); simpl; split; try reflexivity; f_equal; lia.
Qed.

(** An operation of the proxied client that only reads the field of the
    body. *)
Lemma proxied_aborts_at {A} path b d (k : Field -> M A) (undefined : A) :
  (forall v, instant (k v)) ->
  (forall w, k NoField w = (Fulfilled 0 undefined, w)) ->
  aborts_at (Proxy.postJSON path b d ≫= k) path d undefined.
Proof.
  intros Hk Hnone w. split; [|split; [|split]].
  - apply (within_bind_le d 0); [apply within_postJSON| |lia].
    intros v w'. apply Hk.
  - intros r rest Hs Hlate.
    destruct (postJSON_aborts path b d w r rest Hs Hlate) as [H1 H2].
    unfold mbind, M_bind, bind.
    destruct (Proxy.postJSON path b d w) as [res w1]. simpl in H1, H2. subst res.
    split; [reflexivity|exact H2].
  - intros t r rest Hs Hlt Hlate.
    destruct (postJSON_body_late path b d w t r rest Hs Hlt Hlate) as [H1 H2].
    unfold mbind, M_bind, bind.
    destruct (Proxy.postJSON path b d w) as [res w1]. simpl in H1, H2. subst res w1.
    destruct (ok r); [|split; reflexivity].
    rewrite Hnone. unfold after. simpl. rewrite N.add_0_r. split; reflexivity.
  - intros t r rest a Hs Ha Hlt.
    unfold mbind, M_bind, bind.
    rewrite (postJSON_answered path b d w t r rest a Hs Ha Hlt). cbv zeta.
    destruct (ok r); [|split; reflexivity].
    match goal with
    | |- context [k ?v ?w1] =>
        destruct (Hk v w1) as [Ht Hw]; destruct (k v w1) as [[|t' x|t' e] w2]
    end; simpl in *; try contradiction; subst;
      (split; [f_equal; lia|reflexivity]).
Qed.

(** C6, as the code has it. [withTimeout] settles within its deadline, and
    with the timeout error when the call exceeds it, but cancels nothing, the
    world being the one the call leaves. In the direct service every text
    call runs under such a deadline: 120, 45, 45 and 120 s for the outline
    calls to Gemini, OpenAI, DeepSeek and Ollama, and 120, 60, 60 and 180 s
    for the chapter calls; each block settles within its deadline and aborts
    no request, and when its call exceeds the deadline it fails with the
    timeout error while the request stays sent. The proxied client passes an
    abort signal with every call, under a deadline of 120 s for the outline,
    180 s for a chapter and 120 s for a cover: the operation settles within
    the deadline; the request is aborted and the operation fails with the
    abort error when the response is not there by then; when the response is
    there but its body is not, the request is aborted too, but the failure of
    the read is swallowed, and the operation returns [undefined] on a 2xx
    response and fails with the status otherwise; nothing is aborted when the
    body is there in time. *)
Theorem deadlines :
  (forall A (c : M A) ms w,
     within ms (withTimeout c ms w).1 /\
     (exceeds ms (c w).1 -> (withTimeout c ms w).1 = timed_out ms) /\
     (withTimeout c ms w).2 = (c w).2) /\
  (forall KEYS parseJSON o,
     cut_at (Direct.outlineGemini KEYS parseJSON o)
       (Direct.callGemini KEYS (OutlinePrompt o) true) 120000
       (fun w => logged w "Attempting Gemini for Outline...") /\
     cut_at (Direct.outlineOpenAI KEYS parseJSON o)
       (Direct.callOpenAI KEYS "/chat/completions"
          (TextBody "gpt-4o" (OutlinePrompt o) true))
       45000 (fun w => logged w "Attempting OpenAI for Outline...") /\
     cut_at (Direct.outlineDeepSeek KEYS parseJSON o)
       (Direct.callDeepSeek KEYS (OutlinePrompt o) true) 45000
       (fun w => logged w "Attempting DeepSeek for Outline...") /\
     cut_at (Direct.outlineOllama parseJSON o)
       (Direct.callOllama (OutlinePrompt o) true) 120000
       (fun w => logged w "Attempting Ollama for Outline...")) /\
  (forall KEYS p,
     cut_at (Direct.chapterGemini KEYS p) (Direct.callGemini KEYS p false) 120000
       (fun w => w) /\
     cut_at (Direct.chapterOpenAI KEYS p)
       (Direct.callOpenAI KEYS "/chat/completions" (TextBody "gpt-4o" p false)) 60000
       (fun w => w) /\
     cut_at (Direct.chapterDeepSeek KEYS p) (Direct.callDeepSeek KEYS p false) 60000
       (fun w => w) /\
     cut_at (Direct.chapterOllama p) (Direct.callOllama p false) 180000 (fun w => w)) /\
  (forall parseJSON o info ch i total prompt size,
     aborts_at (Proxy.generateBookOutline parseJSON o) "/api/ai/outline" 120000 None /\
     aborts_at (Proxy.generateChapterContent o info ch i total) "/api/ai/chapter"
       180000 None /\
     aborts_at (Proxy.generateCoverImage prompt size) "/api/ai/cover" 120000 None).
Proof.
  split; [|split; [|split]].
  - intros A c ms w. split; [apply within_withTimeout|].
    split; [apply withTimeout_exceeded|apply withTimeout_world].
  - intros KEYS parseJSON o. apply outline_blocks_cut.
  - intros KEYS p. apply chapter_blocks_cut.
  - intros parseJSON o info ch i total prompt size.
    split; [|split].
    + unfold Proxy.generateBookOutline. apply proxied_aborts_at; [|reflexivity].
      intros v. apply instant_bind; [apply instant_content|intros; apply instant_ret].
    + unfold Proxy.generateChapterContent. apply proxied_aborts_at; [|reflexivity].
      apply instant_content.
    + unfold Proxy.generateCoverImage. apply proxied_aborts_at; [|reflexivity].
      apply instant_content.
Qed.

(** A Gemini text call that takes 200 s is cut at 120 s with the timeout
    error, its request sent and not aborted; a proxied chapter call that
    takes 200 s is aborted at 180 s; and one whose response is there after
    100 s but whose body never arrives is aborted at 180 s too, and returns
    [undefined]. *)
Lemma deadlines_witness :
  let call := Proxy.generateChapterContent Sample.book_options Sample.info
                (Sample.chapter "one") 0 3 in
  ((Direct.chapterGemini Sample.keys Sample.prompt Sample.gemini_slow).1
     = timed_out 120000 /\
   (Direct.chapterGemini Sample.keys Sample.prompt Sample.gemini_slow).2
     = (Direct.callGemini Sample.keys Sample.prompt false Sample.gemini_slow).2) /\
  ((call Sample.proxy_slow).1 = Rejected 180000 AbortError /\
   aborted (call Sample.proxy_slow).2 = aborted Sample.proxy_slow ++ ["/api/ai/chapter"]) /\
  ((call Sample.proxy_body_hangs).1 = Fulfilled 180000 None /\
   aborted (call Sample.proxy_body_hangs).2
     = aborted Sample.proxy_body_hangs ++ ["/api/ai/chapter"]).
Proof.
  intros call.
  destruct deadlines as (_ & _ & Hdirect & Hproxy).
  destruct (Hdirect Sample.keys Sample.prompt) as (Hgemini & _).
  destruct (Hproxy Sample.parseJSON Sample.book_options Sample.info
              (Sample.chapter "one") 0%nat 3%nat "A green cover" K1) as (_ & Hchapter & _).
  split; [|split].
  - apply (Hgemini Sample.gemini_slow). vm_compute. discriminate.
  - destruct (Hchapter Sample.proxy_slow) as (_ & Hlate & _).
    eapply Hlate; [vm_compute; reflexivity|vm_compute; discriminate].
  - destruct (Hchapter Sample.proxy_body_hangs) as (_ & _ & Hbody & _).
    apply (Hbody 100000
             {| status := 200; statusText := "OK"; arrival := None;
                text := "# One"; parsed := inr (Value "# One") |} []);
      [vm_compute; reflexivity|reflexivity|exact I].
Defined.

(** The image calls have no deadline: when the Gemini image model never
    answers, the direct [generateCoverImage] stays pending for ever; nor has
    the OpenAI-only service any: its chapter operation stays pending for ever
    when OpenAI never answers. And the Gemini text call cut by [withTimeout]
    at 120 s was sent and is not aborted. *)
Lemma deadlines_counterexample :
  (Direct.generateCoverImage Sample.keys "A green cover" K1 Sample.image_hangs).1
    = Never /\
  (OpenAIOnly.generateChapterContent Sample.book_options Sample.info
     (Sample.chapter "one") 0 3 Sample.openai_hangs).1 = Never /\
  (OpenAIOnly.generateCoverImage "A green cover" K1 Sample.all_down).1
    = Rejected 0 (TypeError "Failed to fetch") /\
  (Direct.chapterGemini Sample.keys Sample.prompt Sample.gemini_slow).1
    = timed_out 120000 /\
  requests (Direct.chapterGemini Sample.keys Sample.prompt Sample.gemini_slow).2
    = [request Direct.GEMINI_TEXT (TextBody Direct.GEMINI_TEXT Sample.prompt false)] /\
  aborted (Direct.chapterGemini Sample.keys Sample.prompt Sample.gemini_slow).2 = [].
Proof. vm_compute. repeat split. Qed.

(** ** The properties on the sample inputs *)


(** Every provider down: the chapter operation returns its placeholder, and
    the run over the three chapters of the sample outline ends completed, with
    three placeholder chapters and no error. And with OpenAI answering by a
    message without content, the operation returns [undefined]. *)
Lemma chapter_failure_counterexample :
  let gen := Direct.generateChapterContent Sample.keys in
  (fst <$> fallthroughs (chapter_blocks Sample.keys Sample.prompt) Sample.all_down)
    = Some 6000 /\
  (gen Sample.book_options Sample.info (Sample.chapter "one") 0%nat 3%nat
     Sample.all_down).1 = Fulfilled 6000 (Some Direct.chapter_failed) /\
  (gen Sample.book_options Sample.info (Sample.chapter "one") 0%nat 3%nat
     Sample.openai_no_content).1 = Fulfilled 20 None /\
  let m' := handleStartGeneration gen false (Sample.reviewing Sample.all_down) in
  step (app m') = COMPLETED /\
  error (app m') = None /\
  generatedChapters (app m') =
    [{| cc_title := "Chapter one"; cc_content := Some Direct.chapter_failed |};
     {| cc_title := "Chapter two"; cc_content := Some Direct.chapter_failed |};
     {| cc_title := "Chapter three"; cc_content := Some Direct.chapter_failed |}].
Proof. vm_compute. repeat split. Qed.

(** The proxy fails on the second chapter: the run stops in the error step
    and keeps the first chapter. *)
Lemma chapter_failure_handling_witness :
  let gen := Proxy.generateChapterContent in
  let m := Sample.reviewing Sample.proxy_fails_second in
  let m' := handleStartGeneration gen false m in
  (exists new w1,
     produced gen Sample.book_options Sample.book_outline 0 (world m) new w1 /\
     generatedChapters (app m') = [] ++ new /\
     run_ended gen Sample.book_options Sample.book_outline [] m m' new w1) /\
  step (app m') = ERROR /\
  error (app m') = Some generation_error /\
  generatedChapters (app m') =
    [{| cc_title := "Chapter one"; cc_content := Some "# One" |}] /\
  generatedBook (app m') = None.
Proof.
  intros gen m m'.
  destruct chapter_failure_handling as (_ & _ & _ & _ & H & _).
  split.
  - exact (H _ gen false m Sample.book_outline Sample.book_options eq_refl eq_refl).
  - vm_compute. repeat split.
Defined.

(** Resuming after the first chapter, with a proxy that answers. *)
Lemma resume_generates_rest_witness :
  let gen := Proxy.generateChapterContent in
  let m := Sample.interrupted Sample.proxy_up in
  let m' := handleStartGeneration gen true m in
  exists new w1,
    produced gen Sample.book_options Sample.book_outline 1 (world m) new w1 /\
    generatedChapters (app m') = generatedChapters (app m) ++ new /\
    map cc_title new =
      take (length new) (drop 1 (map co_title (chapters Sample.book_outline))) /\
    ((step (app m') = COMPLETED /\
      length new = (3 - 1)%nat /\
      world m' = w1 /\
      generatedBook (app m') =
        Some {| book := Sample.book_outline;
                fullChapters := generatedChapters (app m) ++ new |}) \/
     ((step (app m') = ERROR \/ step (app m') = GENERATING) /\
      (1 + length new < 3)%nat /\
      call_failed gen Sample.book_options Sample.book_outline (1 + length new) w1
        (world m') /\
      generatedBook (app m') = generatedBook (app m))).
Proof.
  intros gen m m'.
  exact (proj1 (resume_generates_rest gen m Sample.book_outline Sample.book_options
                  eq_refl eq_refl)).
Defined.

(** The run of the witness above, as it went: the requests are those for the
    second and the third chapter, and the book holds the chapter kept and the
    two new ones. *)
Example resume_three_chapters :
  let m := Sample.interrupted Sample.proxy_up in
  let m' := handleStartGeneration Proxy.generateChapterContent true m in
  step (app m') = COMPLETED /\
  generatedChapters (app m') =
    [{| cc_title := "Chapter one"; cc_content := Some "# One" |};
     {| cc_title := "Chapter two"; cc_content := Some "# Two" |};
     {| cc_title := "Chapter three"; cc_content := Some "# Three" |}] /\
  requests (world m') =
    [chapter_request_of Sample.book_options Sample.book_outline 1 (Sample.chapter "two");
     chapter_request_of Sample.book_options Sample.book_outline 2
       (Sample.chapter "three")].
Proof. vm_compute. repeat split. Qed.

(** The invariant at the end of the run of the witness above. *)
Lemma chapter_sequence_invariant_witness :
  let gen := Proxy.generateChapterContent in
  let m := Sample.interrupted Sample.proxy_up in
  let m' := handleStartGeneration gen true m in
  exists new w1,
    produced gen Sample.book_options Sample.book_outline 1 (world m) new w1 /\
    generatedChapters (app m') = generatedChapters (app m) ++ new /\
    length (generatedChapters (app m')) = (1 + length new)%nat /\
    map cc_title (generatedChapters (app m')) =
      take (1 + length new) (map co_title (chapters Sample.book_outline)).
Proof.
  intros gen m m'.
  destruct (chapter_sequence_invariant gen Sample.book_options Sample.book_outline None)
    as (_ & _ & _ & _ & H).
  apply (H true m eq_refl eq_refl). reflexivity.
Defined.

(** An outline with an empty array of chapters sends the wizard back to the
    input step. *)
Lemma outline_accepted_only_nonempty_witness :
  let raw := Sample.raw_with (Some (JArray [])) in
  let m : Machine (option string) := Sample.blank Sample.all_down in
  exists m',
    handleWizardSubmit (Sample.outline_is (Some raw)) None Sample.book_options m
      = Shown m' /\
    step (app m') = INPUT /\
    error (app m') =
      Some (outline_error +:+ "Generated outline was empty or invalid.") /\
    outline (app m') = outline (app m) /\
    generatedChapters (app m') = generatedChapters (app m) /\
    asked m' = asked m /\
    world m' = submit_world None Sample.book_options m /\
    (outline (app m) = None ->
     forall resume, handleStartGeneration Proxy.generateChapterContent resume m' = m').
Proof.
  intros raw m.
  destruct (outline_accepted_only_nonempty (Sample.outline_is (Some raw))
              Proxy.generateChapterContent None Sample.book_options m 0 (Some raw)
              (submit_world None Sample.book_options m) eq_refl) as (_ & H & _).
  apply H. right. exists raw. split; [reflexivity|constructor].
Defined.

(** An outline whose [chapters] is an object without items ([{}]), the
    number 3 or the text "TBD" passes the check, although it holds no list of
    chapters: the wizard moves on to the review of the outline with it, and
    no error is shown. *)
Lemma outline_accepted_counterexample :
  let m : Machine (option string) := Sample.blank Sample.all_down in
  let accepted v :=
    exists m',
      handleWizardSubmit (Sample.outline_is (Some (Sample.raw_with (Some v)))) None
        Sample.book_options m = Unchecked (Sample.raw_with (Some v)) m' /\
      step (app m') = OUTLINE_REVIEW /\
      error (app m') = None /\
      as_chapters v = None in
  accepted (JObject []) /\ accepted (JNumber 3) /\ accepted (JString "TBD").
Proof. repeat split; eexists; vm_compute; repeat split. Qed.

(** ** Strings *)

Lemma string_forall_app P s1 s2 :
  string_forall P (s1 +:+ s2) = string_forall P s1 && string_forall P s2.
Proof.
  induction s1 as [|c s1 IH]; simpl; [reflexivity|].
  rewrite IH, andb_assoc. reflexivity.
Qed.

(** The decimal digits of a number satisfy whatever the ten digits do. *)
Lemma pretty_N_go_forall P x :
  (forall d, (d < 10)%N -> P (pretty_N_char d) = true) ->
  forall s, string_forall P s = true -> string_forall P (pretty_N_go x s) = true.
Proof.
  intros Hd. induction (N.lt_wf_0 x) as [x _ IH]. intros s Hs.
  destruct (decide (0 < x)%N) as [Hx|Hx].
  - rewrite pretty_N_go_step by exact Hx.
    apply IH; [apply N.div_lt; lia|].
    simpl. rewrite Hs, Hd; [reflexivity|]. apply N.mod_lt. lia.
  - assert (x = 0%N) as -> by lia. rewrite pretty_N_go_0. exact Hs.
Qed.

Lemma pretty_nat_forall P (n : nat) :
  (forall d, (d < 10)%N -> P (pretty_N_char d) = true) ->
  string_forall P (pretty n) = true.
Proof.
  intros Hd. unfold pretty, pretty_nat, pretty, pretty_N.
  destruct (decide (N.of_nat n = 0%N)).
  - change (P (pretty_N_char 0) && true = true). rewrite (Hd 0%N) by lia. reflexivity.
  - apply pretty_N_go_forall; [exact Hd|reflexivity].
Qed.

(** A pattern whose first character does not occur is not found. *)
Lemma prefix_absent c p s :
  string_forall (is_not c) s = true -> String.prefix (String c p) s = false.
Proof.
  destruct s as [|x s]; [reflexivity|]. simpl. unfold is_not.
  destruct (ascii_dec c x) as [<-|]; [|reflexivity].
  rewrite Ascii.eqb_refl. discriminate.
Qed.

Lemma replace_absent c p r s :
  string_forall (is_not c) s = true -> replace (String c p) r s = s.
Proof.
  induction s as [|x s IH]; intros H; [reflexivity|].
  cbn [replace]. rewrite (prefix_absent c p _ H).
  simpl in H. apply andb_true_iff in H as [_ H]. rewrite (IH H). reflexivity.
Qed.

(** ** The e-book package *)

Lemma chapter_file_href i :
  replace "OEBPS/" "" (Epub.chapter_file i) = Epub.chapter_file i.
Proof.
  apply replace_absent. unfold Epub.chapter_file.
  rewrite !string_forall_app, pretty_nat_forall; [reflexivity|].
  intros d Hd. unfold pretty_N_char. repeat case_match; reflexivity.
Qed.

#[local] Instance item_id_inj : Inj (=) (=) (fun i : nat => "item" +:+ pretty i).
Proof. intros i j H. simpl in H. simplify_eq. by apply (inj pretty). Qed.

Lemma content_items_ids {C} (b : GeneratedBook C) :
  Epub.item_id <$> Epub.content_items b =
    (fun i : nat => "item" +:+ pretty i) <$> seq 0 (length (Epub.chapterFiles b)).
Proof.
  unfold Epub.content_items. rewrite fmap_imap.
  apply (imap_seq_0 (Epub.chapterFiles b) (fun i : nat => "item" +:+ pretty i)).
Qed.

Lemma chapterFiles_seq {C} (b : GeneratedBook C) :
  Epub.chapterFiles b =
    ["Text/title.xhtml"; "Text/toc.xhtml"] ++
    (Epub.chapter_file <$> seq 0 (length (fullChapters b))).
Proof. unfold Epub.chapterFiles. rewrite imap_seq_0. reflexivity. Qed.

Lemma content_items_hrefs {C} (b : GeneratedBook C) :
  Epub.href <$> Epub.content_items b =
    ["Text/title.xhtml"; "Text/toc.xhtml"] ++
    (Epub.chapter_file <$> seq 0 (length (fullChapters b))).
Proof.
  unfold Epub.content_items. rewrite fmap_imap.
  change (imap (const (replace "OEBPS/" "")) (Epub.chapterFiles b) =
          ["Text/title.xhtml"; "Text/toc.xhtml"] ++
          (Epub.chapter_file <$> seq 0 (length (fullChapters b)))).
  rewrite imap_const, chapterFiles_seq, fmap_app. f_equal.
  rewrite <- list_fmap_compose. apply list_fmap_ext.
  intros i x _. apply chapter_file_href.
Qed.

(** The text of the entries of content pages, from their identifiers and
    their files. *)
Lemma render_content_items (l : list string) :
  forall g : nat -> nat,
    Epub.render_item <$> imap (fun i f => Epub.content_item (g i) f) l =
    zip_with
      (fun id f =>
         "<item id=" +:+ dq +:+ id +:+ dq +:+ " href=" +:+ dq +:+ f +:+ dq
         +:+ " media-type=" +:+ dq +:+ "application/xhtml+xml" +:+ dq +:+ "/>")
      (Epub.item_id <$> imap (fun i f => Epub.content_item (g i) f) l)
      (Epub.href <$> imap (fun i f => Epub.content_item (g i) f) l).
Proof.
  induction l as [|x l IH]; intros g; [reflexivity|].
  cbn [imap fmap list_fmap zip_with]. f_equal. apply (IH (g ∘ S)).
Qed.

(** C8: for a book with n chapters the files of the content pages are the
    title page, the table of contents and the n chapter pages, in that order,
    n + 2 in all, and their identifiers are item0 ... item(n+1), all
    different, and different from the identifiers ncx and style of the two
    other entries of the manifest. The text written into the manifest of
    [content.opf] is one line [<item id="item<i>" href="<file>"
    media-type="application/xhtml+xml"/>] for each of these files, in that
    order, and the text written into its spine is one line [<itemref
    idref="item<i>"/>] for each of them, in the same order. Read as lists,
    the manifest has exactly these n + 2 entries for content pages, without
    two entries sharing an identifier, and the spine lists their identifiers
    in the order of the manifest. *)
Theorem epub_manifest_spine {C} (b : GeneratedBook C) :
  let n := length (fullChapters b) in
  let files :=
    ["Text/title.xhtml"; "Text/toc.xhtml"] ++
    ((fun i : nat => "Text/chapter" +:+ pretty (i + 1)%nat +:+ ".xhtml") <$> seq 0 n) in
  let ids := (fun i : nat => "item" +:+ pretty i) <$> seq 0 (n + 2) in
  let item id f :=
    "<item id=" +:+ dq +:+ id +:+ dq +:+ " href=" +:+ dq +:+ f +:+ dq
    +:+ " media-type=" +:+ dq +:+ "application/xhtml+xml" +:+ dq +:+ "/>" in
  let itemref id := "<itemref idref=" +:+ dq +:+ id +:+ dq +:+ "/>" in
  (Epub.chapterFiles b = files /\
   length files = (n + 2)%nat /\
   length ids = (n + 2)%nat /\
   NoDup ("ncx" :: "style" :: ids)) /\
  (Epub.manifestItems b = join nl (zip_with item ids files) /\
   Epub.spineItems b = join nl (itemref <$> ids)) /\
  (Epub.content_pages b = Epub.content_items b /\
   length (Epub.content_pages b) = (n + 2)%nat /\
   (Epub.href <$> Epub.content_pages b) = files /\
   (Epub.item_id <$> Epub.content_pages b) = ids /\
   (Epub.item_id <$> Epub.manifest b) = "ncx" :: "style" :: ids /\
   NoDup (Epub.item_id <$> Epub.manifest b) /\
   Epub.spine b = Epub.item_id <$> Epub.content_pages b /\
   length (Epub.spine b) = (n + 2)%nat).
Proof.
  intros n files ids item itemref.
  assert (Hfiles : Epub.chapterFiles b = files) by apply chapterFiles_seq.
  assert (Hlen : length (Epub.chapterFiles b) = (n + 2)%nat).
  { rewrite chapterFiles_seq, length_app, length_fmap, length_seq. simpl. lia. }
  assert (Hids : Epub.item_id <$> Epub.content_items b = ids).
  { rewrite content_items_ids, Hlen. reflexivity. }
  assert (Hhrefs : Epub.href <$> Epub.content_items b = files)
    by apply content_items_hrefs.
  assert (Hpages : Epub.content_pages b = Epub.content_items b).
  { unfold Epub.content_pages, Epub.manifest. rewrite filter_app. simpl.
    unfold Epub.content_items. generalize (Epub.chapterFiles b) as l.
    assert (H : forall (l : list string) (g : nat -> nat),
      filter (fun it => Epub.media_type it = Epub.XHTML)
        (imap (fun i f => Epub.content_item (g i) f) l)
      = imap (fun i f => Epub.content_item (g i) f) l).
    { induction l as [|x l IH]; intros g; [reflexivity|]. simpl.
      rewrite filter_cons_True by reflexivity. f_equal. apply (IH (g ∘ S)). }
    intros l. apply (H l (fun i => i)). }
  assert (Hspine : Epub.spine b = ids).
  { unfold Epub.spine. rewrite <- Hids, content_items_ids.
    apply (imap_seq_0 (Epub.chapterFiles b) (fun i : nat => "item" +:+ pretty i)). }
  assert (Hnodup : NoDup ("ncx" :: "style" :: ids)).
  { change (NoDup (["ncx"; "style"] ++ ids)).
    apply NoDup_app. split; [|split].
    - apply NoDup_cons. split; [|apply NoDup_singleton].
      intros H%list_elem_of_singleton. discriminate.
    - intros x Hx (i & -> & _)%list_elem_of_fmap.
      apply elem_of_cons in Hx as [H|H%list_elem_of_singleton]; discriminate.
    - apply (NoDup_fmap_2 (fun i : nat => "item" +:+ pretty i)), NoDup_seq. }
  assert (Hmanifest : Epub.item_id <$> Epub.manifest b = "ncx" :: "style" :: ids).
  { unfold Epub.manifest. rewrite fmap_app, Hids. reflexivity. }
  split; [|split].
  - split; [exact Hfiles|]. split; [rewrite <- Hfiles; exact Hlen|].
    split; [unfold ids; rewrite length_fmap, length_seq; reflexivity|exact Hnodup].
  - split.
    + transitivity (join nl (zip_with item (Epub.item_id <$> Epub.content_items b)
                               (Epub.href <$> Epub.content_items b))).
      * unfold Epub.manifestItems. f_equal.
        exact (render_content_items (Epub.chapterFiles b) (fun i => i)).
      * rewrite Hids, Hhrefs. reflexivity.
    + unfold Epub.spineItems. rewrite Hspine. reflexivity.
  - rewrite Hpages, Hmanifest, Hspine, Hids, Hhrefs.
    repeat split; try assumption.
    + unfold Epub.content_items. rewrite length_imap. exact Hlen.
    + unfold ids. rewrite length_fmap, length_seq. reflexivity.
Qed.

(** The manifest and the spine of a book with three chapters: five entries,
    in the same order. *)
Example epub_three_chapters :
  let b := {| book := Sample.book_outline;
              fullChapters :=
                [{| cc_title := "Chapter one"; cc_content := "# One" |};
                 {| cc_title := "Chapter two"; cc_content := "# Two" |};
                 {| cc_title := "Chapter three"; cc_content := "# Three" |}] |} in
  let item id f :=
    "<item id=" +:+ dq +:+ id +:+ dq +:+ " href=" +:+ dq +:+ f +:+ dq
    +:+ " media-type=" +:+ dq +:+ "application/xhtml+xml" +:+ dq +:+ "/>" in
  let itemref id := "<itemref idref=" +:+ dq +:+ id +:+ dq +:+ "/>" in
  Epub.manifestItems b =
    item "item0" "Text/title.xhtml" +:+ nl +:+
    item "item1" "Text/toc.xhtml" +:+ nl +:+
    item "item2" "Text/chapter1.xhtml" +:+ nl +:+
    item "item3" "Text/chapter2.xhtml" +:+ nl +:+
    item "item4" "Text/chapter3.xhtml" /\
  Epub.spineItems b =
    itemref "item0" +:+ nl +:+ itemref "item1" +:+ nl +:+ itemref "item2" +:+ nl +:+
    itemref "item3" +:+ nl +:+ itemref "item4" /\
  Epub.href <$> Epub.content_pages b =
    ["Text/title.xhtml"; "Text/toc.xhtml"; "Text/chapter1.xhtml";
     "Text/chapter2.xhtml"; "Text/chapter3.xhtml"] /\
  Epub.item_id <$> Epub.content_pages b =
    ["item0"; "item1"; "item2"; "item3"; "item4"] /\
  Epub.spine b = ["item0"; "item1"; "item2"; "item3"; "item4"].
Proof. vm_compute. repeat split. Qed.

(** ** Strings, continued *)

Lemma str_app_cons c s t : String c s +:+ t = String c (s +:+ t).
Proof. reflexivity. Qed.

Lemma str_app_nil_l t : "" +:+ t = t.
Proof. reflexivity. Qed.

Lemma str_app_nil_r s : s +:+ "" = s.
Proof. induction s as [|c s IH]; [reflexivity|]. rewrite str_app_cons, IH. reflexivity. Qed.

Lemma str_app_assoc a b c : (a +:+ b) +:+ c = a +:+ (b +:+ c).
Proof.
  induction a as [|x a IH]; [reflexivity|]. rewrite !str_app_cons, IH. reflexivity.
Qed.

Lemma str_length_app a b :
  String.length (a +:+ b) = (String.length a + String.length b)%nat.
Proof.
  induction a as [|x a IH]; [reflexivity|]. rewrite str_app_cons. simpl.
  rewrite IH. reflexivity.
Qed.

Lemma string_drop_app a b : string_drop (String.length a) (a +:+ b) = b.
Proof.
  induction a as [|x a IH]; [destruct b; reflexivity|].
  rewrite str_app_cons. simpl. exact IH.
Qed.

Lemma substring_app t r : String.substring 0 (String.length t) (t +:+ r) = t.
Proof.
  induction t as [|x t IH]; [destruct r; reflexivity|].
  rewrite str_app_cons. simpl. rewrite IH. reflexivity.
Qed.

Lemma prefix_app a b : String.prefix a (a +:+ b) = true.
Proof.
  induction a as [|x a IH]; [destruct b; reflexivity|].
  rewrite str_app_cons. simpl. destruct (ascii_dec x x); [exact IH|contradiction].
Qed.

Lemma prefix_head a p b s : a <> b -> String.prefix (String a p) (String b s) = false.
Proof. intros H. simpl. destruct (ascii_dec a b); [contradiction|reflexivity]. Qed.

(** ** Lines *)




(** ** Emphasis *)

Lemma not_emphasis c :
  negb (Ascii.eqb c "*" || Ascii.eqb c "_") = true -> "*"%char <> c /\ "_"%char <> c.
Proof.
  intros H. apply negb_true_iff, orb_false_iff in H as [H1 H2].
  apply Ascii.eqb_neq in H1, H2. split; congruence.
Qed.

(** No alternative of the pattern matches at a character that is neither an
    asterisk nor an underscore. *)
Lemma emphasis_at_plain c s :
  negb (Ascii.eqb c "*" || Ascii.eqb c "_") = true ->
  Docx.emphasis_at (String c s) = None.
Proof.
  intros [H1 H2]%not_emphasis.
  unfold Docx.emphasis_at, Docx.delimited.
  rewrite !prefix_head by assumption. reflexivity.
Qed.

(** Plain text before the next match is collected into [cur]. *)
Lemma split_emphasis_plain pre :
  plain pre = true ->
  forall fuel cur s,
    Docx.split_emphasis_from (String.length pre + fuel) cur (pre +:+ s)
    = Docx.split_emphasis_from fuel (cur +:+ pre) s.
Proof.
  induction pre as [|c pre IH]; intros Hp fuel cur s.
  - rewrite str_app_nil_r. reflexivity.
  - unfold plain in Hp. simpl in Hp. apply andb_true_iff in Hp as [Hc Hp].
    rewrite str_app_cons. cbn [String.length Nat.add Docx.split_emphasis_from].
    rewrite (emphasis_at_plain _ _ Hc), (IH Hp), str_app_assoc. reflexivity.
Qed.

Lemma split_emphasis_end post :
  plain post = true ->
  forall fuel cur,
    Docx.split_emphasis_from (String.length post + S fuel) cur post = [cur +:+ post].
Proof.
  intros Hp fuel cur.
  rewrite <- (str_app_nil_r post) at 2.
  rewrite (split_emphasis_plain post Hp). reflexivity.
Qed.

Lemma lazy_until_unfold close s :
  Docx.lazy_until close s =
    if String.prefix close s
    then Some (EmptyString, string_drop (String.length close) s)
    else match s with
         | String c s' =>
             if line_terminator c then None
             else match Docx.lazy_until close s' with
                  | Some (x, rest) => Some (String c x, rest)
                  | None => None
                  end
         | EmptyString => None
         end.
Proof. destruct s; reflexivity. Qed.


(** ** The split always comes to an end *)

Lemma string_drop_length n s : (String.length (string_drop n s) <= String.length s)%nat.
Proof.
  revert s. induction n as [|n IH]; intros [|c s]; simpl; try lia.
  specialize (IH s). lia.
Qed.

Lemma lazy_until_shorter close s x rest :
  Docx.lazy_until close s = Some (x, rest) ->
  (String.length rest <= String.length s)%nat.
Proof.
  revert x rest. induction s as [|c s IH]; intros x rest; rewrite lazy_until_unfold.
  - destruct (String.prefix close ""); [|discriminate].
    intros H. injection H as _ <-. apply string_drop_length.
  - destruct (String.prefix close (String c s)).
    + intros H. injection H as _ <-. apply string_drop_length.
    + destruct (line_terminator c); [discriminate|].
      destruct (Docx.lazy_until close s) as [[x' rest']|]; [|discriminate].
      intros H. injection H as _ <-. specialize (IH x' rest' eq_refl). simpl. lia.
Qed.

(** A match of a delimited alternative consumes at least one character. *)
Lemma delimited_shorter c d s m rest :
  Docx.delimited (String c d) s = Some (m, rest) ->
  (String.length rest < String.length s)%nat.
Proof.
  unfold Docx.delimited. destruct s as [|x s]; [discriminate|].
  destruct (String.prefix (String c d) (String x s)); [|discriminate].
  destruct (Docx.lazy_until _ _) as [[y rest']|] eqn:Hl; [|discriminate].
  intros H. injection H as _ <-.
  apply lazy_until_shorter in Hl.
  pose proof (string_drop_length (String.length d) s) as Hd.
  simpl in *. lia.
Qed.

Lemma emphasis_at_shorter s m rest :
  Docx.emphasis_at s = Some (m, rest) ->
  (String.length rest < String.length s)%nat.
Proof.
  unfold Docx.emphasis_at.
  destruct (Docx.delimited "**" s) as [[m1 r1]|] eqn:H1.
  { intros H. injection H as <- <-. exact (delimited_shorter _ _ _ _ _ H1). }
  destruct (Docx.delimited "__" s) as [[m2 r2]|] eqn:H2.
  { intros H. injection H as <- <-. exact (delimited_shorter _ _ _ _ _ H2). }
  destruct (Docx.delimited "*" s) as [[m3 r3]|] eqn:H3.
  { intros H. injection H as <- <-. exact (delimited_shorter _ _ _ _ _ H3). }
  apply delimited_shorter.
Qed.

(** Any fuel above the length of the string gives the same parts: the fuel of
    [split_emphasis] is never used up. *)
Lemma split_emphasis_fuel fuel1 :
  forall fuel2 cur s,
    (String.length s < fuel1)%nat -> (String.length s < fuel2)%nat ->
    Docx.split_emphasis_from fuel1 cur s = Docx.split_emphasis_from fuel2 cur s.
Proof.
  induction fuel1 as [|fuel1 IH]; intros [|fuel2] cur s H1 H2; try lia.
  destruct s as [|c s]; [reflexivity|]. cbn [Docx.split_emphasis_from].
  destruct (Docx.emphasis_at (String c s)) as [[m rest]|] eqn:Hat.
  - apply emphasis_at_shorter in Hat. do 2 f_equal. apply IH; simpl in *; lia.
  - apply IH; simpl in *; lia.
Qed.

Lemma prefix_drop p s :
  String.prefix p s = true -> s = p +:+ string_drop (String.length p) s.
Proof.
  revert s. induction p as [|c p IH]; intros s H.
  - destruct s; reflexivity.
  - destruct s as [|x s]; [discriminate|]. simpl in H.
    destruct (ascii_dec c x) as [<-|]; [|discriminate].
    rewrite str_app_cons. simpl. f_equal. apply IH, H.
Qed.

Lemma lazy_until_parts close s x rest :
  Docx.lazy_until close s = Some (x, rest) -> s = x +:+ close +:+ rest.
Proof.
  revert x rest. induction s as [|c s IH]; intros x rest; rewrite lazy_until_unfold.
  - destruct (String.prefix close "") eqn:Hp; [|discriminate].
    intros H. injection H as <- <-. apply (prefix_drop _ _ Hp).
  - destruct (String.prefix close (String c s)) eqn:Hp.
    + intros H. injection H as <- <-. apply (prefix_drop _ _ Hp).
    + destruct (line_terminator c); [discriminate|].
      destruct (Docx.lazy_until close s) as [[x' rest']|]; [|discriminate].
      intros H. injection H as <- <-. rewrite str_app_cons. f_equal.
      apply IH. reflexivity.
Qed.

Lemma delimited_parts d s m rest :
  Docx.delimited d s = Some (m, rest) -> s = m +:+ rest.
Proof.
  unfold Docx.delimited. destruct (String.prefix d s) eqn:Hp; [|discriminate].
  destruct (Docx.lazy_until _ _) as [[x rest']|] eqn:Hl; [|discriminate].
  intros H. injection H as <- <-.
  rewrite (prefix_drop _ _ Hp) at 1. rewrite (lazy_until_parts _ _ _ _ Hl).
  rewrite !str_app_assoc. reflexivity.
Qed.

Lemma emphasis_at_parts s m rest :
  Docx.emphasis_at s = Some (m, rest) -> s = m +:+ rest.
Proof.
  unfold Docx.emphasis_at.
  destruct (Docx.delimited "**" s) as [[m1 r1]|] eqn:H1.
  { intros H. injection H as <- <-. exact (delimited_parts _ _ _ _ H1). }
  destruct (Docx.delimited "__" s) as [[m2 r2]|] eqn:H2.
  { intros H. injection H as <- <-. exact (delimited_parts _ _ _ _ H2). }
  destruct (Docx.delimited "*" s) as [[m3 r3]|] eqn:H3.
  { intros H. injection H as <- <-. exact (delimited_parts _ _ _ _ H3). }
  apply delimited_parts.
Qed.

(** The parts of the split, put together, are the text that was split:
    nothing is lost, so the fuel was not used up. *)
Lemma split_emphasis_from_parts fuel :
  forall cur s,
    (String.length s < fuel)%nat ->
    String.concat "" (Docx.split_emphasis_from fuel cur s) = cur +:+ s.
Proof.
  induction fuel as [|fuel IH]; intros cur s H; [lia|].
  destruct s as [|c s]; [simpl; rewrite str_app_nil_r; reflexivity|].
  cbn [Docx.split_emphasis_from].
  destruct (Docx.emphasis_at (String c s)) as [[m rest]|] eqn:Hat.
  - pose proof (emphasis_at_shorter _ _ _ Hat) as Hlen.
    rewrite (emphasis_at_parts _ _ _ Hat).
    specialize (IH "" rest ltac:(simpl in *; lia)).
    rewrite str_app_nil_l in IH.
    destruct (Docx.split_emphasis_from fuel "" rest) as [|p ps] eqn:Hsplit.
    + simpl in IH. subst rest. simpl. rewrite !str_app_nil_r. reflexivity.
    + cbn [String.concat]. cbn [String.concat] in IH.
      rewrite !str_app_nil_l in *. rewrite IH. reflexivity.
  - rewrite IH by (simpl in H; lia). rewrite str_app_assoc. reflexivity.
Qed.

Lemma split_emphasis_parts s : String.concat "" (Docx.split_emphasis s) = s.
Proof. apply (split_emphasis_from_parts (S (String.length s)) "" s). lia. Qed.




(** ** Runs *)

Lemma run_of_plain s : plain s = true -> Docx.run_of s = plain_run s.
Proof.
  destruct s as [|c s]; [reflexivity|].
  unfold plain. simpl. intros [[H1 H2]%not_emphasis _]%andb_true_iff.
  unfold Docx.run_of, startsWith. rewrite !prefix_head by assumption. reflexivity.
Qed.

Lemma endsWith_app a d : endsWith (a +:+ d) d = true.
Proof.
  unfold endsWith. rewrite str_length_app.
  replace (String.length a + String.length d - String.length d)%nat
    with (String.length a) by lia.
  rewrite string_drop_app, String.eqb_refl, andb_true_r.
  apply Nat.leb_le. lia.
Qed.


(** ** Lines of a chapter body *)

Lemma paragraph_of_blank l :
  trim l = "" -> Docx.paragraph_of_line l = Docx.empty_paragraph.
Proof. intros H. unfold Docx.paragraph_of_line. rewrite H. reflexivity. Qed.


Lemma replace_prefix p r s : replace p r (p +:+ s) = r +:+ s.
Proof.
  assert (H : forall x, replace p r x =
    if String.prefix p x then r +:+ string_drop (String.length p) x
    else match x with
         | String c x' => String c (replace p r x')
         | EmptyString => EmptyString
         end) by (intros []; reflexivity).
  rewrite H, prefix_app, string_drop_app. reflexivity.
Qed.









(** ** Requests of the direct service *)

Lemma contacts_ret {A} P (x : A) : contacts P (mret x : M A).
Proof. intros w. exists []. rewrite app_nil_r. split; [reflexivity|constructor]. Qed.

Lemma contacts_throw {A} P e : contacts P (@throw A e).
Proof. intros w. exists []. rewrite app_nil_r. split; [reflexivity|constructor]. Qed.

Lemma contacts_log P line : contacts P (log line).
Proof. intros w. exists []. rewrite app_nil_r. split; [reflexivity|constructor]. Qed.

Lemma contacts_sleep P ms : contacts P (sleep ms).
Proof. intros w. exists []. rewrite app_nil_r. split; [reflexivity|constructor]. Qed.

Lemma contacts_bind {A B} P (m : M A) (k : A -> M B) :
  contacts P m -> (forall x, contacts P (k x)) -> contacts P (m ≫= k).
Proof.
  intros Hm Hk w. destruct (Hm w) as (new & Hr & Hall).
  unfold mbind, M_bind, bind, after.
  destruct (m w) as [[|t x|t e] w1]; simpl in *; eauto.
  destruct (Hk x w1) as (new' & Hr' & Hall'). simpl.
  exists (new ++ new'). rewrite Hr', Hr, app_assoc.
  split; [reflexivity|apply Forall_app; auto].
Qed.

Lemma contacts_catch {A} P (m : M A) (h : Exn -> M A) :
  contacts P m -> (forall e, contacts P (h e)) -> contacts P (catch m h).
Proof.
  intros Hm Hh w. destruct (Hm w) as (new & Hr & Hall).
  unfold catch, after.
  destruct (m w) as [[|t x|t e] w1]; simpl in *; eauto.
  destruct (Hh e w1) as (new' & Hr' & Hall'). simpl.
  exists (new ++ new'). rewrite Hr', Hr, app_assoc.
  split; [reflexivity|apply Forall_app; auto].
Qed.

Lemma contacts_withTimeout {A} P (m : M A) ms :
  contacts P m -> contacts P (withTimeout m ms).
Proof. intros Hm w. rewrite withTimeout_world. apply Hm. Qed.

Lemma contacts_fetch (P : string -> Prop) u b abortAt :
  P u -> contacts P (fetch u b abortAt).
Proof.
  intros Hu w. exists [request u b]. rewrite fetch_requests.
  split; [reflexivity|]. repeat constructor. exact Hu.
Qed.

Lemma contacts_fetchWithRetry (P : string -> Prop) u b retries :
  P u -> contacts P (fetchWithRetry u b retries).
Proof.
  intros Hu w.
  destruct (fetchWithRetry_loop_effects u b retries (S retries) 0 Undefined w)
    as (n & _ & Hreq & _); [lia|lia|].
  exists (replicate n (request u b)). split; [exact Hreq|].
  apply Forall_replicate. exact Hu.
Qed.

Lemma contacts_instant {A} P (m : M A) : instant m -> contacts P m.
Proof.
  intros H w. destruct (H w) as [_ ->]. exists []. rewrite app_nil_r.
  split; [reflexivity|constructor].
Qed.

Lemma contacts_content P d : contacts P (content d).
Proof. apply contacts_instant, instant_content. Qed.

Lemma contacts_response_text P r : contacts P (response_text r).
Proof.
  intros w. exists []. rewrite app_nil_r. unfold response_text.
  destruct (arrival r); split; reflexivity || constructor.
Qed.

Lemma contacts_response_json P r : contacts P (response_json r).
Proof.
  intros w. exists []. rewrite app_nil_r. unfold response_json.
  destruct (arrival r); split; reflexivity || constructor.
Qed.

Lemma truthy_key k : negb (truthy (Some k)) = false -> k <> "".
Proof. simpl. rewrite negb_involutive. intros H ->. discriminate. Qed.

Section Contacts.
Variable KEYS : Keys.
Variable parseJSON : string -> option (option RawOutline).

Lemma contacts_cleanAndParseJSON P s :
  contacts P (Direct.cleanAndParseJSON parseJSON s).
Proof.
  apply contacts_instant, instant_cleanAndParseJSON.
Qed.

Lemma contacts_callOpenAI endpoint b :
  contacts (configured KEYS) (Direct.callOpenAI KEYS endpoint b).
Proof.
  unfold Direct.callOpenAI.
  destruct (negb (truthy (Some (OPENAI KEYS)))) eqn:Hk; [apply contacts_throw|].
  apply contacts_bind.
  - apply contacts_fetchWithRetry. right; right; left.
    split; [apply truthy_key, Hk|eauto].
  - intros r. destruct (negb (ok r)); [|apply contacts_response_json].
    apply contacts_bind; [apply contacts_response_text|].
    intros txt. apply contacts_throw.
Qed.

Lemma contacts_callDeepSeek p j :
  contacts (configured KEYS) (Direct.callDeepSeek KEYS p j).
Proof.
  unfold Direct.callDeepSeek.
  destruct (negb (truthy (Some (DEEPSEEK KEYS)))) eqn:Hk; [apply contacts_throw|].
  apply contacts_bind.
  - apply contacts_fetchWithRetry. right; right; right.
    split; [apply truthy_key, Hk|reflexivity].
  - intros r. destruct (negb (ok r)); [|apply contacts_response_json].
    apply contacts_bind; [apply contacts_response_text|].
    intros txt. apply contacts_throw.
Qed.

Lemma contacts_callGemini p j :
  contacts (configured KEYS) (Direct.callGemini KEYS p j).
Proof.
  unfold Direct.callGemini.
  destruct (negb (truthy (Some (GEMINI KEYS)))) eqn:Hk; [apply contacts_throw|].
  apply contacts_bind.
  - apply contacts_fetch. right; left. split; [apply truthy_key, Hk|auto].
  - intros r. apply contacts_ret.
Qed.

Lemma contacts_callOllama p j : contacts (configured KEYS) (Direct.callOllama p j).
Proof.
  unfold Direct.callOllama.
  apply contacts_bind; [|intros; apply contacts_response_json].
  apply contacts_catch.
  - apply contacts_bind; [apply contacts_fetch; left; reflexivity|].
    intros r. destruct (negb (ok r)); [apply contacts_throw|apply contacts_ret].
  - intros e. apply contacts_bind; [|intros; apply contacts_throw].
    destruct e as [m|m| |]; try apply contacts_ret.
    destruct (decide (m = "Failed to fetch")) as [->|Hne]; [apply contacts_log|].
    repeat (destruct m as [|[[] [] [] [] [] [] [] []] m]; try apply contacts_ret;
            try apply contacts_log).
Qed.

End Contacts.

(** X1: the direct service sends requests only to the local Ollama server and
    to the remote providers whose key is set: whatever the backends answer,
    the outline, chapter and cover operations only add requests, none of them
    to a provider without a key; with no key at all, Ollama is the only
    endpoint contacted. *)
Theorem providers_without_key_not_contacted (KEYS : Keys)
    (parseJSON : string -> option (option RawOutline)) :
  (forall o, contacts (configured KEYS) (Direct.generateBookOutline KEYS parseJSON o)) /\
  (forall o info ch i total,
     contacts (configured KEYS) (Direct.generateChapterContent KEYS o info ch i total)) /\
  (forall prompt size,
     contacts (configured KEYS) (Direct.generateCoverImage KEYS prompt size)) /\
  (GEMINI KEYS = "" ->
     ~ configured KEYS Direct.GEMINI_TEXT /\ ~ configured KEYS Direct.GEMINI_IMAGE) /\
  (OPENAI KEYS = "" ->
     forall endpoint, ~ configured KEYS (Direct.OPENAI_URL +:+ endpoint)) /\
  (DEEPSEEK KEYS = "" -> ~ configured KEYS Direct.DEEPSEEK_URL) /\
  (GEMINI KEYS = "" -> OPENAI KEYS = "" -> DEEPSEEK KEYS = "" ->
     forall u, configured KEYS u -> u = Direct.OLLAMA_URL).
Proof.
  split; [|split; [|split; [|split; [|split; [|split]]]]].
  - intros o. unfold Direct.generateBookOutline.
    assert (Hparse : forall d : Field,
      contacts (configured KEYS)
        (content d ≫= fun c => Direct.cleanAndParseJSON parseJSON c)).
    { intros d. apply contacts_bind; [apply contacts_content|].
      intros c. apply contacts_cleanAndParseJSON. }
    apply contacts_catch.
    { apply contacts_bind; [apply contacts_log|]. intros _.
      apply contacts_bind; [apply contacts_withTimeout, contacts_callGemini|].
      intros text. destruct (negb (truthy text));
        [apply contacts_throw|apply contacts_cleanAndParseJSON]. }
    intros e1. apply contacts_bind; [apply contacts_log|]. intros _.
    apply contacts_catch.
    { apply contacts_bind; [apply contacts_log|]. intros _.
      apply contacts_bind; [apply contacts_withTimeout, contacts_callOpenAI|].
      exact Hparse. }
    intros e2. apply contacts_bind; [apply contacts_log|]. intros _.
    apply contacts_catch.
    { apply contacts_bind; [apply contacts_log|]. intros _.
      apply contacts_bind; [apply contacts_withTimeout, contacts_callDeepSeek|].
      exact Hparse. }
    intros e3. apply contacts_bind; [apply contacts_log|]. intros _.
    apply contacts_catch.
    { apply contacts_bind; [apply contacts_log|]. intros _.
      apply contacts_bind; [apply contacts_withTimeout, contacts_callOllama|].
      exact Hparse. }
    intros e4. apply contacts_bind; [apply contacts_log|]. intros _.
    apply contacts_throw.
  - intros o info ch i total. unfold Direct.generateChapterContent.
    assert (Htry : forall (block : M (option (option string))) line
                     (next : M (option string)),
      contacts (configured KEYS) block -> contacts (configured KEYS) next ->
      contacts (configured KEYS) (Direct.tryBlock block line next)).
    { intros block line next Hb Hn. unfold Direct.tryBlock.
      apply contacts_bind.
      - apply contacts_catch; [exact Hb|]. intros e.
        apply contacts_bind; [apply contacts_log|]. intros _. apply contacts_ret.
      - intros [v|]; [apply contacts_ret|exact Hn]. }
    assert (Hread : forall d : Field,
      contacts (configured KEYS)
        (content d ≫= fun c => (mret (Some c) : M (option (option string))))).
    { intros d. apply contacts_bind; [apply contacts_content|].
      intros c. apply contacts_ret. }
    apply Htry.
    { unfold Direct.chapterGemini.
      apply contacts_bind; [apply contacts_withTimeout, contacts_callGemini|].
      intros text. destruct (truthy text); apply contacts_ret. }
    apply Htry.
    { apply contacts_bind; [apply contacts_withTimeout, contacts_callOpenAI|exact Hread]. }
    apply Htry.
    { apply contacts_bind; [apply contacts_withTimeout, contacts_callDeepSeek|exact Hread]. }
    apply Htry.
    { apply contacts_bind; [apply contacts_withTimeout, contacts_callOllama|exact Hread]. }
    apply contacts_ret.
  - intros prompt size. unfold Direct.generateCoverImage.
    apply contacts_catch.
    { destruct (negb (truthy (Some (GEMINI KEYS)))) eqn:Hk; [apply contacts_throw|].
      apply contacts_bind.
      - apply contacts_fetch. right; left. split; [apply truthy_key, Hk|auto].
      - intros r. destruct (parsed r) as [e|[| |d]];
          apply contacts_ret || apply contacts_throw. }
    intros e. apply contacts_bind; [apply contacts_log|]. intros _.
    apply contacts_catch.
    { apply contacts_bind; [apply contacts_callOpenAI|]. intros d.
      apply contacts_bind; [apply contacts_content|]. intros c. apply contacts_ret. }
    intros e'. apply contacts_bind; [apply contacts_log|]. intros _.
    apply contacts_throw.
  - intros Hk. split; intros [H|[[Hg _]|[[_ [endpoint H]]|[_ H]]]];
      try discriminate; contradiction.
  - intros Hk endpoint [H|[[_ [H|H]]|[[Ho _]|[_ H]]]];
      try discriminate; contradiction.
  - intros Hk [H|[[_ [H|H]]|[[_ [endpoint H]]|[Hd _]]]];
      try discriminate; contradiction.
  - intros Hg Ho Hd u [H|[[Hg' _]|[[Ho' _]|[Hd' _]]]]; [exact H| | |]; contradiction.
Qed.

(** With no key set and only Ollama answering, the outline is Ollama's and
    the one request made went to Ollama. *)
Lemma providers_without_key_not_contacted_witness :
  let run := Direct.generateBookOutline Scenario.no_keys Sample.parseJSON
               Sample.book_options Scenario.ollama_only in
  run.1 = Fulfilled 2500 (Some Sample.raw) /\
  (exists new,
     requests run.2 = requests Scenario.ollama_only ++ new /\
     Forall (fun r => url r = Direct.OLLAMA_URL) new).
Proof.
  intros run. split; [vm_compute; reflexivity|].
  destruct (providers_without_key_not_contacted Scenario.no_keys Sample.parseJSON)
    as (Hol & _ & _ & _ & _ & _ & Honly).
  destruct (Hol Sample.book_options Scenario.ollama_only) as (new & Hreq & Hall).
  exists new. split; [exact Hreq|].
  eapply Forall_impl; [exact Hall|]. intros r Hr.
  apply Honly; [reflexivity|reflexivity|reflexivity|exact Hr].
Defined.

(** ** Time bounds of the direct service *)

(** X2: whatever the backends do, the direct outline operation settles
    within 330 s (120 + 45 + 45 + 120) and the direct chapter operation
    within 420 s (120 + 60 + 60 + 180): neither stays pending for ever. *)
Theorem direct_operations_settle (KEYS : Keys)
    (parseJSON : string -> option (option RawOutline))
    (o : BookOptions) (info : BookInfo) (ch : ChapterOutline) (i total : nat)
    (w : World) :
  within 330000 (Direct.generateBookOutline KEYS parseJSON o w).1 /\
  within 420000 (Direct.generateChapterContent KEYS o info ch i total w).1.
Proof.
  split; [apply generateBookOutline_within|apply generateChapterContent_fulfilled].
Qed.

(** The two bounds are reached when every provider accepts the request and
    never answers. *)
Example direct_operations_slowest :
  settles_at (Direct.generateBookOutline Sample.keys Sample.parseJSON
                Sample.book_options Scenario.all_silent).1 = Some 330000 /\
  settles_at (Direct.generateChapterContent Sample.keys Sample.book_options
                Sample.info (Sample.chapter "one") 0 3 Scenario.all_silent).1
    = Some 420000.
Proof. vm_compute. split; reflexivity. Qed.

(** ** Failure of every outline provider *)

(** X3: when the four outline providers fail in turn, the outline operation
    fails once the last one has, with one error that names every provider
    with its reason, in the order tried, and it has written one warning per
    provider. *)
Theorem outline_failure_reports_every_provider (KEYS : Keys)
    (parseJSON : string -> option (option RawOutline)) (o : BookOptions)
    (w w1 w2 w3 w4 : World) (t1 t2 t3 t4 : N) (e1 e2 e3 e4 : Exn) :
  Direct.outlineGemini KEYS parseJSON o w = (Rejected t1 e1, w1) ->
  Direct.outlineOpenAI KEYS parseJSON o (logged w1 ("Gemini Failed: " +:+ message e1))
    = (Rejected t2 e2, w2) ->
  Direct.outlineDeepSeek KEYS parseJSON o (logged w2 ("OpenAI Failed: " +:+ message e2))
    = (Rejected t3 e3, w3) ->
  Direct.outlineOllama parseJSON o (logged w3 ("DeepSeek Failed: " +:+ message e3))
    = (Rejected t4 e4, w4) ->
  Direct.generateBookOutline KEYS parseJSON o w =
    (Rejected (t1 + t2 + t3 + t4)
       (Error ("All AI providers failed. Gemini: " +:+ message e1
               +:+ ", OpenAI: " +:+ message e2
               +:+ ", DeepSeek: " +:+ message e3
               +:+ ", Ollama: " +:+ message e4)),
     logged w4 ("Ollama Failed: " +:+ message e4)).
Proof.
  intros H1 H2 H3 H4. unfold Direct.generateBookOutline.
  rewrite (catch_rejected _ _ _ _ _ _ H1), bind_log.
  rewrite (catch_rejected _ _ _ _ _ _ H2), bind_log.
  rewrite (catch_rejected _ _ _ _ _ _ H3), bind_log.
  rewrite (catch_rejected _ _ _ _ _ _ H4), bind_log.
  rewrite !after_after. unfold after, throw. simpl. f_equal. f_equal. lia.
Qed.

(** Every connection refused: Gemini and Ollama fail at once, OpenAI and
    DeepSeek after their three attempts and 3 s of backoff each. *)
Lemma outline_failure_reports_every_provider_witness :
  (Direct.generateBookOutline Sample.keys Sample.parseJSON Sample.book_options
     Sample.all_down).1 =
    Rejected (0 + 3000 + 3000 + 0)
      (Error ("All AI providers failed. Gemini: " +:+ "Failed to fetch"
              +:+ ", OpenAI: " +:+ "Failed to fetch"
              +:+ ", DeepSeek: " +:+ "Failed to fetch"
              +:+ ", Ollama: " +:+ "Failed to fetch")).
Proof.
  erewrite (outline_failure_reports_every_provider Sample.keys Sample.parseJSON
              Sample.book_options Sample.all_down _ _ _ _ 0 3000 3000 0
              (TypeError "Failed to fetch") (TypeError "Failed to fetch")
              (TypeError "Failed to fetch") (TypeError "Failed to fetch"));
    [reflexivity|vm_compute; reflexivity..].
Defined.

(** ** Retries used up *)

(** One attempt that fails, with a failure of the request or a status to be
    retried: the loop waits if it is to try again, and goes on with the error
    of this attempt as the last error. *)
Lemma fetchWithRetry_loop_failed u b retries rem i e w t a e' rest :
  script w !! u = Some ({| latency := Some t; answer := a |} :: rest) ->
  attempt_error a = Some e' ->
  fetchWithRetry_loop u b (S rem) i retries e w =
    after t
      (((if (i <? retries)%nat then sleep (backoff i) else mret tt) ≫= fun _ =>
        fetchWithRetry_loop u b rem (S i) retries e') (popped u b w rest)).
Proof.
  intros Hs Ha. cbn [fetchWithRetry_loop]. unfold catch at 1.
  unfold mbind at 1, M_bind at 1, bind at 1.
  rewrite (fetch_scripted u b w t a rest Hs).
  destruct a as [e0|r]; simpl in Ha.
  - injection Ha as <-. reflexivity.
  - destruct (retryable (status r)); [|discriminate]. injection Ha as <-.
    unfold throw, after at 1. cbn [fst snd delay]. rewrite N.add_0_r. reflexivity.
Qed.

(** Three failed attempts use up the default of two retries. *)
Lemma fetchWithRetry_exhausted u b w t1 t2 t3 a1 a2 a3 e1 e2 e3 rest :
  script w !! u =
    Some ({| latency := Some t1; answer := a1 |}
          :: {| latency := Some t2; answer := a2 |}
          :: {| latency := Some t3; answer := a3 |} :: rest) ->
  attempt_error a1 = Some e1 -> attempt_error a2 = Some e2 ->
  attempt_error a3 = Some e3 ->
  fetchWithRetry u b default_retries w =
    (Rejected (t1 + 1000 + t2 + 2000 + t3) e3,
     popped u b
       (slept (popped u b
                 (slept (popped u b w
                           ({| latency := Some t2; answer := a2 |}
                            :: {| latency := Some t3; answer := a3 |} :: rest))
                    1000)
                 ({| latency := Some t3; answer := a3 |} :: rest))
          2000)
       rest).
Proof.
  intros Hs H1 H2 H3. unfold fetchWithRetry, default_retries.
  rewrite (fetchWithRetry_loop_failed u b 2 2 0 Undefined w t1 a1 e1 _ Hs H1).
  cbn [Nat.ltb Nat.leb]. unfold mbind at 1, M_bind at 1, bind at 1, sleep at 1.
  erewrite fetchWithRetry_loop_failed; [|simpl; apply lookup_insert_eq|exact H2].
  cbn [Nat.ltb Nat.leb]. unfold mbind at 1, M_bind at 1, bind at 1, sleep at 1.
  erewrite fetchWithRetry_loop_failed; [|simpl; apply lookup_insert_eq|exact H3].
  cbn [Nat.ltb Nat.leb]. unfold mbind at 1, M_bind at 1, bind at 1.
  unfold mret, M_ret, ret, after, backoff, throw. simpl. f_equal. f_equal. lia.
Qed.

(** X4: with the default of two retries, three attempts that fail in a row
    (the request fails, or the status is 429 or at least 500) make
    [fetchWithRetry] give up: it fails with the error of the third attempt,
    after three requests and waits of 1 s and 2 s, with no wait after the
    last attempt. *)
Theorem retries_exhausted (u : string) (b : Body) (w : World) (t1 t2 t3 : N)
    (a1 a2 a3 : Answer) (e1 e2 e3 : Exn) (rest : list Reply) :
  script w !! u =
    Some ({| latency := Some t1; answer := a1 |}
          :: {| latency := Some t2; answer := a2 |}
          :: {| latency := Some t3; answer := a3 |} :: rest) ->
  attempt_error a1 = Some e1 -> attempt_error a2 = Some e2 ->
  attempt_error a3 = Some e3 ->
  let run := fetchWithRetry u b default_retries w in
  run.1 = Rejected (t1 + 1000 + t2 + 2000 + t3) e3 /\
  requests run.2 = requests w ++ replicate 3 (request u b) /\
  sleeps run.2 = sleeps w ++ [1000; 2000] /\
  script run.2 !! u = Some rest.
Proof.
  intros Hs H1 H2 H3 run. unfold run.
  rewrite (fetchWithRetry_exhausted u b w t1 t2 t3 a1 a2 a3 e1 e2 e3 rest Hs H1 H2 H3).
  simpl. rewrite <- !app_assoc. repeat split. apply lookup_insert_eq.
Qed.

(** OpenAI answers 503, 500 and 429: the call gives up with the last
    status. *)
Lemma retries_exhausted_witness :
  let run := fetchWithRetry Sample.OPENAI_CHAT (TextBody "gpt-4o" Sample.prompt false)
               default_retries Scenario.overloaded in
  run.1 = Rejected (5 + 1000 + 7 + 2000 + 11) (Error "Server status: 429") /\
  requests run.2 =
    requests Scenario.overloaded ++
      replicate 3 (request Sample.OPENAI_CHAT (TextBody "gpt-4o" Sample.prompt false)) /\
  sleeps run.2 = sleeps Scenario.overloaded ++ [1000; 2000] /\
  script run.2 !! Sample.OPENAI_CHAT = Some [].
Proof.
  apply (retries_exhausted Sample.OPENAI_CHAT (TextBody "gpt-4o" Sample.prompt false)
           Scenario.overloaded 5 7 11
           (Responds (Sample.replies 503 "busy"))
           (Responds (Sample.replies 500 "down"))
           (Responds (Sample.replies 429 "slow down"))
           (Error "Server status: 503") (Error "Server status: 500")
           (Error "Server status: 429") []);
    reflexivity.
Defined.

(** ** Errors of the OpenAI call *)

Lemma key_set k : k <> "" -> negb (truthy (Some k)) = false.
Proof.
  intros H. simpl. rewrite negb_involutive. apply String.eqb_neq. exact H.
Qed.

(** X5: the OpenAI call of the direct service makes no request without a
    key; it reports a status that is neither 2xx nor to be retried at once,
    after a single request, as soon as the body of the reply has arrived,
    with the status and the body in the message (and it stays pending when
    the body never arrives); and when three attempts in a row meet a status
    to be retried, the error is the one of the retry loop, which names the
    last status only. *)
Theorem callOpenAI_errors (KEYS : Keys) (endpoint : string) (b : Body) (w : World) :
  let u := Direct.OPENAI_URL +:+ endpoint in
  (OPENAI KEYS = "" ->
   Direct.callOpenAI KEYS endpoint b w = (Rejected 0 (Error "OpenAI Key Missing"), w)) /\
  (forall t r rest,
     OPENAI KEYS <> "" ->
     script w !! u = Some (http t r :: rest) ->
     retryable (status r) = false -> ok r = false ->
     Direct.callOpenAI KEYS endpoint b w =
       (match arrival r with
        | Some a =>
            Rejected (t + a)
              (Error ("OpenAI Error: " +:+ pretty (status r) +:+ " - " +:+ text r))
        | None => Never
        end,
        popped u b w rest)) /\
  (forall t1 t2 t3 r1 r2 r3 rest,
     OPENAI KEYS <> "" ->
     script w !! u = Some (http t1 r1 :: http t2 r2 :: http t3 r3 :: rest) ->
     retryable (status r1) = true -> retryable (status r2) = true ->
     retryable (status r3) = true ->
     let run := Direct.callOpenAI KEYS endpoint b w in
     run.1 = Rejected (t1 + 1000 + t2 + 2000 + t3)
               (Error ("Server status: " +:+ pretty (status r3))) /\
     requests run.2 = requests w ++ replicate 3 (request u b) /\
     sleeps run.2 = sleeps w ++ [1000; 2000]).
Proof.
  intros u. unfold Direct.callOpenAI. split; [|split].
  - intros ->. reflexivity.
  - intros t r rest Hk Hs Hr Hok.
    rewrite (key_set _ Hk).
    erewrite bind_fulfilled;
      [|unfold fetchWithRetry, default_retries;
        apply (fetchWithRetry_loop_return _ _ 2 2 0 Undefined w t r rest Hs Hr)].
    rewrite Hok. unfold after, throw, mbind, M_bind, bind, response_text.
    destruct (arrival r) as [a|]; simpl; [|reflexivity].
    rewrite !N.add_0_r. reflexivity.
  - intros t1 t2 t3 r1 r2 r3 rest Hk Hs H1 H2 H3.
    rewrite (key_set _ Hk).
    erewrite bind_rejected;
      [|eapply fetchWithRetry_exhausted;
        [exact Hs|simpl; rewrite ?H1, ?H2, ?H3; reflexivity..]].
    simpl. rewrite <- !app_assoc. repeat split.
Qed.

(** A refused key is reported at once; an overloaded service after the
    three attempts. *)
Lemma callOpenAI_errors_witness :
  let b := TextBody "gpt-4o" Sample.prompt false in
  Direct.callOpenAI Scenario.no_keys "/chat/completions" b Scenario.unauthorized =
    (Rejected 0 (Error "OpenAI Key Missing"), Scenario.unauthorized) /\
  (Direct.callOpenAI Sample.keys "/chat/completions" b Scenario.unauthorized).1 =
    Rejected 20 (Error ("OpenAI Error: " +:+ pretty 401 +:+ " - " +:+ "bad key")) /\
  (Direct.callOpenAI Sample.keys "/chat/completions" b Scenario.overloaded).1 =
    Rejected (5 + 1000 + 7 + 2000 + 11) (Error ("Server status: " +:+ pretty 429)).
Proof.
  intros b. split; [|split].
  - apply (proj1 (callOpenAI_errors Scenario.no_keys "/chat/completions" b
                    Scenario.unauthorized)). reflexivity.
  - destruct (callOpenAI_errors Sample.keys "/chat/completions" b
                Scenario.unauthorized) as (_ & H & _).
    erewrite (H 20 (Sample.replies 401 "bad key") []);
      [reflexivity|discriminate|reflexivity|reflexivity|reflexivity].
  - destruct (callOpenAI_errors Sample.keys "/chat/completions" b
                Scenario.overloaded) as (_ & _ & H).
    apply (H 5 7 11 (Sample.replies 503 "busy") (Sample.replies 500 "down")
             (Sample.replies 429 "slow down") []);
      [discriminate|reflexivity..].
Defined.

(** ** Outcomes of the cover operation *)

(** X6: whatever the backends answer, a cover that the direct service
    returns is a PNG data URL, and the only error it fails with is the fixed
    message of the last fallback: the reasons of the providers are not passed
    on; the size asked for has no effect at all. *)
Theorem cover_image_outcomes (KEYS : Keys) (prompt : string) (size : Size) (w : World) :
  match (Direct.generateCoverImage KEYS prompt size w).1 with
  | Never => True
  | Fulfilled _ image => exists b64, image = png b64
  | Rejected _ e => e = Error cover_failed
  end /\
  (forall size', Direct.generateCoverImage KEYS prompt size' w =
                 Direct.generateCoverImage KEYS prompt size w).
Proof.
  split; [|reflexivity].
  unfold Direct.generateCoverImage, catch at 1.
  assert (Hfallback : forall w',
    match (catch
             (Direct.callOpenAI KEYS "/images/generations"
                (ImageBody "dall-e-3" prompt "1024x1024") ≫= fun d =>
              content d ≫= fun c => mret (png (in_template c)))
             (fun _ => log "DALL-E 3 Failed" ≫= fun _ => throw (Error cover_failed))
             w').1 with
    | Never => True
    | Fulfilled _ image => exists b64, image = png b64
    | Rejected _ e => e = Error cover_failed
    end).
  { intros w'. unfold catch, mbind, M_bind, bind, after.
    destruct (Direct.callOpenAI _ _ _ w') as [[|t d|t e] w1]; simpl; auto.
    destruct d as [| |c]; simpl; eauto. }
  match goal with
  | |- context [match ?g w with _ => _ end] => set (gemini := g)
  end.
  assert (Hg : match (gemini w).1 with
               | Fulfilled _ image => exists b64, image = png b64
               | _ => True
               end).
  { unfold gemini. destruct (negb (truthy (Some (GEMINI KEYS)))); [exact I|].
    unfold mbind, M_bind, bind.
    destruct (fetch _ _ _ w) as [[|t r|t e] w1]; cbn [fst snd]; auto.
    destruct (parsed r) as [e|[| |d]]; simpl; eauto. }
  destruct (gemini w) as [[|t x|t e] w1]; cbn [fst snd] in Hg |- *; auto.
  rewrite bind_log. unfold after. cbn [fst snd].
  specialize (Hfallback (logged w1 "Gemini Image Failed, falling back to OpenAI...")).
  destruct (catch _ _ _) as [[|t' x|t' e'] w2]; simpl in *; auto.
Qed.

(** ** Fenced answers *)

Lemma prefix_cons c p x s :
  String.prefix (String c p) (String x s) =
    if ascii_dec c x then String.prefix p s else false.
Proof. reflexivity. Qed.

(** A fence that starts in [x] followed by a line feed starts in [x]. *)
Lemma prefix_fence_line x s :
  String.prefix fence (x +:+ String newline s) = String.prefix fence x.
Proof.
  unfold fence.
  destruct x as [|c1 x]; [reflexivity|].
  rewrite str_app_cons, !prefix_cons. destruct (ascii_dec _ c1); [|reflexivity].
  destruct x as [|c2 x]; [reflexivity|].
  rewrite str_app_cons, !prefix_cons. destruct (ascii_dec _ c2); [|reflexivity].
  destruct x as [|c3 x]; [reflexivity|].
  rewrite str_app_cons, !prefix_cons. destruct (ascii_dec _ c3); [|reflexivity].
  destruct x; reflexivity.
Qed.

Lemma includes_cons c s p :
  includes (String c s) p = false ->
  String.prefix p (String c s) = false /\ includes s p = false.
Proof. cbn [includes]. apply orb_false_iff. Qed.

Lemma includes_prefix s p : includes s p = false -> String.prefix p s = false.
Proof. destruct s; cbn [includes]; intros H%orb_false_iff; apply H. Qed.

Lemma lazy_fence_unfold s :
  lazy_fence s =
    if String.prefix (nl +:+ fence) s then Some (EmptyString, string_drop 4 s)
    else if String.prefix fence s then Some (EmptyString, string_drop 3 s)
    else match s with
         | String c s' =>
             match lazy_fence s' with
             | Some (x, rest) => Some (String c x, rest)
             | None => None
             end
         | EmptyString => None
         end.
Proof. destruct s; reflexivity. Qed.

(** The lazy text stops at the fence that closes [body]. *)
Lemma lazy_fence_body body :
  includes body fence = false ->
  lazy_fence (body +:+ nl +:+ fence) = Some (body, EmptyString).
Proof.
  induction body as [|c body IH]; intros Hin; [reflexivity|].
  apply includes_cons in Hin as [Hp Hin].
  rewrite lazy_fence_unfold.
  assert (String.prefix (nl +:+ fence) (String c body +:+ nl +:+ fence) = false) as ->.
  { change (nl +:+ fence) with (String newline fence).
    rewrite str_app_cons, prefix_cons.
    destruct (ascii_dec newline c); [|reflexivity].
    change (nl +:+ fence) with (String newline fence).
    rewrite prefix_fence_line. apply includes_prefix, Hin. }
  assert (String.prefix fence (String c body +:+ nl +:+ fence) = false) as ->.
  { change (nl +:+ fence) with (String newline fence).
    rewrite prefix_fence_line. exact Hp. }
  rewrite str_app_cons, (IH Hin). reflexivity.
Qed.

Lemma head_omap_first {A B} (f : A -> option B) x l y :
  f x = Some y -> head (omap f (x :: l)) = Some y.
Proof. intros H. cbn. rewrite H. reflexivity. Qed.

Lemma includes_prefix_true p s : String.prefix p s = true -> includes s p = true.
Proof. destruct s; cbn [includes]; intros ->; reflexivity. Qed.

(** ** The replacement always comes to an end *)

Lemma lazy_fence_shorter s x rest :
  lazy_fence s = Some (x, rest) -> (String.length rest <= String.length s)%nat.
Proof.
  revert x rest. induction s as [|c s IH]; intros x rest; [discriminate|].
  rewrite lazy_fence_unfold.
  destruct (String.prefix _ _).
  { intros H. assert (rest = string_drop 4 (String c s)) as -> by congruence.
    apply string_drop_length. }
  destruct (String.prefix _ _).
  { intros H. assert (rest = string_drop 3 (String c s)) as -> by congruence.
    apply string_drop_length. }
  destruct (lazy_fence s) as [[x' rest']|]; [|discriminate].
    intros H. injection H as _ <-. specialize (IH x' rest' eq_refl). simpl. lia.
Qed.

Lemma optionally_length p s s1 :
  s1 ∈ optionally p s -> (String.length s1 <= String.length s)%nat.
Proof.
  unfold optionally. destruct (String.prefix p s).
  - intros [->|[->|H]%elem_of_cons]%elem_of_cons;
      [apply string_drop_length|lia|inversion H].
  - intros [->|H]%elem_of_cons; [lia|inversion H].
Qed.

(** A match consumes at least the opening fence. *)
Lemma fenced_at_shorter s x rest :
  fenced_at s = Some (x, rest) -> (String.length rest < String.length s)%nat.
Proof.
  unfold fenced_at. destruct (String.prefix fence s) eqn:Hp; [|discriminate].
  intros H%head_Some_elem_of%list_elem_of_omap.
  destruct H as (s2 & Hin & Hl).
  apply list_elem_of_bind in Hin as (s1 & H2 & H1).
  apply optionally_length in H1, H2. apply lazy_fence_shorter in Hl.
  apply prefix_drop in Hp.
  assert (String.length s = 3 + String.length (string_drop 3 s))%nat as Hlen.
  { rewrite Hp at 1. rewrite str_length_app. reflexivity. }
  lia.
Qed.

(** Any fuel above the length of the text gives the same result: the fuel of
    [strip_fences] is never used up. *)
Lemma strip_fences_fuel fuel1 :
  forall fuel2 s,
    (String.length s < fuel1)%nat -> (String.length s < fuel2)%nat ->
    strip_fences_from fuel1 s = strip_fences_from fuel2 s.
Proof.
  induction fuel1 as [|fuel1 IH]; intros [|fuel2] s H1 H2; try lia.
  cbn [strip_fences_from].
  destruct (fenced_at s) as [[x rest]|] eqn:Hat.
  - apply fenced_at_shorter in Hat. f_equal. apply IH; lia.
  - destruct s as [|c s]; [reflexivity|]. f_equal. apply IH; simpl in *; lia.
Qed.

(** X7: an answer that is one fenced block, opened by a fence with or without
    the word json and a line feed and closed by a line feed and a fence, is
    cleaned to the text between the two, provided that text holds no fence;
    an answer with no fence at all is only trimmed. So the fenced answer is
    parsed as its body. *)
Theorem fenced_answer_unwrapped (text lang body : string) :
  lang = "json" \/ lang = "" ->
  trim text = fence +:+ lang +:+ nl +:+ body +:+ nl +:+ fence ->
  includes body fence = false ->
  clean text = body /\
  (forall A (JSON_parse : string -> A),
     parse_cleaned JSON_parse text = JSON_parse body) /\
  (forall other, includes (trim other) fence = false -> clean other = trim other).
Proof.
  intros Hlang Htrim Hbody.
  assert (Hclean : clean text = body).
  { unfold clean. rewrite Htrim.
    rewrite includes_prefix_true by apply prefix_app.
    unfold strip_fences. cbn [strip_fences_from].
    assert (fenced_at (fence +:+ lang +:+ nl +:+ body +:+ nl +:+ fence)
            = Some (body, EmptyString)) as ->.
    { unfold fenced_at. rewrite prefix_app.
      rewrite (string_drop_app fence).
      destruct Hlang as [-> | ->].
      - unfold optionally at 2. rewrite prefix_app, (string_drop_app "json").
        cbn [mbind list_bind app]. unfold optionally at 1.
        rewrite prefix_app, (string_drop_app nl).
        apply (head_omap_first lazy_fence _ _ _ (lazy_fence_body body Hbody)).
      - rewrite str_app_nil_l. unfold optionally at 2.
        assert (String.prefix "json" (nl +:+ body +:+ nl +:+ fence) = false) as ->
          by reflexivity.
        cbn [mbind list_bind app]. unfold optionally.
        rewrite prefix_app, (string_drop_app nl).
        apply (head_omap_first lazy_fence _ _ _ (lazy_fence_body body Hbody)). }
    destruct (String.length _); apply str_app_nil_r. }
  split; [exact Hclean|]. split.
  - intros A JSON_parse. unfold parse_cleaned. rewrite Hclean. reflexivity.
  - intros other H. unfold clean. rewrite H. reflexivity.
Qed.

(** An outline in a fenced block marked json, inside some white space. *)
Lemma fenced_answer_unwrapped_witness :
  let body := "{ " +:+ dq +:+ "title" +:+ dq +:+ ": " +:+ dq +:+ "Green" +:+ dq +:+ " }" in
  let text := nl +:+ " " +:+ fence +:+ "json" +:+ nl +:+ body +:+ nl +:+ fence +:+ nl in
  clean text = body /\
  (forall A (JSON_parse : string -> A),
     parse_cleaned JSON_parse text = JSON_parse body) /\
  (forall other, includes (trim other) fence = false -> clean other = trim other).
Proof.
  intros body text.
  apply (fenced_answer_unwrapped text "json" body);
    [left; reflexivity|vm_compute; reflexivity|vm_compute; reflexivity].
Defined.

(** ** The server functions *)

Lemma bind_inv {A B} (m : M A) (k : A -> M B) w t y w2 :
  (m ≫= k) w = (Fulfilled t y, w2) ->
  exists t1 x w1 t2,
    m w = (Fulfilled t1 x, w1) /\ k x w1 = (Fulfilled t2 y, w2) /\ t = t1 + t2.
Proof.
  unfold mbind, M_bind, bind, after.
  destruct (m w) as [[|t1 x|t1 e] w1]; try discriminate.
  destruct (k x w1) as [[|t2 y'|t2 e] w2'] eqn:Hk; try discriminate.
  simpl. intros H. injection H as <- <- <-. exists t1, x, w1, t2. auto.
Qed.

(** A block whose errors are all turned into an answer: it always answers,
    within the time the block takes. *)
Lemma catch_answers {A} (P : A -> Prop) (d : N) (m : M A) (h : Exn -> A) w :
  within d (m w).1 ->
  (forall t x w', m w = (Fulfilled t x, w') -> P x) ->
  (forall e, P (h e)) ->
  exists t r w',
    catch m (fun e => mret (h e)) w = (Fulfilled t r, w') /\ t <= d /\ P r.
Proof.
  intros Hw Hm Hh. unfold catch, after.
  destruct (m w) as [[|t x|t e] w1] eqn:Heq; simpl in Hw; [contradiction| |].
  - exists t, x, w1. split; [reflexivity|]. split; [exact Hw|]. eapply Hm. reflexivity.
  - exists (t + 0), (h e), w1. split; [reflexivity|]. split; [lia|apply Hh].
Qed.

Lemma answered_error result msg st :
  st ∈ [400; 405; 500; 502] -> answers_with result (Server.jsonError msg st).
Proof. intros H. right. split; [exact H|]. exists msg. reflexivity. Qed.

Lemma truthy_data d : negb (truthy d) = false -> exists s, d = Some s /\ s <> "".
Proof.
  destruct d as [s|]; [|discriminate]. simpl. rewrite negb_involutive.
  intros H%String.eqb_neq. eauto.
Qed.

Section ServerFacts.
Variables key base : option string.
Variable JSON_parse : string -> Exn + option RawOutline.

Lemma within_server_cleanAndParseJSON s w :
  within 0 (Server.cleanAndParseJSON JSON_parse s w).1.
Proof.
  unfold Server.cleanAndParseJSON. destruct (parse_cleaned JSON_parse s); simpl; lia.
Qed.

(** The block of the outline function answers within the deadline of its
    call, with one of its three answers. *)
Lemma outline_block (p : Server.OutlineReq) w :
  let block :=
    match Server.outline_options p with
    | None => mret (Server.jsonError "Missing book options." 400)
    | Some options =>
        d ← withTimeout
              (Server.callOpenAI key base "/chat/completions"
                 (TextBody "gpt-4o" (OutlinePrompt options) true))
              45000;
        if negb (truthy (content_if_any d))
        then mret (Server.jsonError "Empty AI response." 502)
        else
          outline ← Server.cleanAndParseJSON JSON_parse (default "" (content_if_any d));
          mret (Server.jsonResponse (Server.OutlineData outline) 200)
    end in
  within 45000 (block w).1 /\
  (forall t x w', block w = (Fulfilled t x, w') -> answers_with an_outline x).
Proof.
  intros block. unfold block. destruct (Server.outline_options p) as [options|].
  - split.
    + apply (within_bind_le 45000 0); [apply within_withTimeout| |lia].
      intros d w1. destruct (negb (truthy (content_if_any d))); [apply within_ret|].
      apply (within_bind_le 0 0); [apply within_server_cleanAndParseJSON| |lia].
      intros; apply within_ret.
    + intros t x w' H. apply bind_inv in H as (t1 & d & w1 & t2 & _ & H & _).
      destruct (negb (truthy (content_if_any d))).
      * inversion H; subst. apply answered_error. set_solver.
      * apply bind_inv in H as (? & ol & ? & ? & _ & H & _).
        inversion H; subst. left. split; [reflexivity|]. eexists. reflexivity.
  - split; [simpl; lia|]. intros t x w' H. inversion H; subst.
    apply answered_error. set_solver.
Qed.

Lemma chapter_block (p : Server.ChapterReq) w :
  let block :=
    match Server.chapter_options p, Server.chapter_bookInfo p,
          Server.chapter_chapter p with
    | Some options, Some bookInfo, Some chapter =>
        d ← withTimeout
              (Server.callOpenAI key base "/chat/completions"
                 (TextBody "gpt-4o"
                    (ChapterPrompt options bookInfo chapter
                       (Server.chapter_chapterIndex p))
                    false))
              60000;
        if negb (truthy (content_if_any d))
        then mret (Server.jsonError "Empty AI response." 502)
        else mret (Server.jsonResponse
                     (Server.ContentData (default "" (content_if_any d))
                        (Server.chapter_chapterIndex p)
                        (Server.chapter_totalChapters p))
                     200)
    | _, _, _ => mret (Server.jsonError "Missing generation payload." 400)
    end in
  within 60000 (block w).1 /\
  (forall t x w', block w = (Fulfilled t x, w') -> answers_with a_chapter x).
Proof.
  intros block. unfold block.
  destruct (Server.chapter_options p) as [options|],
           (Server.chapter_bookInfo p) as [bookInfo|],
           (Server.chapter_chapter p) as [ch|];
    try (split; [simpl; lia|]; intros t x w' H; inversion H; subst;
         apply answered_error; set_solver).
  split.
  - apply (within_bind_le 60000 0); [apply within_withTimeout| |lia].
    intros d w1. destruct (negb (truthy (content_if_any d))); apply within_ret.
  - intros t x w' H. apply bind_inv in H as (t1 & d & w1 & t2 & _ & H & _).
    destruct (negb (truthy (content_if_any d))) eqn:Hd; inversion H; subst.
    + apply answered_error. set_solver.
    + apply truthy_data in Hd as (c & -> & Hc).
      left. split; [reflexivity|]. do 3 eexists. split; [exact Hc|reflexivity].
Qed.

Lemma cover_block (p : Server.CoverReq) w :
  let block :=
    if negb (truthy (Server.cover_prompt p))
    then mret (Server.jsonError "Missing image prompt." 400)
    else
      d ← Server.callOpenAI key base "/images/generations"
            (ImageBody "gpt-image-1" (default "" (Server.cover_prompt p))
               (Server.or_else (Server.sizeMap <$> Server.cover_size p) "1024x1024"));
      if negb (truthy (content_if_any d))
      then mret (Server.jsonError "Image generation failed." 502)
      else mret (Server.jsonResponse (Server.ImageData (png (default "" (content_if_any d)))) 200)
    in
  forall t x w', block w = (Fulfilled t x, w') -> answers_with a_cover x.
Proof.
  intros block. unfold block.
  destruct (negb (truthy (Server.cover_prompt p))).
  - intros t x w' H. inversion H; subst. apply answered_error. set_solver.
  - intros t x w' H. apply bind_inv in H as (t1 & d & w1 & t2 & _ & H & _).
    destruct (negb (truthy (content_if_any d))) eqn:Hd; inversion H; subst.
    + apply answered_error. set_solver.
    + apply truthy_data in Hd as (c & -> & Hc).
      left. split; [reflexivity|]. eexists. split; [exact Hc|reflexivity].
Qed.

(** What each function does with a request. *)
Lemma outline_answers req w :
  exists t r w',
    Server.outline key base JSON_parse req w = (Fulfilled t r, w') /\
    t <= 45000 /\ answers_with an_outline r.
Proof.
  unfold Server.outline.
  destruct (negb (Server.method req =? "POST")%string).
  { exists 0, (Server.jsonError "Method not allowed" 405), w.
    split; [reflexivity|]. split; [lia|]. apply answered_error. set_solver. }
  apply catch_answers.
  - destruct (Server.json req) as [e|p]; [simpl; lia|]. apply (outline_block p w).
  - destruct (Server.json req) as [e|p]; [discriminate|]. apply (outline_block p w).
  - intros e. apply answered_error. set_solver.
Qed.

Lemma chapter_answers req w :
  exists t r w',
    Server.chapter key base req w = (Fulfilled t r, w') /\
    t <= 60000 /\ answers_with a_chapter r.
Proof.
  unfold Server.chapter.
  destruct (negb (Server.method req =? "POST")%string).
  { exists 0, (Server.jsonError "Method not allowed" 405), w.
    split; [reflexivity|]. split; [lia|]. apply answered_error. set_solver. }
  apply catch_answers.
  - destruct (Server.json req) as [e|p]; [simpl; lia|]. apply (chapter_block p w).
  - destruct (Server.json req) as [e|p]; [discriminate|]. apply (chapter_block p w).
  - intros e. apply answered_error. set_solver.
Qed.

Lemma cover_answers req w :
  match (Server.cover key base req w).1 with
  | Never => True
  | Fulfilled _ r => answers_with a_cover r
  | Rejected _ _ => False
  end.
Proof.
  unfold Server.cover.
  destruct (negb (Server.method req =? "POST")%string).
  { simpl. apply answered_error. set_solver. }
  unfold catch, after.
  match goal with |- context [match ?m w with _ => _ end] => set (block := m) end.
  assert (Hblock : forall t x w', block w = (Fulfilled t x, w') -> answers_with a_cover x).
  { unfold block. destruct (Server.json req) as [e|p]; [discriminate|].
    apply (cover_block p w). }
  destruct (block w) as [[|t x|t e] w1]; simpl; auto.
  - eapply Hblock. reflexivity.
  - apply answered_error. set_solver.
Qed.

End ServerFacts.

(** X8: the three functions never fail: every error is turned into an
    answer. The outline function answers within 45 s and the chapter function
    within 60 s, whatever OpenAI does; the cover function, whose call has no
    deadline, answers whenever its call settles. An answer has status 200 and
    carries the result, an outline, a text that is not empty or a PNG data
    URL, or it has status 400, 405, 500 or 502 and carries an error
    message. *)
Theorem functions_always_answer (key base : option string)
    (JSON_parse : string -> Exn + option RawOutline) :
  (forall req w, exists t r w',
     Server.outline key base JSON_parse req w = (Fulfilled t r, w') /\
     t <= 45000 /\ answers_with an_outline r) /\
  (forall req w, exists t r w',
     Server.chapter key base req w = (Fulfilled t r, w') /\
     t <= 60000 /\ answers_with a_chapter r) /\
  (forall req w,
     match (Server.cover key base req w).1 with
     | Never => True
     | Fulfilled _ r => answers_with a_cover r
     | Rejected _ _ => False
     end).
Proof.
  split; [|split].
  - apply outline_answers.
  - apply chapter_answers.
  - apply cover_answers.
Qed.

Lemma not_post m : m <> "POST" -> negb (m =? "POST")%string = true.
Proof. intros H. apply negb_true_iff, String.eqb_neq, H. Qed.

Lemma no_key_config key base :
  truthy key = false ->
  Server.getOpenAIConfig key base =
    inl (Error "OpenAI API key not configured in server environment.").
Proof.
  intros H. unfold Server.getOpenAIConfig, Server.or_else. rewrite H. reflexivity.
Qed.

(** X9: a request that cannot be served is answered at once and without any
    call to OpenAI, the world being left as it was: 405 to a method other
    than POST, 400 to a body in which a required field is missing, and 500,
    with a message that says so, when the server has no API key. *)
Theorem functions_reject_bad_requests (key base : option string)
    (JSON_parse : string -> Exn + option RawOutline) (w : World) :
  let refused := (Fulfilled 0 (Server.jsonError "Method not allowed" 405), w) in
  let unconfigured :=
    (Fulfilled 0
       (Server.jsonError "OpenAI API key not configured in server environment." 500),
     w) in
  (forall m body, m <> "POST" ->
     Server.outline key base JSON_parse
       {| Server.method := m; Server.json := body |} w = refused) /\
  (forall m body, m <> "POST" ->
     Server.chapter key base {| Server.method := m; Server.json := body |} w = refused) /\
  (forall m body, m <> "POST" ->
     Server.cover key base {| Server.method := m; Server.json := body |} w = refused) /\
  (forall p, Server.outline_options p = None ->
     Server.outline key base JSON_parse
       {| Server.method := "POST"; Server.json := inr p |} w
     = (Fulfilled 0 (Server.jsonError "Missing book options." 400), w)) /\
  (forall p,
     Server.chapter_options p = None \/ Server.chapter_bookInfo p = None \/
     Server.chapter_chapter p = None ->
     Server.chapter key base {| Server.method := "POST"; Server.json := inr p |} w
     = (Fulfilled 0 (Server.jsonError "Missing generation payload." 400), w)) /\
  (forall p, truthy (Server.cover_prompt p) = false ->
     Server.cover key base {| Server.method := "POST"; Server.json := inr p |} w
     = (Fulfilled 0 (Server.jsonError "Missing image prompt." 400), w)) /\
  (truthy key = false ->
     (forall o, Server.outline key base JSON_parse (outline_request o) w = unconfigured) /\
     (forall o info ch i total,
        Server.chapter key base (chapter_request o info ch i total) w = unconfigured) /\
     (forall prompt size, prompt <> "" ->
        Server.cover key base (cover_request prompt size) w = unconfigured)).
Proof.
  intros refused unconfigured.
  split; [|split; [|split; [|split; [|split; [|split]]]]].
  - intros m body Hm. unfold Server.outline. simpl. rewrite (not_post m Hm). reflexivity.
  - intros m body Hm. unfold Server.chapter. simpl. rewrite (not_post m Hm). reflexivity.
  - intros m body Hm. unfold Server.cover. simpl. rewrite (not_post m Hm). reflexivity.
  - intros p Hp. unfold Server.outline. simpl. rewrite Hp. reflexivity.
  - intros p Hp. unfold Server.chapter. simpl.
    destruct (Server.chapter_options p), (Server.chapter_bookInfo p),
             (Server.chapter_chapter p); try reflexivity.
    destruct Hp as [Hp|[Hp|Hp]]; discriminate.
  - intros p Hp. unfold Server.cover. simpl. rewrite Hp. reflexivity.
  - intros Hkey. split; [|split].
    + intros o. unfold Server.outline, Server.callOpenAI. simpl.
      rewrite (no_key_config key base Hkey). reflexivity.
    + intros o info ch i total. unfold Server.chapter, Server.callOpenAI. simpl.
      rewrite (no_key_config key base Hkey). reflexivity.
    + intros prompt size Hp. unfold Server.cover, Server.callOpenAI. simpl.
      rewrite (no_key_config key base Hkey).
      apply String.eqb_neq in Hp. rewrite Hp. reflexivity.
Qed.

(** A GET request, a chapter request without its chapter, and a request to
    a server that has no key. *)
Lemma functions_reject_bad_requests_witness :
  let w := Scenario.unauthorized in
  Server.chapter (Some "sk-server") None
    {| Server.method := "GET"; Server.json := inl (Error "no body") |} w
  = (Fulfilled 0 (Server.jsonError "Method not allowed" 405), w) /\
  Server.chapter (Some "sk-server") None
    {| Server.method := "POST";
       Server.json := inr {| Server.chapter_options := Some Sample.book_options;
                             Server.chapter_bookInfo := Some Sample.info;
                             Server.chapter_chapter := None;
                             Server.chapter_chapterIndex := 0;
                             Server.chapter_totalChapters := 3 |} |} w
  = (Fulfilled 0 (Server.jsonError "Missing generation payload." 400), w) /\
  Server.chapter None None
    (chapter_request Sample.book_options Sample.info (Sample.chapter "one") 0 3) w
  = (Fulfilled 0
       (Server.jsonError "OpenAI API key not configured in server environment." 500),
     w).
Proof.
  intros w.
  destruct (functions_reject_bad_requests (Some "sk-server") None (fun _ => inr None) w)
    as (_ & Hmethod & _ & _ & Hmissing & _).
  destruct (functions_reject_bad_requests None None (fun _ => inr None) w)
    as (_ & _ & _ & _ & _ & _ & Hkey).
  split; [|split].
  - apply Hmethod. discriminate.
  - apply Hmissing. right; right; reflexivity.
  - apply (proj1 (proj2 (Hkey eq_refl))).
Defined.

(** ** The address of OpenAI on the server *)

Lemma endsWith_nonempty b d : d <> "" -> endsWith b d = true -> b <> "".
Proof.
  intros Hd H ->. destruct d; [contradiction|]. discriminate.
Qed.

Lemma key_config k base :
  truthy (Some k) = true ->
  Server.getOpenAIConfig (Some k) base =
    inr (k, if endsWith (Server.or_else base "https://api.openai.com/v1") "/v1"
            then Server.or_else base "https://api.openai.com/v1"
            else Server.or_else base "https://api.openai.com/v1" +:+ "/v1").
Proof.
  intros H. unfold Server.getOpenAIConfig.
  assert (Server.or_else (Some k) "" = k) as ->.
  { unfold Server.or_else. rewrite H. reflexivity. }
  rewrite H. reflexivity.
Qed.

(** X10: the server has a configuration exactly when its API key is set; the
    base address it then uses always ends in /v1: the address given, or the
    default one, as it is when it ends in /v1 already and with /v1 added
    otherwise; and that address given back as the base is left as it is. *)
Theorem server_base_url (key base : option string) :
  match Server.getOpenAIConfig key base with
  | inl e =>
      truthy key = false /\
      e = Error "OpenAI API key not configured in server environment."
  | inr (apiKey, baseUrl) =>
      key = Some apiKey /\ apiKey <> "" /\
      endsWith baseUrl "/v1" = true /\
      (let given := Server.or_else base "https://api.openai.com/v1" in
       baseUrl = given \/ baseUrl = given +:+ "/v1") /\
      Server.getOpenAIConfig key (Some baseUrl) = inr (apiKey, baseUrl)
  end.
Proof.
  destruct (truthy key) eqn:Hkey.
  - destruct key as [k|]; [|discriminate].
    assert (Hk : k <> "").
    { simpl in Hkey. apply negb_true_iff, String.eqb_neq in Hkey. exact Hkey. }
    rewrite (key_config k base Hkey).
    split; [reflexivity|]. split; [exact Hk|].
    set (given := Server.or_else base "https://api.openai.com/v1").
    assert (Hagain : forall b, endsWith b "/v1" = true ->
              Server.getOpenAIConfig (Some k) (Some b) = inr (k, b)).
    { intros b Hb. rewrite (key_config k (Some b) Hkey).
      assert (Server.or_else (Some b) "https://api.openai.com/v1" = b) as ->.
      { unfold Server.or_else.
        assert (truthy (Some b) = true) as ->; [|reflexivity].
        simpl. apply negb_true_iff, String.eqb_neq.
        apply (endsWith_nonempty b "/v1"); [discriminate|exact Hb]. }
      rewrite Hb. reflexivity. }
    destruct (endsWith given "/v1") eqn:Hends.
    + split; [exact Hends|]. split; [left; reflexivity|]. apply Hagain, Hends.
    + split; [apply endsWith_app|]. split; [right; reflexivity|].
      apply Hagain, endsWith_app.
  - rewrite (no_key_config key base Hkey). split; reflexivity.
Qed.

(** With no address given the default one is used as it is; an address
    without /v1 gets it added, also when the address ends in a slash. *)
Example server_base_url_cases :
  Server.getOpenAIConfig (Some "sk-server") None
    = inr ("sk-server", "https://api.openai.com/v1") /\
  Server.getOpenAIConfig (Some "sk-server") (Some "https://proxy.example")
    = inr ("sk-server", "https://proxy.example/v1") /\
  Server.getOpenAIConfig (Some "sk-server") (Some "https://proxy.example/v1/")
    = inr ("sk-server", "https://proxy.example/v1//v1").
Proof. vm_compute. repeat split. Qed.

(** ** The client and the functions together *)

(** An answer of a function that is there before the timer of [postJSON]
    fires. *)
Lemma postJSON_reply path b d w t stringify r rest :
  script w !! path = Some (http t (received stringify r) :: rest) -> t < d ->
  Proxy.postJSON path b d w =
    (let field := match Server.payload r with
                  | Server.ErrorData msg => msg
                  | Server.OutlineData o => stringify o
                  | Server.ContentData c _ _ => c
                  | Server.ImageData image => image
                  end in
     if ok (received stringify r) then Fulfilled t (Value field)
     else Rejected t (Error field),
     popped path b w rest).
Proof.
  intros Hs Ht.
  rewrite (postJSON_answered path b d w t _ rest 0 Hs eq_refl) by lia.
  cbn [parsed received]. cbv zeta. rewrite N.add_0_r. reflexivity.
Qed.

Lemma answer_cases result r :
  answers_with result r ->
  (ok (received (fun _ => EmptyString) r) = true /\ Server.code r = 200 /\
   result (Server.payload r)) \/
  (ok (received (fun _ => EmptyString) r) = false /\
   exists msg, r = Server.jsonError msg (Server.code r)).
Proof.
  destruct r as [st d]. unfold answers_with, ok. simpl.
  intros [[-> Hd]|[Hst [msg ->]]]; [left; auto|right].
  split; [|eauto].
  repeat (apply elem_of_cons in Hst as [->|Hst]; [reflexivity|]). inversion Hst.
Qed.

(** X11: the proxied client and the functions of the server fit together.
    Whatever a function answers to the request of the client, once the
    answer is received in time the client operation ends the same way: with
    the outline, the text or the image of a 200 answer, and otherwise with
    an error whose message is the one the function gave, be it the reason
    OpenAI failed with. *)
Theorem proxied_calls_end_to_end (key base : option string)
    (JSON_parse : string -> Exn + option RawOutline)
    (parseJSON : string -> option (option RawOutline))
    (stringify : option RawOutline -> string)
    (wc : World) (t : N) (rest : list Reply) :
  (forall o ws ts r ws',
     Server.outline key base JSON_parse (outline_request o) ws = (Fulfilled ts r, ws') ->
     script wc !! "/api/ai/outline" = Some (http t (received stringify r) :: rest) ->
     t < 120000 ->
     (exists ol,
        r = Server.jsonResponse (Server.OutlineData ol) 200 /\
        (parseJSON (stringify ol) = Some ol ->
         (Proxy.generateBookOutline parseJSON o wc).1 = Fulfilled t ol)) \/
     (exists msg st,
        r = Server.jsonError msg st /\
        (Proxy.generateBookOutline parseJSON o wc).1 = Rejected t (Error msg))) /\
  (forall o info ch i total ws ts r ws',
     Server.chapter key base (chapter_request o info ch i total) ws
       = (Fulfilled ts r, ws') ->
     script wc !! "/api/ai/chapter" = Some (http t (received stringify r) :: rest) ->
     t < 180000 ->
     (exists c i' total',
        c <> "" /\ r = Server.jsonResponse (Server.ContentData c i' total') 200 /\
        (Proxy.generateChapterContent o info ch i total wc).1 = Fulfilled t (Some c)) \/
     (exists msg st,
        r = Server.jsonError msg st /\
        (Proxy.generateChapterContent o info ch i total wc).1
          = Rejected t (Error msg))) /\
  (forall prompt size ws ts r ws',
     Server.cover key base (cover_request prompt size) ws = (Fulfilled ts r, ws') ->
     script wc !! "/api/ai/cover" = Some (http t (received stringify r) :: rest) ->
     t < 120000 ->
     (exists b64,
        b64 <> "" /\ r = Server.jsonResponse (Server.ImageData (png b64)) 200 /\
        (Proxy.generateCoverImage prompt size wc).1 = Fulfilled t (Some (png b64))) \/
     (exists msg st,
        r = Server.jsonError msg st /\
        (Proxy.generateCoverImage prompt size wc).1 = Rejected t (Error msg))).
Proof.
  split; [|split].
  - intros o ws ts r ws' Hr Hs Ht.
    destruct (outline_answers key base JSON_parse (outline_request o) ws)
      as (ts' & r' & ws'' & Heq & _ & Hans).
    rewrite Hr in Heq. injection Heq as <- <- <-.
    unfold Proxy.generateBookOutline, mbind, M_bind, bind.
    rewrite (postJSON_reply _ _ _ _ _ _ _ _ Hs Ht). cbv zeta.
    destruct (answer_cases _ _ Hans) as [(Hok & Hcode & ol & Hol)|(Hok & msg & Hmsg)];
      change (ok (received stringify r)) with (ok (received (fun _ => EmptyString) r));
      rewrite Hok.
    + left. exists ol. destruct r as [st d]. simpl in *. subst.
      split; [reflexivity|]. intros Hp. simpl. rewrite Hp, N.add_0_r. reflexivity.
    + right. exists msg, (Server.code r). split; [exact Hmsg|].
      rewrite Hmsg. reflexivity.
  - intros o info ch i total ws ts r ws' Hr Hs Ht.
    destruct (chapter_answers key base (chapter_request o info ch i total) ws)
      as (ts' & r' & ws'' & Heq & _ & Hans).
    rewrite Hr in Heq. injection Heq as <- <- <-.
    unfold Proxy.generateChapterContent, mbind, M_bind, bind.
    rewrite (postJSON_reply _ _ _ _ _ _ _ _ Hs Ht). cbv zeta.
    destruct (answer_cases _ _ Hans)
      as [(Hok & Hcode & c & i' & total' & Hc & Hd)|(Hok & msg & Hmsg)];
      change (ok (received stringify r)) with (ok (received (fun _ => EmptyString) r));
      rewrite Hok.
    + left. exists c, i', total'. destruct r as [st d]. simpl in *. subst.
      split; [exact Hc|]. split; [reflexivity|]. simpl. rewrite N.add_0_r. reflexivity.
    + right. exists msg, (Server.code r). split; [exact Hmsg|].
      rewrite Hmsg. reflexivity.
  - intros prompt size ws ts r ws' Hr Hs Ht.
    pose proof (cover_answers key base (cover_request prompt size) ws) as Hans.
    rewrite Hr in Hans. simpl in Hans.
    unfold Proxy.generateCoverImage, mbind, M_bind, bind.
    rewrite (postJSON_reply _ _ _ _ _ _ _ _ Hs Ht). cbv zeta.
    destruct (answer_cases _ _ Hans)
      as [(Hok & Hcode & b64 & Hb & Hd)|(Hok & msg & Hmsg)];
      change (ok (received stringify r)) with (ok (received (fun _ => EmptyString) r));
      rewrite Hok.
    + left. exists b64. destruct r as [st d]. simpl in *. subst.
      split; [exact Hb|]. split; [reflexivity|]. simpl. rewrite N.add_0_r. reflexivity.
    + right. exists msg, (Server.code r). split; [exact Hmsg|].
      rewrite Hmsg. reflexivity.
Qed.

(** OpenAI refuses the key of the server: the function answers 500 with the
    reason, and the client fails with that reason. *)
Lemma proxied_calls_end_to_end_witness :
  let request :=
    chapter_request Sample.book_options Sample.info (Sample.chapter "one") 0 3 in
  let r := Server.jsonError "OpenAI Error: 401 - bad key" 500 in
  (Server.chapter Served.key None request Scenario.unauthorized).1 = Fulfilled 20 r /\
  (Proxy.generateChapterContent Sample.book_options Sample.info (Sample.chapter "one")
     0 3 (Served.client "/api/ai/chapter" r)).1
    = Rejected 35 (Error "OpenAI Error: 401 - bad key").
Proof.
  intros request r. split; [vm_compute; reflexivity|].
  destruct (proxied_calls_end_to_end Served.key None (fun _ => inr None)
              Sample.parseJSON (fun _ => "{outline}")
              (Served.client "/api/ai/chapter" r) 35 []) as (_ & H & _).
  assert (Hserver :
    Server.chapter Served.key None request Scenario.unauthorized =
      (Fulfilled 20 r,
       (Server.chapter Served.key None request Scenario.unauthorized).2))
    by (vm_compute; reflexivity).
  destruct (H Sample.book_options Sample.info (Sample.chapter "one") 0%nat 3%nat
              Scenario.unauthorized 20 r _ Hserver)
    as [(c & i' & total' & _ & Hr & _)|(msg & st & Hr & Hclient)];
    [reflexivity|reflexivity|discriminate Hr|].
  unfold r, Server.jsonError, Server.jsonResponse in Hr.
  injection Hr as _ Hmsg. subst msg. exact Hclient.
Defined.

(** ** The saved state *)

(** Loading what was saved, into a fresh component. *)
Lemma loadState_saveState {C} (a : App C) :
  currentBookId a <> Some "" ->
  loadState (saveState a) initial =
    (setError None a,
     match step a with GENERATING => true | _ => false end).
Proof.
  intros Hid. destruct a as [s o ol b chs e id]. unfold loadState, saveState. simpl.
  destruct id as [id|]; simpl.
  - destruct (String.eqb_spec id "") as [->|Hne]; [contradiction|].
    simpl. destruct o, ol, b; reflexivity.
  - destruct o, ol, b; reflexivity.
Qed.

(** X12: what the effect that saves writes, the effect that loads puts back
    into a fresh component: the step, the options, the outline, the book, the
    chapters generated so far and the identifier of the book; the error
    message is not saved, and the flag to resume is set exactly when the step
    saved is the generating one. *)
Theorem saved_state_round_trip {C} (a : App C) :
  currentBookId a <> Some "" ->
  loadState (saveState a) initial =
    (setError None a,
     match step a with GENERATING => true | _ => false end).
Proof. exact (loadState_saveState a). Qed.

(** The state of a run interrupted after its first chapter. *)
Lemma saved_state_round_trip_witness :
  let a := app (Sample.interrupted Sample.all_down) in
  loadState (saveState a) initial = (setError None a, false).
Proof.
  intros a. apply (saved_state_round_trip a). discriminate.
Defined.

(** X13: mounting the component on the state saved during a generation
    takes the generation up again: it is [handleStartGeneration(true)] on the
    state saved, so the chapters saved are kept and the run goes on after
    them; on a state saved in any other step the state is put back and no
    chapter is asked for; and with no item, or one that is not JSON, the
    component stays as it is. *)
Theorem reload_resumes_generation {C}
    (gen : BookOptions -> BookInfo -> ChapterOutline -> nat -> nat -> M C)
    (a : App C) (w : World) :
  currentBookId a <> Some "" ->
  let restored := {| app := setError None a; world := w; store := []; asked := [] |} in
  (step a = GENERATING -> is_Some (outline a) -> is_Some (options a) ->
   mount gen (Kept (saveState a)) (unmounted w) = handleStartGeneration gen true restored) /\
  (step a <> GENERATING ->
   mount gen (Kept (saveState a)) (unmounted w) = restored) /\
  mount gen Absent (unmounted w) = unmounted w /\
  mount gen Garbled (unmounted w) = unmounted w.
Proof.
  intros Hid restored. unfold mount, unmounted. cbn [app].
  rewrite (loadState_saveState a Hid). cbn [fst snd].
  split; [|split; [|split; reflexivity]].
  - intros -> [ol Hol] [o Ho]. simpl. rewrite Hol, Ho. reflexivity.
  - intros Hstep. destruct (step a); try contradiction;
      destruct (outline (setError None a)), (options (setError None a)); reflexivity.
Qed.

(** The tab is closed while the second chapter is being written, and opened
    again when the proxy answers: the two chapters left are generated and the
    book is completed with the chapter that was saved in front. *)
Lemma reload_resumes_generation_witness :
  let a := setStep GENERATING (app (Sample.interrupted Sample.proxy_up)) in
  let m' := mount Proxy.generateChapterContent (Kept (saveState a))
              (unmounted Sample.proxy_up) in
  m' = handleStartGeneration Proxy.generateChapterContent true
         {| app := setError None a; world := Sample.proxy_up; store := [];
            asked := [] |} /\
  step (app m') = COMPLETED /\
  asked m' = [1; 2]%nat /\
  cc_content <$> generatedChapters (app m') = [Some "# One"; Some "# Two"; Some "# Three"].
Proof.
  intros a m'. split; [|vm_compute; repeat split].
  apply (reload_resumes_generation Proxy.generateChapterContent a Sample.proxy_up);
    [discriminate|reflexivity|eexists; reflexivity|eexists; reflexivity].
Defined.

(** ** The calls to the store *)

Section Store.
Context {C : Type}.
Variable gen : BookOptions -> BookInfo -> ChapterOutline -> nat -> nat -> M C.
Variables (o : BookOptions) (ol : BookOutline) (bookId : option string).





End Store.



(** ** Failure of the outline *)

(** X15: when the outline operation fails with an error, the wizard goes
    back to the input step with the options submitted kept for the form, and
    shows its own sentence followed by the message of the error; no outline
    is stored and no chapter asked for; the book created just before stays
    behind, the only call made to the store. *)
Theorem outline_failure_shown {C}
    (gen : BookOptions -> M (option RawOutline))
    (bookId : option string) (formData : BookOptions) (m : Machine C)
    (t : N) (msg : string) (w' : World) :
  gen formData (submit_world bookId formData m) = (Rejected t (Error msg), w') ->
  exists m',
  handleWizardSubmit gen bookId formData m = Shown m' /\
  step (app m') = INPUT /\
  error (app m') = Some (outline_error +:+ msg) /\
  options (app m') = Some formData /\
  outline (app m') = outline (app m) /\
  generatedChapters (app m') = generatedChapters (app m) /\
  asked m' = asked m /\
  store m' = store m ++ [CreateBook formData] /\
  world m' = w'.
Proof.
  intros Hgen. unfold handleWizardSubmit.
  unfold submit_world in Hgen. rewrite Hgen.
  eexists. split; [reflexivity|]. destruct bookId; repeat split.
Qed.

(** Every provider refuses the connection: the sentence of the wizard ends
    with the reasons of the four providers. *)
Lemma outline_failure_shown_witness :
  let m : Machine (option string) := Sample.blank Sample.all_down in
  exists m',
  handleWizardSubmit (Direct.generateBookOutline Sample.keys Sample.parseJSON)
    None Sample.book_options m = Shown m' /\
  step (app m') = INPUT /\
  error (app m') =
    Some (outline_error +:+
          "All AI providers failed. Gemini: Failed to fetch, OpenAI: Failed to fetch, DeepSeek: Failed to fetch, Ollama: Failed to fetch") /\
  options (app m') = Some Sample.book_options /\
  outline (app m') = None /\
  generatedChapters (app m') = [] /\
  asked m' = [] /\
  store m' = [] ++ [CreateBook Sample.book_options].
Proof.
  intros m.
  destruct (outline_failure_shown
              (Direct.generateBookOutline Sample.keys Sample.parseJSON)
              None Sample.book_options m 6000
              "All AI providers failed. Gemini: Failed to fetch, OpenAI: Failed to fetch, DeepSeek: Failed to fetch, Ollama: Failed to fetch"
              (Direct.generateBookOutline Sample.keys Sample.parseJSON Sample.book_options
                 (submit_world None Sample.book_options m)).2)
    as (m' & H0 & H1 & H2 & H3 & H4 & H5 & H6 & H7 & _); [vm_compute; reflexivity|].
  exists m'. split; [exact H0|].
  split; [exact H1|]. split; [exact H2|]. split; [exact H3|]. split; [exact H4|].
  split; [exact H5|]. split; [exact H6|exact H7].
Defined.

(** ** The name of the exported file *)

Lemma safe_char c :
  let f := fun c : ascii => if is_alnum c then c else "_"%char in
  let lower := fun c : ascii =>
    if code_in 65 90 c || code_in 192 214 c || code_in 216 222 c
    then ascii_of_nat (nat_of_ascii c + 32) else c in
  is_safe (lower (f c)) = true /\ lower (f (lower (f c))) = lower (f c).
Proof.
  destruct c as [[] [] [] [] [] [] [] []]; vm_compute; split; reflexivity.
Qed.

Lemma string_map_length f s : String.length (string_map f s) = String.length s.
Proof. induction s as [|c s IH]; simpl; [reflexivity|]. rewrite IH. reflexivity. Qed.

(** X16: the name an exported file is saved under is made of small letters,
    digits and underscores only, so that it holds no space, dot or path
    separator of the title; it has one character for each character of the
    title, so an empty title gives an empty name; and a title that is such a
    name already is left as it is. *)
Theorem exported_file_name (title : string) :
  string_forall is_safe (safeTitle title) = true /\
  String.length (safeTitle title) = String.length title /\
  safeTitle (safeTitle title) = safeTitle title.
Proof.
  unfold safeTitle, toLowerCase. split; [|split].
  - induction title as [|c s IH]; [reflexivity|]. simpl.
    rewrite (proj1 (safe_char c)), IH. reflexivity.
  - rewrite !string_map_length. reflexivity.
  - induction title as [|c s IH]; [reflexivity|]. simpl.
    rewrite (proj2 (safe_char c)), IH. reflexivity.
Qed.

Example exported_file_name_cases :
  safeTitle "Don't Panic: A Guide (2nd ed.)" = "don_t_panic__a_guide__2nd_ed__" /\
  (DocxExport.exportToDocx {| book := Sample.book_outline; fullChapters := [] |}
     "A. Author" 2026).2 = "green.docx".
Proof. vm_compute. split; reflexivity. Qed.

(** ** The pages of the exported document *)

Lemma bodies_app cs ds : bodies (cs ++ ds) = bodies cs ++ bodies ds.
Proof. unfold bodies. apply omap_app. Qed.

Lemma bodies_Body ps : bodies (DocxExport.Body <$> ps) = ps.
Proof. induction ps as [|p ps IH]; [reflexivity|]. simpl. f_equal. exact IH. Qed.

Lemma page_breaks_app (cs ds : list DocxExport.Child) :
  length (filter (fun c => is_page_break c) (cs ++ ds)) =
    (length (filter (fun c => is_page_break c) cs)
     + length (filter (fun c => is_page_break c) ds))%nat.
Proof. rewrite filter_app, length_app. reflexivity. Qed.

Lemma page_breaks_Body ps :
  filter (fun c => is_page_break c) (DocxExport.Body <$> ps) = [].
Proof. induction ps as [|p ps IH]; [reflexivity|]. simpl. exact IH. Qed.

(** Every text has a first line, so a chapter body has a paragraph. *)
Lemma split_nonempty sep s : split sep s <> [].
Proof.
  destruct s as [|c s]; [discriminate|]. simpl.
  destruct (Ascii.eqb c sep); [discriminate|].
  destruct (split sep s); discriminate.
Qed.

Lemma markdown_nonempty md : Docx.markdownToDocxParagraphs md <> [].
Proof.
  unfold Docx.markdownToDocxParagraphs. intros H%fmap_nil_inv.
  exact (split_nonempty _ _ H).
Qed.

Lemma last_Body ps p :
  last ps = Some p -> last (DocxExport.Body <$> ps) = Some (DocxExport.Body p).
Proof. intros H. rewrite fmap_last, H. reflexivity. Qed.

(** The lines of the table of contents are neither page breaks nor
    paragraphs of a chapter body. *)
Lemma lines_only {A} (f : nat -> A -> DocxExport.Child) (l : list A) :
  (forall i x, is_page_break (f i x) = false /\ bodies [f i x] = []) ->
  filter (fun c => is_page_break c) (imap f l) = [] /\ bodies (imap f l) = [].
Proof.
  revert f. induction l as [|x l IH]; intros f H; [split; reflexivity|].
  destruct (H 0%nat x) as [H1 H2]. destruct (IH (f ∘ S)) as [IH1 IH2].
  { intros i y. apply H. }
  cbn [imap]. split.
  - rewrite filter_cons_False by (rewrite H1; exact id). exact IH1.
  - change (f 0%nat x :: imap (f ∘ S) l) with ([f 0%nat x] ++ imap (f ∘ S) l).
    rewrite bodies_app, H2, IH2. reflexivity.
Qed.

Lemma toc_entries (l : list ChapterOutline) :
  filter (fun c => is_page_break c) (imap DocxExport.tocEntry l) = [] /\
  bodies (imap DocxExport.tocEntry l) = [].
Proof. apply lines_only. intros i x. split; reflexivity. Qed.

Section Chapters.
Variable n : nat.

Lemma chapterChildren_breaks chs :
  forall i, (i + length chs = n)%nat ->
  length (filter (fun c => is_page_break c) (DocxExport.chapterChildren_from i n chs))
    = (length chs - 1)%nat.
Proof.
  induction chs as [|ch rest IH]; intros i Hi; [reflexivity|].
  cbn [DocxExport.chapterChildren_from].
  rewrite !page_breaks_app, page_breaks_Body.
  rewrite (IH (S i)) by (simpl in Hi; lia). simpl in Hi. simpl.
  destruct (Nat.ltb_spec i (n - 1)); destruct rest; simpl in *; lia.
Qed.

Lemma chapterChildren_bodies chs :
  forall i,
  bodies (DocxExport.chapterChildren_from i n chs) =
    mjoin ((fun ch => Docx.markdownToDocxParagraphs (cc_content ch)) <$> chs).
Proof.
  induction chs as [|ch rest IH]; intros i; [reflexivity|].
  cbn [DocxExport.chapterChildren_from].
  rewrite !bodies_app, bodies_Body, (IH (S i)).
  destruct (i <? n - 1)%nat; reflexivity.
Qed.

Lemma chapterChildren_last chs ch :
  forall i, (i + length chs = n)%nat ->
  last chs = Some ch ->
  exists p,
    last (DocxExport.chapterChildren_from i n chs) = Some (DocxExport.Body p) /\
    last (Docx.markdownToDocxParagraphs (cc_content ch)) = Some p.
Proof.
  induction chs as [|c rest IH]; intros i Hi Hlast; [discriminate|].
  cbn [DocxExport.chapterChildren_from].
  destruct rest as [|c2 rest].
  - simpl in Hlast. injection Hlast as ->. simpl in Hi.
    assert ((i <? n - 1)%nat = false) as -> by (apply Nat.ltb_ge; lia).
    cbn [DocxExport.chapterChildren_from]. rewrite !app_nil_r.
    destruct (last (Docx.markdownToDocxParagraphs (cc_content ch))) as [p|] eqn:Hp.
    + exists p. split; [|reflexivity].
      rewrite last_app, (last_Body _ _ Hp). reflexivity.
    + apply last_None in Hp. destruct (markdown_nonempty _ Hp).
  - destruct (IH (S i)) as (p & Hp & Hmd); [simpl in *; lia|exact Hlast|].
    exists p. split; [|exact Hmd].
    rewrite !app_assoc, last_app, Hp. reflexivity.
Qed.

End Chapters.

(** X17: the exported document has a page break after the title page, the
    copyright page and the table of contents, and one between two chapters:
    3 + (n - 1) for n chapters and none after the last chapter, so that a
    document with chapters ends with the last paragraph of its last chapter;
    and the paragraphs of the chapter bodies are those of the conversion of
    each chapter, in the order of the chapters. *)
Theorem docx_pages (b : GeneratedBook string) (authorName : string) (year : nat) :
  let doc := DocxExport.children (DocxExport.exportToDocx b authorName year).1 in
  let n := length (fullChapters b) in
  length (filter (fun c => is_page_break c) doc) = (3 + (n - 1))%nat /\
  bodies doc =
    mjoin ((fun ch => Docx.markdownToDocxParagraphs (cc_content ch)) <$> fullChapters b) /\
  match last (fullChapters b) with
  | Some ch =>
      exists p,
        last doc = Some (DocxExport.Body p) /\
        last (Docx.markdownToDocxParagraphs (cc_content ch)) = Some p
  | None => last doc = Some DocxExport.PageBreak
  end.
Proof.
  intros doc n. unfold doc. cbn [DocxExport.exportToDocx fst DocxExport.children].
  unfold DocxExport.chapterChildren. fold n.
  destruct (toc_entries (chapters (book b))) as [Htoc1 Htoc2].
  split; [|split].
  - unfold DocxExport.tocChildren.
    rewrite !page_breaks_app, Htoc1, (chapterChildren_breaks n) by reflexivity.
    reflexivity.
  - unfold DocxExport.tocChildren.
    rewrite !bodies_app, Htoc2, chapterChildren_bodies. reflexivity.
  - destruct (last (fullChapters b)) as [ch|] eqn:Hlast.
    + destruct (chapterChildren_last n (fullChapters b) ch 0%nat eq_refl Hlast)
        as (p & Hp & Hmd).
      exists p. split; [|exact Hmd]. rewrite !app_assoc, last_app, Hp. reflexivity.
    + apply last_None in Hlast. rewrite Hlast. cbn [DocxExport.chapterChildren_from].
      rewrite app_nil_r. unfold DocxExport.tocChildren.
      rewrite !app_assoc, last_snoc. reflexivity.
Qed.

(** ** The navigation of the e-book *)

#[local] Instance nav_id_inj : Inj (=) (=) (fun k : nat => "navPoint-" +:+ pretty k).
Proof. intros i j H. simpl in H. simplify_eq. by apply (inj pretty). Qed.

Lemma imap_seq_from {A B} (f : nat -> B) (l : list A) (k : nat) :
  imap (fun i _ => f (i + k)%nat) l = f <$> seq k (length l).
Proof.
  revert k. induction l as [|x l IH]; intros k; [reflexivity|].
  cbn [imap length seq fmap list_fmap]. f_equal.
  transitivity (imap (fun i _ => f (i + S k)%nat) l); [|apply IH].
  apply imap_ext. intros i y _. simpl. f_equal. lia.
Qed.

(** A run that completes assembles a book with one chapter for each chapter
    of the outline. *)
Lemma completed_book {C}
    (gen : BookOptions -> BookInfo -> ChapterOutline -> nat -> nat -> M C)
    resume (m : Machine C) ol o :
  outline (app m) = Some ol -> options (app m) = Some o ->
  (resume = true -> (length (generatedChapters (app m)) <= length (chapters ol))%nat) ->
  let m' := handleStartGeneration gen resume m in
  step (app m') = COMPLETED ->
  exists chs,
    generatedBook (app m') = Some {| book := ol; fullChapters := chs |} /\
    length chs = length (chapters ol).
Proof.
  intros Hol Ho Hres m'. unfold m', handleStartGeneration. rewrite Hol, Ho.
  set (m0 := with_app (setError None) _).
  set (start := if resume then _ else 0%nat).
  set (chs0 := if resume then generatedChapters (app m) else []).
  assert (Hlen0 : length chs0 = start /\ (start <= length (chapters ol))%nat).
  { unfold chs0, start. destruct resume; [split; [reflexivity|auto]|split; simpl; lia]. }
  assert (Hstep0 : step (app m0) = GENERATING) by (unfold m0; destruct resume; reflexivity).
  destruct (generation_loop_turns gen o ol (currentBookId (app m))
              (length (chapters ol) - start) start chs0 m0)
    as (n & [[i1 chs1] m1] & Hturns & Hloop).
  destruct (turns_effects _ _ _ _ _ _ _ Hturns) as (_ & _ & new & Hchs & _ & Hlen & _).
  pose proof (turns_step _ _ _ _ _ _ _ Hturns) as Hstep.
  cbn [fst snd] in Hchs, Hstep.
  destruct (generation_loop _ _ _ _ _ _ _ _) as [i2 chs2 m2|m2|m2].
  - destruct Hloop as [-> Heq]. injection Heq as <- <- <-. intros _.
    exists chs1. split; [destruct (currentBookId (app m)); reflexivity|].
    rewrite Hchs, length_app, Hlen. lia.
  - discriminate.
  - destruct Hloop as [_ Hstop]. cbn [fst snd] in Hstop.
    destruct (iteration_stopped _ _ _ _ _ _ _ _ (or_intror Hstop)) as [Happ _].
    rewrite Happ, Hstep, Hstep0. discriminate.
Qed.

(** With as many chapter pages as the outline has chapters, the points of
    the navigation lead to the files of the package, in their order. *)
Lemma navMap_files {C} (b : GeneratedBook C) :
  length (chapters (book b)) = length (fullChapters b) ->
  Ncx.src <$> Ncx.navMap b = Epub.chapterFiles b.
Proof.
  intros Hlen. unfold Ncx.navMap, Ncx.navPoints. rewrite fmap_app, fmap_imap.
  rewrite chapterFiles_seq, <- Hlen. cbn [fmap list_fmap Ncx.src]. f_equal.
  rewrite <- (imap_seq_0 (chapters (book b)) Epub.chapter_file). reflexivity.
Qed.

(** X18: the navigation of the e-book has a point for the title page, one for
    the table of contents and one for each chapter of the outline, numbered
    1, 2, 3, ... in reading order and under identifiers that are all
    different. When the book has a page for each chapter of the outline, the
    points lead to the files written into the package, in the order of the
    spine; and this is so for the book that a completed generation
    assembles. *)
Theorem epub_navigation {C} (b : GeneratedBook C) :
  Ncx.playOrder <$> Ncx.navMap b = seq 1 (length (chapters (book b)) + 2) /\
  NoDup (Ncx.nav_id <$> Ncx.navMap b) /\
  (length (chapters (book b)) = length (fullChapters b) ->
   Ncx.src <$> Ncx.navMap b = Epub.chapterFiles b) /\
  (forall (gen : BookOptions -> BookInfo -> ChapterOutline -> nat -> nat -> M C)
          resume (m : Machine C) ol o,
     outline (app m) = Some ol -> options (app m) = Some o ->
     (resume = true ->
      (length (generatedChapters (app m)) <= length (chapters ol))%nat) ->
     let m' := handleStartGeneration gen resume m in
     step (app m') = COMPLETED ->
     exists b',
       generatedBook (app m') = Some b' /\
       Ncx.src <$> Ncx.navMap b' = Epub.chapterFiles b').
Proof.
  assert (Hids : Ncx.nav_id <$> Ncx.navMap b =
                 (fun k : nat => "navPoint-" +:+ pretty k)
                   <$> seq 1 (length (chapters (book b)) + 2)).
  { unfold Ncx.navMap, Ncx.navPoints. rewrite fmap_app, fmap_imap.
    rewrite Nat.add_comm. cbn [Nat.add seq fmap list_fmap Ncx.nav_id].
    rewrite <- !app_comm_cons, app_nil_l.
    do 2 f_equal.
    exact (imap_seq_from (fun k : nat => "navPoint-" +:+ pretty k)
             (chapters (book b)) 3). }
  split; [|split; [|split]].
  - unfold Ncx.navMap, Ncx.navPoints. rewrite fmap_app, fmap_imap.
    rewrite Nat.add_comm. cbn [Nat.add seq fmap list_fmap Ncx.playOrder].
    rewrite <- !app_comm_cons, app_nil_l. do 2 f_equal.
    rewrite <- (list_fmap_id (seq 3 _)).
    exact (imap_seq_from (fun k : nat => k) (chapters (book b)) 3).
  - rewrite Hids.
    apply (NoDup_fmap_2 (fun k : nat => "navPoint-" +:+ pretty k)), NoDup_seq.
  - apply navMap_files.
  - intros gen resume m ol o Hol Ho Hres m' Hstep.
    destruct (completed_book gen resume m ol o Hol Ho Hres Hstep) as (chs & Hbook & Hlen).
    eexists. split; [exact Hbook|]. apply navMap_files. simpl. symmetry. exact Hlen.
Qed.

(** The book of the sample outline with its three chapters, and the run
    that assembles it. *)
Lemma epub_navigation_witness :
  let b := {| book := Sample.book_outline;
              fullChapters :=
                [{| cc_title := "Chapter one"; cc_content := Some "# One" |};
                 {| cc_title := "Chapter two"; cc_content := Some "# Two" |};
                 {| cc_title := "Chapter three"; cc_content := Some "# Three" |}] |} in
  Ncx.src <$> Ncx.navMap b = Epub.chapterFiles b /\
  exists b',
    generatedBook
      (app (handleStartGeneration Proxy.generateChapterContent false
              (Stored.reviewing Stored.proxy_up))) = Some b' /\
    Ncx.src <$> Ncx.navMap b' = Epub.chapterFiles b'.
Proof.
  intros b. split.
  - apply (proj1 (proj2 (proj2 (epub_navigation b)))). reflexivity.
  - apply (proj2 (proj2 (proj2 (epub_navigation b)))
             Proxy.generateChapterContent false (Stored.reviewing Stored.proxy_up)
             Sample.book_outline Sample.book_options eq_refl eq_refl);
      [discriminate|vm_compute; reflexivity].
Defined.

(** ** Lines and paragraphs *)

Lemma split_length sep s : length (split sep s) = S (occurrences sep s).
Proof.
  induction s as [|c s IH]; [reflexivity|]. simpl.
  destruct (Ascii.eqb c sep); simpl; [rewrite IH; reflexivity|].
  destruct (split sep s) as [|l ls]; [discriminate|]. exact IH.
Qed.

(** X19: the conversion makes one paragraph for each line of the chapter
    body, one more than the body has line feeds: no line is dropped and no
    two lines are merged; the paragraph at each place is the one of the line
    at that place, and the paragraph of a blank line is the empty
    paragraph. *)
Theorem paragraph_per_line (md : string) :
  length (Docx.markdownToDocxParagraphs md) = S (occurrences newline md) /\
  (forall i line,
     split newline md !! i = Some line ->
     Docx.markdownToDocxParagraphs md !! i = Some (Docx.paragraph_of_line line) /\
     (trim line = "" ->
      Docx.markdownToDocxParagraphs md !! i = Some Docx.empty_paragraph)).
Proof.
  unfold Docx.markdownToDocxParagraphs. split.
  - rewrite length_fmap. apply split_length.
  - intros i line Hline. rewrite list_lookup_fmap, Hline. split; [reflexivity|].
    intros Hblank. simpl. rewrite (paragraph_of_blank line Hblank). reflexivity.
Qed.

(** The blank second line of a body of three lines. *)
Lemma paragraph_per_line_witness :
  Docx.markdownToDocxParagraphs (join nl ["# One"; "  "; "text"]) !! 1%nat
  = Some Docx.empty_paragraph.
Proof.
  destruct (paragraph_per_line (join nl ["# One"; "  "; "text"])) as [_ H].
  destruct (H 1%nat "  ") as [_ Hb]; [vm_compute; reflexivity|].
  apply Hb. vm_compute. reflexivity.
Defined.

Example paragraph_per_line_cases :
  Docx.markdownToDocxParagraphs "" = [Docx.empty_paragraph] /\
  length (Docx.markdownToDocxParagraphs (join nl ["# One"; ""; "text"; ""])) = 4%nat.
Proof. vm_compute. split; reflexivity. Qed.

(** ** Lines without emphasis *)

Lemma split_emphasis_all_plain s :
  plain s = true -> Docx.split_emphasis s = [s].
Proof.
  intros Hp. unfold Docx.split_emphasis.
  replace (S (String.length s)) with (String.length s + 1)%nat by lia.
  rewrite (split_emphasis_end s Hp 0 ""). reflexivity.
Qed.

Lemma not_marked s :
  is_marked s = false ->
  startsWith s "# " = false /\ startsWith s "## " = false /\
  startsWith s "### " = false /\ startsWith s "- " = false /\
  startsWith s "* " = false.
Proof.
  unfold is_marked. intros Hm.
  apply orb_false_iff in Hm as [Hm H5]. apply orb_false_iff in Hm as [Hm H4].
  apply orb_false_iff in Hm as [Hm H3]. apply orb_false_iff in Hm as [H1 H2].
  auto.
Qed.

(** A line that is neither blank nor marked becomes a paragraph of runs. *)
Lemma paragraph_of_runs l :
  trim l <> "" -> is_marked (trim l) = false ->
  Docx.paragraph_of_line l =
    Docx.runs_paragraph (Docx.run_of <$> Docx.split_emphasis (trim l)).
Proof.
  intros Hne Hm. unfold Docx.paragraph_of_line.
  destruct (not_marked _ Hm) as (H1 & H2 & H3 & H4 & H5).
  rewrite H1, H2, H3, H4, H5.
  apply String.eqb_neq in Hne. rewrite Hne. reflexivity.
Qed.

(** X20: a line that is not blank, opens with none of the heading and list
    markers and holds neither asterisk nor underscore becomes a paragraph of
    one run, which is not bold and not in italics and holds the line without
    the white space around it. A heading of a fourth level is such a line:
    it stays as it is written. *)
Theorem plain_line_single_run (line : string) :
  trim line <> "" -> is_marked (trim line) = false -> plain (trim line) = true ->
  Docx.paragraph_of_line line = Docx.runs_paragraph [plain_run (trim line)].
Proof.
  intros Hne Hm Hp. rewrite (paragraph_of_runs line Hne Hm).
  rewrite (split_emphasis_all_plain _ Hp). simpl.
  rewrite (run_of_plain _ Hp). reflexivity.
Qed.

Lemma plain_line_single_run_witness :
  Docx.paragraph_of_line "  #### Deep dive " =
    Docx.runs_paragraph [plain_run (trim "  #### Deep dive ")].
Proof.
  apply (plain_line_single_run "  #### Deep dive "); [discriminate|reflexivity..].
Defined.

(** ** Headings *)

(** X21: a line that, without the white space around it, is one, two or
    three hash signs, a space and a text becomes a heading of the first,
    second or third level that holds the text after the marker, whatever the
    text is, with the spacing of its level. *)
Theorem heading_levels (level : Docx.HeadingLevel) (line h : string) :
  trim line = marker level +:+ h ->
  Docx.paragraph_of_line line =
    Docx.heading_paragraph level h (spacing level).1 (spacing level).2.
Proof.
  intros H. unfold Docx.paragraph_of_line, startsWith. rewrite H.
  destruct level; unfold marker, spacing; cbn [fst snd].
  - change (String.eqb ("# " +:+ h) "") with false.
    rewrite (prefix_app "# " h), replace_prefix. reflexivity.
  - change (String.eqb ("## " +:+ h) "") with false.
    change (String.prefix "# " ("## " +:+ h)) with false.
    rewrite (prefix_app "## " h), replace_prefix. reflexivity.
  - change (String.eqb ("### " +:+ h) "") with false.
    change (String.prefix "# " ("### " +:+ h)) with false.
    change (String.prefix "## " ("### " +:+ h)) with false.
    rewrite (prefix_app "### " h), replace_prefix. reflexivity.
Qed.

(** A heading of the third level whose text holds a hash sign and
    underscores. *)
Lemma heading_levels_witness :
  Docx.paragraph_of_line " ### Step # 1: __plan__" =
    Docx.heading_paragraph Docx.HEADING_3 "Step # 1: __plan__" 200 100.
Proof.
  apply (heading_levels Docx.HEADING_3 " ### Step # 1: __plan__" "Step # 1: __plan__").
  reflexivity.
Defined.

(** ** Italic spans *)

(** The lazy run stops at the first single delimiter. *)
Lemma lazy_until_single c t post :
  inner c t = true ->
  Docx.lazy_until (single c) (t +:+ single c +:+ post) = Some (t, post).
Proof.
  induction t as [|x t IH]; intros Hin; rewrite lazy_until_unfold.
  - rewrite str_app_nil_l, prefix_app, string_drop_app. reflexivity.
  - unfold inner in Hin. simpl in Hin.
    apply andb_true_iff in Hin as [[Hlt Hx]%andb_true_iff Hin].
    apply negb_true_iff in Hlt. apply negb_true_iff, Ascii.eqb_neq in Hx.
    rewrite str_app_cons. unfold single at 1.
    rewrite prefix_head by congruence.
    rewrite Hlt, (IH Hin). reflexivity.
Qed.

Lemma inner_head c x t : inner c (String x t) = true -> c <> x.
Proof.
  unfold inner. simpl. intros [[_ Hx]%andb_true_iff _]%andb_true_iff.
  apply negb_true_iff, Ascii.eqb_neq in Hx. congruence.
Qed.

(** At an italic span that is not empty the pattern matches the whole span,
    by its third alternative for asterisks and by its fourth for
    underscores. *)
Lemma emphasis_at_italic c t post :
  c = "*"%char \/ c = "_"%char ->
  inner c t = true -> t <> "" ->
  Docx.emphasis_at (single c +:+ t +:+ single c +:+ post)
  = Some (single c +:+ t +:+ single c, post).
Proof.
  intros Hc Hin Hne. destruct t as [|x t]; [contradiction|].
  pose proof (inner_head c x t Hin) as Hx.
  assert (Hd : Docx.delimited (single c)
                 (single c +:+ String x t +:+ single c +:+ post)
               = Some (single c +:+ String x t +:+ single c, post)).
  { unfold Docx.delimited.
    rewrite prefix_app, string_drop_app, (lazy_until_single c _ post Hin). reflexivity. }
  unfold Docx.emphasis_at.
  assert (Hnot : forall d : ascii,
    Docx.delimited (double d) (single c +:+ String x t +:+ single c +:+ post) = None).
  { intros d. unfold Docx.delimited, double, single.
    rewrite !str_app_cons, str_app_nil_l, prefix_cons.
    destruct (ascii_dec d c) as [->|]; [|reflexivity].
    rewrite prefix_head by exact Hx. reflexivity. }
  change "**" with (double "*"). change "__" with (double "_").
  rewrite !Hnot.
  destruct Hc as [-> | ->].
  - change "*" with (single "*"). rewrite Hd. reflexivity.
  - assert (Docx.delimited "*" (single "_" +:+ String x t +:+ single "_" +:+ post) = None)
      as ->; [|exact Hd].
    unfold Docx.delimited, single. rewrite !str_app_cons.
    rewrite prefix_head by discriminate. reflexivity.
Qed.

Lemma split_emphasis_italic c pre t post :
  c = "*"%char \/ c = "_"%char ->
  plain pre = true -> inner c t = true -> t <> "" -> plain post = true ->
  Docx.split_emphasis (pre +:+ single c +:+ t +:+ single c +:+ post)
  = [pre; single c +:+ t +:+ single c; post].
Proof.
  intros Hc Hpre Hin Hne Hpost. unfold Docx.split_emphasis.
  replace (S (String.length (pre +:+ single c +:+ t +:+ single c +:+ post)))
    with (String.length pre + S (String.length post + S (String.length t + 1)))%nat
    by (rewrite !str_length_app; simpl; lia).
  rewrite (split_emphasis_plain pre Hpre), str_app_nil_l.
  pose proof (emphasis_at_italic c t post Hc Hin Hne) as Hat.
  unfold single at 1. unfold single at 1 in Hat.
  rewrite !str_app_cons in *. cbn [Docx.split_emphasis_from].
  rewrite Hat. f_equal. f_equal.
  rewrite (split_emphasis_end post Hpost). reflexivity.
Qed.

Lemma slice_inner_single c t : slice_inner 1 (single c +:+ t +:+ single c) = t.
Proof.
  unfold slice_inner. rewrite !str_length_app.
  replace (String.length (single c) + (String.length t + String.length (single c)) - 1 - 1)%nat
    with (String.length t) by (simpl; lia).
  unfold single at 1. rewrite !str_app_cons, str_app_nil_l. simpl.
  apply substring_app.
Qed.

Lemma run_of_italic c t :
  c = "*"%char \/ c = "_"%char ->
  inner c t = true -> t <> "" ->
  Docx.run_of (single c +:+ t +:+ single c) = italic_run t.
Proof.
  intros Hc Hin Hne. destruct t as [|x t]; [contradiction|].
  pose proof (inner_head c x t Hin) as Hx.
  unfold Docx.run_of.
  assert (He : endsWith (single c +:+ String x t +:+ single c) (single c) = true)
    by (rewrite <- str_app_assoc; apply endsWith_app).
  assert (Hs : startsWith (single c +:+ String x t +:+ single c) (single c) = true)
    by apply prefix_app.
  rewrite slice_inner_single.
  assert (Hdouble : forall d : ascii,
    startsWith (single c +:+ String x t +:+ single c) (double d) = false).
  { intros d. unfold startsWith, single, double.
    rewrite !str_app_cons, str_app_nil_l, prefix_cons.
    destruct (ascii_dec d c) as [->|]; [|reflexivity].
    apply prefix_head, Hx. }
  change "**" with (double "*"). change "__" with (double "_").
  rewrite !Hdouble. cbn [andb orb].
  destruct Hc as [-> | ->].
  - change "*" with (single "*"). rewrite Hs, He. reflexivity.
  - change "_" with (single "_"). rewrite Hs, He, orb_true_r. reflexivity.
Qed.

(** X22: in a line of runs, a text between two single asterisks or two
    single underscores, not empty and without that character, becomes one
    run in italics that holds the text without its delimiters, between the
    run of the text before it and the run of the text after it. The
    underscores inside a name are read this way too. *)
Theorem italic_span (line : string) (c : ascii) (pre t post : string) :
  c = "*"%char \/ c = "_"%char ->
  trim line = pre +:+ single c +:+ t +:+ single c +:+ post ->
  is_marked (trim line) = false ->
  plain pre = true -> inner c t = true -> t <> "" -> plain post = true ->
  Docx.paragraph_of_line line =
    Docx.runs_paragraph [plain_run pre; italic_run t; plain_run post].
Proof.
  intros Hc Hl Hm Hpre Hin Hne Hpost.
  rewrite (paragraph_of_runs line); [|rewrite Hl; destruct pre; discriminate|exact Hm].
  rewrite Hl, (split_emphasis_italic c pre t post Hc Hpre Hin Hne Hpost).
  simpl fmap.
  rewrite (run_of_plain pre Hpre), (run_of_plain post Hpost),
          (run_of_italic c t Hc Hin Hne).
  reflexivity.
Qed.

(** A name written with underscores loses them and has its middle part in
    italics. *)
Lemma italic_span_witness :
  Docx.paragraph_of_line "Set max_retry_count to 3." =
    Docx.runs_paragraph
      [plain_run "Set max"; italic_run "retry"; plain_run "count to 3."].
Proof.
  apply (italic_span "Set max_retry_count to 3." "_" "Set max" "retry" "count to 3.");
    [right; reflexivity|reflexivity|reflexivity|reflexivity|reflexivity|discriminate
    |reflexivity].
Defined.

(** ** Delimiters with nothing between them *)

(** A delimiter does not close in a text that does not hold its
    character. *)
Lemma lazy_until_absent c d s :
  string_forall (is_not c) s = true -> Docx.lazy_until (String c d) s = None.
Proof.
  induction s as [|x s IH]; intros H; [reflexivity|].
  rewrite lazy_until_unfold, (prefix_absent c d _ H).
  simpl in H. apply andb_true_iff in H as [_ H]. rewrite (IH H).
  destruct (line_terminator x); reflexivity.
Qed.

Lemma plain_without c s :
  c = "*"%char \/ c = "_"%char -> plain s = true -> string_forall (is_not c) s = true.
Proof.
  intros Hc. unfold plain. induction s as [|x s IH]; [reflexivity|]. simpl.
  intros [Hx Hs]%andb_true_iff. rewrite (IH Hs), andb_true_r.
  apply negb_true_iff, orb_false_iff in Hx as [H1 H2]. unfold is_not.
  destruct Hc as [-> | ->]; [rewrite H1|rewrite H2]; reflexivity.
Qed.

Lemma emphasis_at_lone c post :
  c = "*"%char \/ c = "_"%char -> plain post = true ->
  Docx.emphasis_at (double c +:+ post) = Some (double c, post).
Proof.
  intros Hc Hpost. pose proof (plain_without c post Hc Hpost) as Hwithout.
  unfold Docx.emphasis_at.
  assert (Hlong : Docx.delimited (double c) (double c +:+ post) = None).
  { unfold Docx.delimited. rewrite prefix_app, string_drop_app.
    unfold double. rewrite (lazy_until_absent c _ post Hwithout). reflexivity. }
  assert (Hshort : Docx.delimited (single c) (double c +:+ post) = Some (double c, post)).
  { unfold Docx.delimited, double, single.
    rewrite !str_app_cons, str_app_nil_l, prefix_cons.
    destruct (ascii_dec c c); [|contradiction].
    cbn [String.prefix String.length string_drop].
    rewrite lazy_until_unfold, prefix_cons.
    destruct (ascii_dec c c); [|contradiction].
    destruct post; reflexivity. }
  destruct Hc as [-> | ->].
  - change "**" with (double "*"). rewrite Hlong.
    assert (Docx.delimited "__" (double "*" +:+ post) = None) as ->.
    { unfold Docx.delimited, double. rewrite !str_app_cons.
      rewrite prefix_head by discriminate. reflexivity. }
    change "*" with (single "*"). rewrite Hshort. reflexivity.
  - assert (Docx.delimited "**" (double "_" +:+ post) = None) as ->.
    { unfold Docx.delimited, double. rewrite !str_app_cons.
      rewrite prefix_head by discriminate. reflexivity. }
    change "__" with (double "_"). rewrite Hlong.
    assert (Docx.delimited "*" (double "_" +:+ post) = None) as ->.
    { unfold Docx.delimited, double. rewrite !str_app_cons.
      rewrite prefix_head by discriminate. reflexivity. }
    change "_" with (single "_"). rewrite Hshort. reflexivity.
Qed.

(** X23: two asterisks, or two underscores, that no further one follows in
    the line are read as a span with nothing in it: they are taken out of
    the text, and an empty bold run stands in their place between the run of
    the text before them and the run of the text after them. *)
Theorem lone_delimiters_vanish (line : string) (c : ascii) (pre post : string) :
  c = "*"%char \/ c = "_"%char ->
  trim line = pre +:+ double c +:+ post ->
  is_marked (trim line) = false ->
  plain pre = true -> plain post = true ->
  Docx.paragraph_of_line line =
    Docx.runs_paragraph [plain_run pre; bold_run ""; plain_run post].
Proof.
  intros Hc Hl Hm Hpre Hpost.
  rewrite (paragraph_of_runs line); [|rewrite Hl; destruct pre; discriminate|exact Hm].
  rewrite Hl. unfold Docx.split_emphasis.
  replace (S (String.length (pre +:+ double c +:+ post)))
    with (String.length pre + S (String.length post + 2))%nat
    by (rewrite !str_length_app; simpl; lia).
  rewrite (split_emphasis_plain pre Hpre), str_app_nil_l.
  pose proof (emphasis_at_lone c post Hc Hpost) as Hat.
  unfold double at 1. unfold double at 1 in Hat.
  rewrite !str_app_cons in *. cbn [Docx.split_emphasis_from].
  rewrite Hat.
  rewrite (split_emphasis_end post Hpost 1 ""), str_app_nil_l.
  cbn [fmap list_fmap]. rewrite (run_of_plain pre Hpre), (run_of_plain post Hpost).
  destruct Hc as [-> | ->]; reflexivity.
Qed.

(** A power written with two asterisks. *)
Lemma lone_delimiters_vanish_witness :
  Docx.paragraph_of_line "Compute 2 ** 10 first." =
    Docx.runs_paragraph [plain_run "Compute 2 "; bold_run ""; plain_run " 10 first."].
Proof.
  apply (lone_delimiters_vanish "Compute 2 ** 10 first." "*" "Compute 2 " " 10 first.");
    [left; reflexivity|reflexivity..].
Defined.

(** ** The boxes of the wizard *)

Lemma array_includes_In l x : Wizard.array_includes l x = true <-> In x l.
Proof.
  unfold Wizard.array_includes. rewrite existsb_exists. split.
  - intros (y & Hy & ->%String.eqb_eq). exact Hy.
  - intros H. exists x. split; [exact H|apply String.eqb_refl].
Qed.

Lemma array_includes_filter l x e :
  Wizard.array_includes (List.filter (fun y => negb (String.eqb y x)) l) e
  = Wizard.array_includes l e && negb (String.eqb e x).
Proof.
  induction l as [|y l IH]; [reflexivity|]. cbn [List.filter].
  destruct (String.eqb_spec y x) as [->|Hy]; cbn [negb].
  - rewrite IH. unfold Wizard.array_includes. cbn [existsb].
    destruct (String.eqb_spec e x); cbn [negb orb]; [|reflexivity].
    rewrite !andb_false_r. reflexivity.
  - unfold Wizard.array_includes in *. cbn [existsb]. rewrite IH.
    destruct (String.eqb_spec e y) as [->|]; cbn [orb]; [|reflexivity].
    destruct (String.eqb_spec y x); [contradiction|reflexivity].
Qed.

Lemma array_includes_push l x e :
  Wizard.array_includes (l ++ [x]) e = Wizard.array_includes l e || String.eqb e x.
Proof.
  unfold Wizard.array_includes. rewrite existsb_app. cbn [existsb].
  rewrite orb_false_r. reflexivity.
Qed.

Lemma checked_toggle extra prev e :
  Wizard.checked (Wizard.handleExtraChange extra prev) e
  = if String.eqb e extra then negb (Wizard.checked prev e) else Wizard.checked prev e.
Proof.
  unfold Wizard.checked, Wizard.handleExtraChange.
  destruct (Wizard.array_includes (extras prev) extra) eqn:Hin; cbn [extras Wizard.with_extras].
  - rewrite array_includes_filter.
    destruct (String.eqb_spec e extra) as [->|]; cbn [negb].
    + rewrite Hin. reflexivity.
    + apply andb_true_r.
  - rewrite array_includes_push.
    destruct (String.eqb_spec e extra) as [->|].
    + rewrite Hin. reflexivity.
    + apply orb_false_r.
Qed.

(** X24: a click on the box of an extra turns that box over, from selected
    to not selected and back, and leaves every other box and every other
    field of the form as it was. This holds for every list of extras that
    the form may have been opened with, one with repeated entries
    included. *)
Theorem extra_box_toggles (extra : string) (prev : BookOptions) :
  let next := Wizard.handleExtraChange extra prev in
  Wizard.checked next extra = negb (Wizard.checked prev extra)
  /\ (forall other, other <> extra -> Wizard.checked next other = Wizard.checked prev other)
  /\ Wizard.with_extras next (extras prev) = prev.
Proof.
  cbv zeta. split; [|split].
  - rewrite checked_toggle, String.eqb_refl. reflexivity.
  - intros other Hother. rewrite checked_toggle.
    destruct (String.eqb_spec other extra); [contradiction|reflexivity].
  - unfold Wizard.handleExtraChange.
    destruct (Wizard.array_includes (extras prev) extra), prev; reflexivity.
Qed.

(** A click on the first of two boxes selected leaves the second one
    selected alone. *)
Lemma extra_box_toggles_witness :
  let prev := Wizard.with_extras Wizard.blank ["Worksheets"; "Checklists"] in
  extras (Wizard.handleExtraChange "Worksheets" prev) = ["Checklists"] /\
  Wizard.checked (Wizard.handleExtraChange "Worksheets" prev) "Checklists" = true.
Proof.
  intros prev. split; [reflexivity|].
  destruct (extra_box_toggles "Worksheets" prev) as (_ & H & _).
  rewrite H; [reflexivity|discriminate].
Defined.

Lemma NoDup_List_filter (f : string -> bool) l : NoDup l -> NoDup (List.filter f l).
Proof.
  induction 1 as [|x l Hx Hnd IH]; [constructor|]. cbn [List.filter].
  destruct (f x); [|exact IH]. constructor; [|exact IH].
  intros Hin%list_elem_of_In%filter_In. apply Hx, list_elem_of_In, Hin.
Qed.

Lemma toggle_NoDup extra prev :
  NoDup (extras prev) -> NoDup (extras (Wizard.handleExtraChange extra prev)).
Proof.
  intros Hnd. unfold Wizard.handleExtraChange.
  destruct (Wizard.array_includes (extras prev) extra) eqn:Hin; cbn [extras Wizard.with_extras].
  - apply NoDup_List_filter, Hnd.
  - apply NoDup_app. split; [exact Hnd|]. split; [|apply NoDup_singleton].
    intros x Hx ->%list_elem_of_singleton.
    apply list_elem_of_In, array_includes_In in Hx. congruence.
Qed.

(** X25: after any sequence of clicks on the boxes of a form whose list of
    extras has no repeated entry, an extra is selected exactly when it was
    selected at the start and has been clicked an even number of times, or
    was not and has been clicked an odd number of times; and the list still
    has no repeated entry. *)
Theorem extras_after_clicks (clicks : list string) (formData : BookOptions) :
  NoDup (extras formData) ->
  (forall e, Wizard.checked (Wizard.clicked clicks formData) e
             = xorb (Wizard.checked formData e) (Nat.odd (count_occ String.string_dec clicks e)))
  /\ NoDup (extras (Wizard.clicked clicks formData)).
Proof.
  revert formData. induction clicks as [|x clicks IH]; intros formData Hnd.
  - split; [|exact Hnd]. intros e. cbn. rewrite xorb_false_r. reflexivity.
  - destruct (IH (Wizard.handleExtraChange x formData) (toggle_NoDup x formData Hnd))
      as [Hc Hn].
    split; [|exact Hn]. intros e.
    change (Wizard.clicked (x :: clicks) formData)
      with (Wizard.clicked clicks (Wizard.handleExtraChange x formData)).
    rewrite Hc, checked_toggle. cbn [count_occ].
    destruct (String.string_dec x e) as [->|Hne].
    + rewrite String.eqb_refl, Nat.odd_succ, <- Nat.negb_odd.
      destruct (Wizard.checked formData e), (Nat.odd _); reflexivity.
    + destruct (String.eqb_spec e x); [congruence|reflexivity].
Qed.

(** On the blank form, three clicks of which two are on the same box leave
    the other box selected alone. *)
Lemma extras_after_clicks_witness :
  Wizard.checked
    (Wizard.clicked ["Worksheets"; "Checklists"; "Worksheets"] (Wizard.initialFormData None))
    "Checklists" = true
  /\ extras
       (Wizard.clicked ["Worksheets"; "Checklists"; "Worksheets"] (Wizard.initialFormData None))
     = ["Checklists"].
Proof.
  destruct (extras_after_clicks ["Worksheets"; "Checklists"; "Worksheets"]
              (Wizard.initialFormData None) (NoDup_nil_2 (A:=string))) as [Hc _].
  split; [rewrite Hc; reflexivity|reflexivity].
Defined.
